(** * openapi-mcp-server: the operation registry and the request executor

    A shallow embedding of [src/api-client.ts] (class [APIClient]), of the
    tool-call handler of [src/server.ts], of [main] of [src/index.ts], and of
    the schema resolver described for the tool generator, with the
    properties stated about them.

    Conventions of the embedding.
    - A JavaScript string is the list of its UTF-16 code units ([list N]);
      [js "..."] turns an ASCII literal of the source into that list.
    - A value handed in by a caller is a JSON value ([JsValue]); [undefined]
      is the absence of a property ([None] of a lookup).  A read of [args]
      under a name that a document chooses ([read_property]) also finds the
      members inherited from [Object.prototype]; a read under a fixed name
      that is none of them ([get_prop]) sees own properties only.
    - A number carries the exact decimal value of its literal; rounding to
      binary64 is outside the embedding and no statement below depends on it.
    - A JavaScript object used as a record of the OpenAPI document is a Rocq
      record; one that is enumerated ([Object.entries], [Object.keys]) is the
      list of its entries in enumeration order; one used as a dictionary
      ([Map], headers, query parameters) is a [gmap].
    - A [throw] is the [Throw] result of the error monad [Exc]; the one
      network call of the executor is recorded in a log of issued requests. *)

From Stdlib Require Import String Ascii.
From stdpp Require Import gmap list fin_maps options.

Local Open Scope N_scope.
Local Open Scope list_scope.

Set Warnings "-register-all".

(** ** JavaScript strings *)

Abbreviation jsstring := (list N).

Definition js (s : string) : jsstring :=
  (λ a, N_of_ascii a) <$> list_ascii_of_string s.

Definition str_eqb (a b : jsstring) : bool := bool_decide (a = b).

Definition truthy_str (s : jsstring) : bool :=
  match s with [] => false | _ => true end.

Definition in_range (lo hi c : N) : bool := (lo <=? c) && (c <=? hi).

Definition is_digit (c : N) : bool := in_range 48 57 c.
Definition is_upper (c : N) : bool := in_range 65 90 c.
Definition is_lower (c : N) : bool := in_range 97 122 c.

(** The character class [[a-zA-Z0-9]]. *)
Definition is_alnum (c : N) : bool := is_lower c || is_upper c || is_digit c.

(** WhiteSpace and LineTerminator of ECMAScript: what [String.prototype.trim]
    strips and what the numeric conversion of a string skips. *)
Definition is_whitespace (c : N) : bool :=
  in_range 9 13 c || (c =? 32) || (c =? 160) || (c =? 5760)
  || in_range 8192 8202 c || (c =? 8232) || (c =? 8233) || (c =? 8239)
  || (c =? 8287) || (c =? 12288) || (c =? 65279).

Fixpoint drop_ws (s : jsstring) : jsstring :=
  match s with
  | c :: r => if is_whitespace c then drop_ws r else s
  | [] => []
  end.

(** [String.prototype.trim] *)
Definition trim (s : jsstring) : jsstring :=
  reverse (drop_ws (reverse (drop_ws s))).

(** [s.split(',')] *)
Fixpoint split_comma (s : jsstring) : list jsstring :=
  match s with
  | [] => [[]]
  | c :: r =>
      if c =? 44 then [] :: split_comma r
      else match split_comma r with
           | p :: ps => (c :: p) :: ps
           | [] => [[c]]
           end
  end.

(** [parts.join(sep)] on strings *)
Fixpoint join (sep : jsstring) (parts : list jsstring) : jsstring :=
  match parts with
  | [] => []
  | [p] => p
  | p :: ps => p ++ sep ++ join sep ps
  end.

(** [String.prototype.toLowerCase], on the ASCII letters.  The code points
    outside ASCII whose lower case is an ASCII letter are U+212A (k) and
    U+0130 (i followed by U+0307); the source compares the result with
    ['true'] and ['false'] only, which contain neither. *)
Definition lower_unit (c : N) : N := if is_upper c then c + 32 else c.
Definition toLowerCase (s : jsstring) : jsstring := lower_unit <$> s.

(** [method.toUpperCase()], on the ASCII letters of the seven verbs. *)
Definition upper_unit (c : N) : N := if is_lower c then c - 32 else c.
Definition toUpperCase (s : jsstring) : jsstring := upper_unit <$> s.

Fixpoint is_prefix (p s : jsstring) : bool :=
  match p, s with
  | [], _ => true
  | a :: p', b :: s' => (a =? b) && is_prefix p' s'
  | _ :: _, [] => false
  end.

(** [s.includes(p)] on strings *)
Fixpoint str_includes (p s : jsstring) : bool :=
  is_prefix p s ||
  match s with
  | [] => false
  | _ :: s' => str_includes p s'
  end.

(** [list.includes(x)] on an array of strings *)
Definition includes (l : list jsstring) (x : jsstring) : bool :=
  existsb (str_eqb x) l.

(** [s.replace(pat, repl)] for a string pattern: the first occurrence only.
    (The replacement texts of the source are outputs of
    [encodeURIComponent], which contain no [$].) *)
Fixpoint replace_first (pat repl s : jsstring) : jsstring :=
  if is_prefix pat s then repl ++ drop (length pat) s
  else match s with
       | [] => []
       | c :: r => c :: replace_first pat repl r
       end.

(** Decimal digits of a natural number, as code units. *)
Fixpoint uint_units (d : Decimal.uint) : jsstring :=
  match d with
  | Decimal.Nil => []
  | Decimal.D0 r => 48 :: uint_units r
  | Decimal.D1 r => 49 :: uint_units r
  | Decimal.D2 r => 50 :: uint_units r
  | Decimal.D3 r => 51 :: uint_units r
  | Decimal.D4 r => 52 :: uint_units r
  | Decimal.D5 r => 53 :: uint_units r
  | Decimal.D6 r => 54 :: uint_units r
  | Decimal.D7 r => 55 :: uint_units r
  | Decimal.D8 r => 56 :: uint_units r
  | Decimal.D9 r => 57 :: uint_units r
  end.

Definition N_to_units (n : N) : jsstring := uint_units (N.to_uint n).

(** ** Errors *)

(** What a [throw] carries: [new Error(message)] of the source, or one of the
    errors the JavaScript runtime raises itself. *)
Inductive JsError :=
| Error (message : jsstring)
| TypeError      (* a value that cannot be converted to a primitive *)
| SyntaxError    (* [JSON.parse] on a text that is not JSON *)
| URIError.      (* [encodeURIComponent] on a lone surrogate *)

Inductive Exc (A : Type) :=
| Ok (a : A)
| Throw (e : JsError).
Arguments Ok {A} a.
Arguments Throw {A} e.

#[global] Instance Exc_ret : MRet Exc := λ A a, Ok a.

#[global] Instance Exc_bind : MBind Exc := λ A B k m,
  match m with
  | Ok a => k a
  | Throw e => Throw e
  end.

(** ** Numbers *)

(** [Finite neg digits exponent] is [(-1)^neg * digits * 10^exponent], with
    [digits] the decimal digits (values 0..9), most significant first, without
    leading or trailing zero; zero has no digit and exponent 0. *)
Inductive JsNumber :=
| NaN
| Infinity (negative : bool)
| Finite (negative : bool) (digits : list N) (exponent : Z).

Definition number_zero : JsNumber := Finite false [] 0%Z.

Fixpoint drop_zeros (ds : list N) : list N :=
  match ds with
  | d :: r => if d =? 0 then drop_zeros r else ds
  | [] => []
  end.

(** The canonical form of [digits * 10^e]. *)
Definition mk_number (neg : bool) (ds : list N) (e : Z) : JsNumber :=
  let ds1 := drop_zeros ds in
  let ds2 := reverse (drop_zeros (reverse ds1)) in
  match ds2 with
  | [] => Finite neg [] 0%Z
  | _ => Finite neg ds2 (e + Z.of_nat (length ds1 - length ds2))%Z
  end.

Definition number_of_N (n : N) : JsNumber :=
  mk_number false ((λ c, c - 48) <$> N_to_units n) 0%Z.

Definition isNaN (n : JsNumber) : bool :=
  match n with NaN => true | _ => false end.

Definition digit_units (ds : list N) : jsstring := (λ d, d + 48) <$> ds.

(** [Number.prototype.toString()] (radix 10) on the digits of the number. *)
Definition Number_toString (x : JsNumber) : jsstring :=
  match x with
  | NaN => js "NaN"
  | Infinity neg => (if neg then js "-" else []) ++ js "Infinity"
  | Finite _ [] _ => js "0"
  | Finite neg ds e =>
      let k := Z.of_nat (length ds) in
      let n := (k + e)%Z in
      let body :=
        if ((k <=? n) && (n <=? 21))%Z then
          digit_units ds ++ replicate (Z.to_nat (n - k)) 48
        else if ((0 <? n) && (n <=? 21))%Z then
          digit_units (take (Z.to_nat n) ds) ++ js "." ++
          digit_units (drop (Z.to_nat n) ds)
        else if ((-6 <? n) && (n <=? 0))%Z then
          js "0." ++ replicate (Z.to_nat (- n)) 48 ++ digit_units ds
        else
          let ex := (n - 1)%Z in
          let sign := if (ex <? 0)%Z then js "-" else js "+" in
          let mant :=
            match ds with
            | [d] => digit_units [d]
            | d :: r => digit_units [d] ++ js "." ++ digit_units r
            | [] => []
            end in
          mant ++ js "e" ++ sign ++ N_to_units (Z.to_N (Z.abs ex))
      in (if neg then js "-" else []) ++ body
  end.

(** Leading decimal digits of a text (their values) and what follows. *)
Fixpoint span_digits (s : jsstring) : list N * jsstring :=
  match s with
  | c :: r =>
      if is_digit c then
        let '(ds, rest) := span_digits r in ((c - 48) :: ds, rest)
      else ([], s)
  | [] => ([], [])
  end.

Definition digits_value (ds : list N) : N :=
  foldl (λ acc d, 10 * acc + d) 0 ds.

(** An optional ExponentPart that ends the text: [None] when what is there is
    not one. *)
Definition exponent_part (s : jsstring) : option Z :=
  match s with
  | [] => Some 0%Z
  | c :: r =>
      if (c =? 101) || (c =? 69) then
        let '(neg, r1) :=
          match r with
          | 43 :: r' => (false, r')
          | 45 :: r' => (true, r')
          | _ => (false, r)
          end in
        match span_digits r1 with
        | (d :: ds, []) =>
            let v := Z.of_N (digits_value (d :: ds)) in
            Some (if neg then (- v)%Z else v)
        | _ => None
        end
      else None
  end.

(** StrUnsignedDecimalLiteral without [Infinity]: digits with an optional
    fraction and exponent, at least one digit in the mantissa. *)
Definition unsigned_decimal (neg : bool) (s : jsstring) : JsNumber :=
  let '(ip, r) := span_digits s in
  let '(fp, r1) :=
    match r with
    | 46 :: r' => span_digits r'
    | _ => ([], r)
    end in
  match ip ++ fp with
  | [] => NaN
  | ds =>
      match exponent_part r1 with
      | Some e => mk_number neg ds (e - Z.of_nat (length fp))%Z
      | None => NaN
      end
  end.

Definition hex_value (c : N) : option N :=
  if is_digit c then Some (c - 48)
  else if in_range 97 102 c then Some (c - 87)
  else if in_range 65 70 c then Some (c - 55)
  else None.

(** The digits of a NonDecimalIntegerLiteral in the given radix. *)
Fixpoint radix_value (radix acc : N) (s : jsstring) : option N :=
  match s with
  | [] => Some acc
  | c :: r =>
      match hex_value c with
      | Some d => if d <? radix then radix_value radix (radix * acc + d) r
                  else None
      | None => None
      end
  end.

Definition radix_literal (radix : N) (s : jsstring) : JsNumber :=
  match s with
  | [] => NaN
  | _ => match radix_value radix 0 s with
         | Some n => number_of_N n
         | None => NaN
         end
  end.

(** StringToNumber: the numeric conversion of a string. *)
Definition StringToNumber (s : jsstring) : JsNumber :=
  match trim s with
  | [] => number_zero
  | 48 :: 120 :: r | 48 :: 88 :: r => radix_literal 16 r
  | 48 :: 111 :: r | 48 :: 79 :: r => radix_literal 8 r
  | 48 :: 98 :: r | 48 :: 66 :: r => radix_literal 2 r
  | t =>
      let '(neg, u) :=
        match t with
        | 43 :: u => (false, u)
        | 45 :: u => (true, u)
        | _ => (false, t)
        end in
      if str_eqb u (js "Infinity") then Infinity neg
      else unsigned_decimal neg u
  end.

(** ** Values *)

(** The values a caller can pass: what [JSON.parse] produces.  An object is
    the list of its own properties in creation order, each name once. *)
Inductive JsValue :=
| JNull
| JBool (b : bool)
| JNum (n : JsNumber)
| JStr (s : jsstring)
| JArr (items : list JsValue)
| JObj (props : list (jsstring * JsValue)).

(** [obj[name]]: [None] is [undefined]. *)
Fixpoint get_prop {A} (name : jsstring) (props : list (jsstring * A)) : option A :=
  match props with
  | [] => None
  | (k, v) :: r => if str_eqb k name then Some v else get_prop name r
  end.

(** [obj[name] = v] *)
Fixpoint set_prop {A} (name : jsstring) (v : A) (props : list (jsstring * A))
  : list (jsstring * A) :=
  match props with
  | [] => [(name, v)]
  | (k, w) :: r =>
      if str_eqb k name then (k, v) :: r else (k, w) :: set_prop name v r
  end.

Definition has_own {A} (name : jsstring) (props : list (jsstring * A)) : bool :=
  match get_prop name props with Some _ => true | None => false end.

(** ToString, as [String(v)] and a template literal apply it.  An array is
    joined with commas, [null] elements printing as nothing.  A plain object
    prints through [Object.prototype.toString]; an own property [toString]
    hides that method and, not being callable, leaves no conversion. *)
Fixpoint ToString (v : JsValue) : Exc jsstring :=
  match v with
  | JNull => Ok (js "null")
  | JBool true => Ok (js "true")
  | JBool false => Ok (js "false")
  | JNum n => Ok (Number_toString n)
  | JStr s => Ok s
  | JArr items =>
      (fix join_items (l : list JsValue) : Exc jsstring :=
         match l with
         | [] => Ok []
         | x :: rest =>
             s ← match x with JNull => Ok [] | _ => ToString x end;
             match rest with
             | [] => Ok s
             | _ => r ← join_items rest; Ok (s ++ js "," ++ r)
             end
         end) items
  | JObj props =>
      if has_own (js "toString") props then Throw TypeError
      else Ok (js "[object Object]")
  end.

(** ToNumber, as [Number(v)] applies it.  An array or object converts
    through its string form. *)
Definition ToNumber (v : JsValue) : Exc JsNumber :=
  match v with
  | JNull => Ok number_zero
  | JBool true => Ok (Finite false [1] 0%Z)
  | JBool false => Ok number_zero
  | JNum n => Ok n
  | JStr s => Ok (StringToNumber s)
  | JArr _ | JObj _ => s ← ToString v; Ok (StringToNumber s)
  end.

(** ** [JSON.parse] *)

(** The text is cut into tokens, then an automaton with a stack of open
    arrays and objects builds the value.  Both run over their input by
    structural recursion. *)
Inductive Token :=
| TLBrace | TRBrace | TLBracket | TRBracket | TColon | TComma
| TScalar (v : JsValue).

Definition is_json_ws (c : N) : bool :=
  (c =? 9) || (c =? 10) || (c =? 13) || (c =? 32).

Definition simple_escape (c : N) : option N :=
  if c =? 34 then Some 34          (* quote *)
  else if c =? 92 then Some 92     (* backslash *)
  else if c =? 47 then Some 47     (* slash *)
  else if c =? 98 then Some 8      (* b: backspace *)
  else if c =? 102 then Some 12    (* f: form feed *)
  else if c =? 110 then Some 10    (* n: line feed *)
  else if c =? 114 then Some 13    (* r: carriage return *)
  else if c =? 116 then Some 9     (* t: tab *)
  else None.

Definition hex4 (a b c d : N) : option N :=
  x1 ← hex_value a; x2 ← hex_value b; x3 ← hex_value c; x4 ← hex_value d;
  Some (((x1 * 16 + x2) * 16 + x3) * 16 + x4).

(** The characters of a string literal after its opening quote, and the
    number of code units up to and including the closing quote. *)
Fixpoint scan_string (s : jsstring) : option (jsstring * nat) :=
  match s with
  | [] => None
  | 34 :: _ => Some ([], 1%nat)
  | 92 :: r =>
      match r with
      | 117 :: a :: b :: c :: d :: r' =>
          u ← hex4 a b c d;
          '(t, n) ← scan_string r';
          Some (u :: t, (6 + n)%nat)
      | e :: r' =>
          u ← simple_escape e;
          '(t, n) ← scan_string r';
          Some (u :: t, (2 + n)%nat)
      | [] => None
      end
  | c :: r =>
      if c <? 32 then None
      else '(t, n) ← scan_string r; Some (c :: t, S n)
  end.

(** A number literal at the head of the text, and its length: an optional
    minus, an integer part without superfluous leading zero, an optional
    fraction (a dot and digits) and an optional exponent (e or E, an optional
    sign, digits).  A digit after a leading zero makes the whole text
    invalid. *)
Definition scan_number (s : jsstring) : option (JsNumber * nat) :=
  let '(neg, s1) :=
    match s with
    | 45 :: r => (true, r)
    | _ => (false, s)
    end in
  let '(ip, r) := span_digits s1 in
  match ip with
  | [] => None
  | 0 :: _ :: _ => None
  | _ =>
      '(fp, r1) ←
        match r with
        | 46 :: r' =>
            match span_digits r' with
            | ([], _) => None
            | (fp, r1) => Some (fp, r1)
            end
        | _ => Some ([], r)
        end;
      '(e, r2) ←
        match r1 with
        | c :: t =>
            if (c =? 101) || (c =? 69) then
              let '(eneg, t1) :=
                match t with
                | 43 :: t' => (false, t')
                | 45 :: t' => (true, t')
                | _ => (false, t)
                end in
              match span_digits t1 with
              | ([], _) => None
              | (ds, r2) =>
                  let v := Z.of_N (digits_value ds) in
                  Some (if eneg then (- v)%Z else v, r2)
              end
            else Some (0%Z, r1)
        | [] => Some (0%Z, [])
        end;
      Some (mk_number neg (ip ++ fp) (e - Z.of_nat (length fp))%Z,
            (length s - length r2)%nat)
  end.

(** The token that starts with [c], and how many code units of the rest [r]
    belong to it. *)
Definition scan_token (c : N) (r : jsstring) : option (Token * nat) :=
  if c =? 123 then Some (TLBrace, 0%nat)
  else if c =? 125 then Some (TRBrace, 0%nat)
  else if c =? 91 then Some (TLBracket, 0%nat)
  else if c =? 93 then Some (TRBracket, 0%nat)
  else if c =? 58 then Some (TColon, 0%nat)
  else if c =? 44 then Some (TComma, 0%nat)
  else if c =? 34 then
    '(s, n) ← scan_string r; Some (TScalar (JStr s), n)
  else if (c =? 45) || is_digit c then
    '(x, n) ← scan_number (c :: r); Some (TScalar (JNum x), pred n)
  else if is_prefix (js "true") (c :: r) then Some (TScalar (JBool true), 3%nat)
  else if is_prefix (js "false") (c :: r) then Some (TScalar (JBool false), 4%nat)
  else if is_prefix (js "null") (c :: r) then Some (TScalar JNull, 3%nat)
  else None.

(** [skip] counts the code units still belonging to the last token. *)
Fixpoint tokenize (skip : nat) (s : jsstring) : option (list Token) :=
  match s with
  | [] => Some []
  | c :: r =>
      match skip with
      | S k => tokenize k r
      | O =>
          if is_json_ws c then tokenize 0 r
          else
            '(t, n) ← scan_token c r;
            ts ← tokenize n r;
            Some (t :: ts)
      end
  end.

(** An array or object under construction; an object frame holds the name
    whose value is being read. *)
Inductive Frame :=
| FArr (items : list JsValue)
| FObj (props : list (jsstring * JsValue)) (key : option jsstring).

Inductive Mode :=
| MValue         (* a value must start *)
| MArrayStart    (* after [: a value or ] *)
| MObjectStart   (* after {: a name or } *)
| MKey           (* after a comma in an object: a name *)
| MColon         (* after a name *)
| MNext          (* after a value inside an array or object *)
| MDone (v : JsValue).

Definition deliver (v : JsValue) (stack : list Frame) : option (list Frame * Mode) :=
  match stack with
  | [] => Some ([], MDone v)
  | FArr items :: st => Some (FArr (items ++ [v]) :: st, MNext)
  | FObj props (Some k) :: st => Some (FObj (set_prop k v props) None :: st, MNext)
  | FObj _ None :: _ => None
  end.

Definition value_start (t : Token) (stack : list Frame) : option (list Frame * Mode) :=
  match t with
  | TScalar v => deliver v stack
  | TLBracket => Some (FArr [] :: stack, MArrayStart)
  | TLBrace => Some (FObj [] None :: stack, MObjectStart)
  | _ => None
  end.

Definition key_start (t : Token) (stack : list Frame) : option (list Frame * Mode) :=
  match t, stack with
  | TScalar (JStr k), FObj props None :: st => Some (FObj props (Some k) :: st, MColon)
  | _, _ => None
  end.

Definition parse_step (stack : list Frame) (mode : Mode) (t : Token)
  : option (list Frame * Mode) :=
  match mode with
  | MValue => value_start t stack
  | MArrayStart =>
      match t, stack with
      | TRBracket, FArr items :: st => deliver (JArr items) st
      | _, _ => value_start t stack
      end
  | MObjectStart =>
      match t, stack with
      | TRBrace, FObj props None :: st => deliver (JObj props) st
      | _, _ => key_start t stack
      end
  | MKey => key_start t stack
  | MColon =>
      match t with
      | TColon => Some (stack, MValue)
      | _ => None
      end
  | MNext =>
      match t, stack with
      | TComma, FArr _ :: _ => Some (stack, MValue)
      | TRBracket, FArr items :: st => deliver (JArr items) st
      | TComma, FObj _ None :: _ => Some (stack, MKey)
      | TRBrace, FObj props None :: st => deliver (JObj props) st
      | _, _ => None
      end
  | MDone _ => None
  end.

Fixpoint parse_tokens (stack : list Frame) (mode : Mode) (ts : list Token)
  : option JsValue :=
  match ts with
  | [] => match mode with MDone v => Some v | _ => None end
  | t :: ts' =>
      '(stack', mode') ← parse_step stack mode t;
      parse_tokens stack' mode' ts'
  end.

(** [JSON.parse(text)]: the value, or a [SyntaxError]. *)
Definition JSON_parse (text : jsstring) : Exc JsValue :=
  match ts ← tokenize 0 text; parse_tokens [] MValue ts with
  | Some v => Ok v
  | None => Throw SyntaxError
  end.

(** ** [encodeURIComponent] *)

Definition uri_unreserved (c : N) : bool :=
  is_alnum c || (c =? 45) || (c =? 95) || (c =? 46) || (c =? 33)
  || (c =? 126) || (c =? 42) || (c =? 39) || (c =? 40) || (c =? 41).

Definition hex_digit (d : N) : N := if d <? 10 then d + 48 else d + 55.

Definition percent (byte : N) : jsstring :=
  [37; hex_digit (byte / 16); hex_digit (byte mod 16)].

Definition utf8 (cp : N) : list N :=
  if cp <? 128 then [cp]
  else if cp <? 2048 then [192 + cp / 64; 128 + cp mod 64]
  else if cp <? 65536 then
    [224 + cp / 4096; 128 + (cp / 64) mod 64; 128 + cp mod 64]
  else
    [240 + cp / 262144; 128 + (cp / 4096) mod 64;
     128 + (cp / 64) mod 64; 128 + cp mod 64].

Definition is_high_surrogate (c : N) : bool := in_range 55296 56319 c.
Definition is_low_surrogate (c : N) : bool := in_range 56320 57343 c.

Fixpoint encodeURIComponent (s : jsstring) : Exc jsstring :=
  match s with
  | [] => Ok []
  | c :: r =>
      if uri_unreserved c then
        t ← encodeURIComponent r; Ok (c :: t)
      else if is_low_surrogate c then Throw URIError
      else if is_high_surrogate c then
        match r with
        | c2 :: r2 =>
            if is_low_surrogate c2 then
              t ← encodeURIComponent r2;
              Ok (mjoin (percent <$> utf8 ((c - 55296) * 1024 + (c2 - 56320) + 65536)) ++ t)
            else Throw URIError
        | [] => Throw URIError
        end
      else
        t ← encodeURIComponent r;
        Ok (mjoin (percent <$> utf8 c) ++ t)
  end.

(** ** [Object.entries] of a caller's value *)

(** An array index: the canonical decimal form of an integer below 2^32 - 1. *)
Definition array_index (k : jsstring) : option N :=
  match span_digits k with
  | (d :: ds, []) =>
      let n := digits_value (d :: ds) in
      if str_eqb (N_to_units n) k && (n <? 4294967295) then Some n else None
  | _ => None
  end.

Fixpoint insert_by_index {A} (i : N) (e : A) (l : list (N * A)) : list (N * A) :=
  match l with
  | [] => [(i, e)]
  | (j, f) :: r => if i <? j then (i, e) :: l else (j, f) :: insert_by_index i e r
  end.

(** Own properties in enumeration order: array indices ascending, then the
    other names in creation order. *)
Definition own_entries {A} (props : list (jsstring * A)) : list (jsstring * A) :=
  let indexed :=
    foldl (λ acc e, match array_index e.1 with
                    | Some i => insert_by_index i e acc
                    | None => acc
                    end) [] props in
  (snd <$> indexed) ++
  filter (λ e, array_index e.1 = None) props.

Definition Object_entries (v : JsValue) : list (jsstring * JsValue) :=
  match v with
  | JObj props => own_entries props
  | JArr items => imap (λ i x, (N_to_units (N.of_nat i), x)) items
  | JStr s => imap (λ i c, (N_to_units (N.of_nat i), JStr [c])) s
  | _ => []
  end.

(** ** The OpenAPI document, as [APIClient] reads it *)

(** A parameter's schema; the executor reads its [type] only. *)
Record SchemaObject := { schema_type : option jsstring }.

Record ParameterObject := {
  param_name : jsstring;
  param_in : jsstring;               (* [in]: 'path', 'query', 'header', 'cookie' *)
  param_required : bool;             (* [required], absent read as false *)
  param_schema : option SchemaObject;
}.

(** [content] holds the declared media types, in the order [Object.keys]
    lists them; [None] when the request body has no [content]. *)
Record RequestBodyObject := { content : option (list jsstring) }.

Record OperationObject := {
  operationId : option jsstring;
  op_parameters : option (list ParameterObject);
  op_requestBody : option RequestBodyObject;
}.

Record PathItemObject := {
  item_parameters : option (list ParameterObject);
  item_get : option OperationObject;
  item_post : option OperationObject;
  item_put : option OperationObject;
  item_patch : option OperationObject;
  item_delete : option OperationObject;
  item_options : option OperationObject;
  item_head : option OperationObject;
}.

Record ServerObject := { url : jsstring }.

(** [paths] is what [Object.entries(schema.paths)] yields. *)
Record Document := {
  servers : option (list ServerObject);
  paths : list (jsstring * option PathItemObject);
}.

(** [ServerOptions]; the options besides [baseUrl] configure the HTTP client
    only. *)
Record ServerOptions := { opt_baseUrl : option jsstring }.

Record OperationInfo := {
  method : jsstring;
  path : jsstring;
  operation : OperationObject;
  parameters : list ParameterObject;
  requestBody : option RequestBodyObject;
}.

(** The fields of an [APIClient]; [common_headers] stands for
    [this.client.defaults.headers.common], fixed by the constructor. *)
Record APIClient := {
  options : ServerOptions;
  common_headers : gmap jsstring jsstring;
  schema : option Document;
  operations : gmap jsstring OperationInfo;
  baseUrl : option jsstring;
}.

(** [new APIClient(options)] *)
Definition new_APIClient (opts : ServerOptions) (common : gmap jsstring jsstring)
  : APIClient :=
  {| options := opts; common_headers := common; schema := None;
     operations := ∅; baseUrl := None |}.

(** Truthiness of a [string | undefined]. *)
Definition truthy (o : option jsstring) : bool :=
  match o with
  | Some s => truthy_str s
  | None => false
  end.

(** [a || b] on [string | undefined] *)
Definition or_else (a b : option jsstring) : option jsstring :=
  if truthy a then a else b.

(** *** [getBaseUrl], [initialize] *)

Definition getBaseUrl (doc : Document) : Exc jsstring :=
  match servers doc with
  | Some (s :: _) => Ok (url s)
  | _ => Throw (Error (js "No server URL found in OpenAPI schema and no base URL provided"))
  end.

(** *** [parseOperations] *)

Definition methods : list jsstring :=
  [js "get"; js "post"; js "put"; js "patch"; js "delete"; js "options"; js "head"].

(** [pathItem[method]] *)
Definition item_method (item : PathItemObject) (m : jsstring) : option OperationObject :=
  if str_eqb m (js "get") then item_get item
  else if str_eqb m (js "post") then item_post item
  else if str_eqb m (js "put") then item_put item
  else if str_eqb m (js "patch") then item_patch item
  else if str_eqb m (js "delete") then item_delete item
  else if str_eqb m (js "options") then item_options item
  else if str_eqb m (js "head") then item_head item
  else None.

(** [pathKey.replace(/[^a-zA-Z0-9]/g, '_')] *)
Definition replace_non_alnum (s : jsstring) : jsstring :=
  (λ c, if is_alnum c then c else 95) <$> s.

(** The identifier given to an operation without [operationId]. *)
Definition generated_id (m pathKey : jsstring) : jsstring :=
  m ++ js "_" ++ replace_non_alnum pathKey.

(** [operation.operationId || `${method}_${...}`] *)
Definition operation_id (m pathKey : jsstring) (op : OperationObject) : jsstring :=
  match operationId op with
  | Some (c :: i) => c :: i
  | _ => generated_id m pathKey
  end.

Definition operation_info (m pathKey : jsstring) (item : PathItemObject)
    (op : OperationObject) : OperationInfo :=
  {| method := toUpperCase m;
     path := pathKey;
     operation := op;
     parameters := default [] (item_parameters item) ++ default [] (op_parameters op);
     requestBody := op_requestBody op |}.

(** The body of the inner loop: one method of one path item. *)
Definition parse_method (pathKey : jsstring) (item : PathItemObject)
    (ops : gmap jsstring OperationInfo) (m : jsstring) : gmap jsstring OperationInfo :=
  match item_method item m with
  | None => ops
  | Some op => <[operation_id m pathKey op := operation_info m pathKey item op]> ops
  end.

(** The body of the outer loop: one entry of [paths]. *)
Definition parse_path (ops : gmap jsstring OperationInfo)
    (entry : jsstring * option PathItemObject) : gmap jsstring OperationInfo :=
  match entry.2 with
  | None => ops
  | Some item => foldl (parse_method entry.1 item) ops methods
  end.

Definition parseOperations (doc : Document) (ops : gmap jsstring OperationInfo)
  : gmap jsstring OperationInfo :=
  foldl parse_path ops (paths doc).

(** [initialize]: the client afterwards, and whether the call threw. *)
Definition initialize (c : APIClient) (doc : Document) : APIClient * Exc unit :=
  let c1 := {| options := options c; common_headers := common_headers c;
               schema := Some doc; operations := operations c;
               baseUrl := baseUrl c |} in
  match (match opt_baseUrl (options c) with
         | Some (x :: u) => Ok (x :: u)
         | _ => getBaseUrl doc
         end) with
  | Throw e => (c1, Throw e)
  | Ok u =>
      ({| options := options c; common_headers := common_headers c;
          schema := Some doc;
          operations := parseOperations doc (operations c);
          baseUrl := Some u |}, Ok ())
  end.

(** ** The request executor *)

(** *** [processParameterValue] *)

Definition processParameterValue (param : ParameterObject) (value : JsValue)
  : Exc JsValue :=
  match param_schema param with
  | None => Ok value
  | Some schema =>
      let type := default [] (schema_type schema) in
      if str_eqb type (js "integer") || str_eqb type (js "number") then
        num ← ToNumber value;
        if isNaN num then
          got ← ToString value;
          Throw (Error (js "Parameter " ++ param_name param ++
                        js " must be a valid number, got: " ++ got))
        else Ok (JNum num)
      else if str_eqb type (js "boolean") then
        match value with
        | JBool _ => Ok value
        | _ =>
            let other :=
              got ← ToString value;
              Throw (Error (js "Parameter " ++ param_name param ++
                            js " must be a boolean, got: " ++ got)) in
            match value with
            | JStr s =>
                if str_eqb (toLowerCase s) (js "true") then Ok (JBool true)
                else if str_eqb (toLowerCase s) (js "false") then Ok (JBool false)
                else other
            | _ => other
            end
        end
      else if str_eqb type (js "array") then
        match value with
        | JArr _ => Ok value
        | JStr s =>
            match JSON_parse s with
            | Ok parsed => Ok parsed
            | Throw _ => Ok (JArr ((λ v, JStr (trim v)) <$> split_comma s))
            end
        | _ =>
            got ← ToString value;
            Throw (Error (js "Parameter " ++ param_name param ++
                          js " must be an array, got: " ++ got))
        end
      else
        s ← ToString value; Ok (JStr s)
  end.

(** *** [determineContentType] *)

Definition determineContentType (requestBody : RequestBodyObject)
    (headers : gmap jsstring jsstring) : option jsstring :=
  let existingContentType :=
    or_else (headers !! js "Content-Type") (headers !! js "content-type") in
  if truthy existingContentType then existingContentType
  else
    let contentTypes := default [] (content requestBody) in
    if includes contentTypes (js "application/json") then
      Some (js "application/json")
    else if includes contentTypes (js "application/xml") then
      Some (js "application/xml")
    else if includes contentTypes (js "text/xml") then
      Some (js "text/xml")
    else if includes contentTypes (js "application/x-www-form-urlencoded") then
      Some (js "application/x-www-form-urlencoded")
    else if includes contentTypes (js "multipart/form-data") then
      Some (js "multipart/form-data")
    else head contentTypes.

(** *** [processRequestBody] *)

(** What goes out as [data]: a value, or the text that
    [URLSearchParams.toString()] makes of the appended pairs. *)
Inductive RequestData :=
| DataValue (v : JsValue)
| DataForm (pairs : list (jsstring * jsstring)).

Fixpoint append_all (entries : list (jsstring * JsValue))
  : Exc (list (jsstring * jsstring)) :=
  match entries with
  | [] => Ok []
  | (key, value) :: r =>
      s ← ToString value;
      t ← append_all r;
      Ok ((key, s) :: t)
  end.

Definition processRequestBody (body : JsValue) (contentType : option jsstring)
  : Exc RequestData :=
  if negb (truthy contentType) then Ok (DataValue body)
  else
    let ct := default [] contentType in
    if str_eqb ct (js "application/json") then
      match body with
      | JStr s => v ← JSON_parse s; Ok (DataValue v)
      | _ => Ok (DataValue body)
      end
    else if str_eqb ct (js "application/x-www-form-urlencoded") then
      match body with
      | JObj _ | JArr _ =>
          pairs ← append_all (Object_entries body); Ok (DataForm pairs)
      | _ => Ok (DataValue body)
      end
    else Ok (DataValue body).

(** *** [executeOperation] *)

(** **** What the executor reads from [args] *)

(** Every object inherits the members of [Object.prototype].  Eleven of them
    are built-in functions, listed here under their property name with the
    name each function bears; the twelfth, [__proto__], reads as the
    prototype itself. *)
Definition Object_prototype_functions : list (jsstring * jsstring) :=
  [ (js "constructor", js "Object");
    (js "__defineGetter__", js "__defineGetter__");
    (js "__defineSetter__", js "__defineSetter__");
    (js "hasOwnProperty", js "hasOwnProperty");
    (js "__lookupGetter__", js "__lookupGetter__");
    (js "__lookupSetter__", js "__lookupSetter__");
    (js "isPrototypeOf", js "isPrototypeOf");
    (js "propertyIsEnumerable", js "propertyIsEnumerable");
    (js "toString", js "toString");
    (js "valueOf", js "valueOf");
    (js "toLocaleString", js "toLocaleString") ].

(** What a property read yields: a value that [JSON.parse] can produce, or
    a built-in function, which no caller can pass in JSON but which a read
    finds on the prototype. *)
Inductive Value :=
| Json (v : JsValue)
| Native (name : jsstring).

(** The text of a built-in function, as Node prints it. *)
Definition function_source (name : jsstring) : jsstring :=
  js "function " ++ name ++ js "() { [native code] }".

(** [String(v)] *)
Definition Value_ToString (v : Value) : Exc jsstring :=
  match v with
  | Json j => ToString j
  | Native f => Ok (function_source f)
  end.

(** [obj[name]] on a plain object: the own property of that name, else the
    member that [Object.prototype] has under it; [None] is [undefined].
    [Object.prototype], which [__proto__] reads, has no enumerable property
    of its own and prints as [[object Object]]: read here, it behaves as
    an empty object does. *)
Definition read_property (name : jsstring) (props : list (jsstring * JsValue))
  : option Value :=
  match get_prop name props with
  | Some v => Some (Json v)
  | None =>
      if str_eqb name (js "__proto__") then Some (Json (JObj []))
      else Native <$> get_prop name Object_prototype_functions
  end.

(** [obj[name] = v] on a plain object used as a dictionary.  The name
    [__proto__] stands for the prototype: assigning to it replaces the
    prototype or does nothing, and adds no property. *)
Definition assign {A} (name : jsstring) (v : A) (obj : gmap jsstring A)
  : gmap jsstring A :=
  if str_eqb name (js "__proto__") then obj else <[name := v]> obj.

(** [processParameterValue] on what was read from [args].  A built-in
    function is no boolean, no string and no array, and [Number] makes NaN of
    it, its text being no numeric literal. *)
Definition process_argument (param : ParameterObject) (value : Value)
  : Exc Value :=
  match value with
  | Json v => r ← processParameterValue param v; Ok (Json r)
  | Native f =>
      match param_schema param with
      | None => Ok value
      | Some schema =>
          let type := default [] (schema_type schema) in
          let got := function_source f in
          if str_eqb type (js "integer") || str_eqb type (js "number") then
            Throw (Error (js "Parameter " ++ param_name param ++
                          js " must be a valid number, got: " ++ got))
          else if str_eqb type (js "boolean") then
            Throw (Error (js "Parameter " ++ param_name param ++
                          js " must be a boolean, got: " ++ got))
          else if str_eqb type (js "array") then
            Throw (Error (js "Parameter " ++ param_name param ++
                          js " must be an array, got: " ++ got))
          else Ok (Json (JStr got))
      end
  end.

(** The request handed to the HTTP client; [cfg_params] and [cfg_headers]
    hold the own properties of [params] and [headers]. *)
Record AxiosRequestConfig := {
  cfg_method : jsstring;
  cfg_url : jsstring;
  cfg_params : gmap jsstring Value;
  cfg_headers : gmap jsstring jsstring;
  cfg_data : option RequestData;
}.

(** The variables of the parameter loop. *)
Record LoopState := {
  st_url : jsstring;
  queryParams : gmap jsstring Value;
  st_headers : gmap jsstring jsstring;
  missingRequiredParams : list jsstring;
}.

(** [args[param.name]] with [undefined] and [null] read alike. *)
Definition supplied (args : list (jsstring * JsValue)) (param : ParameterObject)
  : option Value :=
  match read_property (param_name param) args with
  | None | Some (Json JNull) => None
  | Some v => Some v
  end.

(** One turn of the loop over [parameters]. *)
Definition process_parameter (args : list (jsstring * JsValue)) (st : LoopState)
    (param : ParameterObject) : Exc LoopState :=
  match supplied args param with
  | None =>
      if param_required param then
        Ok {| st_url := st_url st; queryParams := queryParams st;
              st_headers := st_headers st;
              missingRequiredParams :=
                missingRequiredParams st ++
                [param_name param ++ js " (" ++ param_in param ++ js ")"] |}
      else Ok st
  | Some value =>
      processedValue ← process_argument param value;
      if str_eqb (param_in param) (js "path") then
        s ← Value_ToString processedValue;
        enc ← encodeURIComponent s;
        Ok {| st_url := replace_first (js "{" ++ param_name param ++ js "}") enc (st_url st);
              queryParams := queryParams st;
              st_headers := st_headers st;
              missingRequiredParams := missingRequiredParams st |}
      else if str_eqb (param_in param) (js "query") then
        Ok {| st_url := st_url st;
              queryParams := assign (param_name param) processedValue (queryParams st);
              st_headers := st_headers st;
              missingRequiredParams := missingRequiredParams st |}
      else if str_eqb (param_in param) (js "header") then
        s ← Value_ToString processedValue;
        Ok {| st_url := st_url st;
              queryParams := queryParams st;
              st_headers := assign (param_name param) s (st_headers st);
              missingRequiredParams := missingRequiredParams st |}
      else Ok st
  end.

Fixpoint process_parameters (args : list (jsstring * JsValue)) (st : LoopState)
    (params : list ParameterObject) : Exc LoopState :=
  match params with
  | [] => Ok st
  | param :: rest =>
      st' ← process_parameter args st param;
      process_parameters args st' rest
  end.

(** The body and the Content-Type header, when the operation declares a
    request body and the caller passes [body]. *)
Definition process_body (info : OperationInfo) (args : list (jsstring * JsValue))
    (headers : gmap jsstring jsstring)
  : Exc (option RequestData * gmap jsstring jsstring) :=
  match requestBody info, get_prop (js "body") args with
  | Some rb, Some argBody =>
      let contentType := determineContentType rb headers in
      body ← processRequestBody argBody contentType;
      if truthy contentType && negb (truthy (headers !! js "Content-Type")) then
        Ok (Some body, <[js "Content-Type" := default [] contentType]> headers)
      else Ok (Some body, headers)
  | _, _ => Ok (None, headers)
  end.

(** [executeOperation] up to the request it hands to the HTTP client. *)
Definition build_request (c : APIClient) (id : jsstring)
    (args : list (jsstring * JsValue)) : Exc AxiosRequestConfig :=
  match operations c !! id with
  | None => Throw (Error (js "Operation " ++ id ++ js " not found"))
  | Some info =>
      st ← process_parameters args
             {| st_url := default (js "undefined") (baseUrl c) ++ path info;
                queryParams := ∅; st_headers := ∅;
                missingRequiredParams := [] |}
             (parameters info);
      match missingRequiredParams st with
      | _ :: _ =>
          Throw (Error (js "Missing required parameters: " ++
                        join (js ", ") (missingRequiredParams st)))
      | [] =>
          '(body, headers) ← process_body info args (st_headers st);
          Ok {| cfg_method := method info;
                cfg_url := st_url st;
                cfg_params := queryParams st;
                cfg_headers := headers ∪ common_headers c;
                cfg_data := body |}
      end
  end.

Section Network.
(** [send config] stands for [this.client.request(config)] and the shaping
    of its response or failure into the result or the thrown error. *)
Context {Response : Type} (send : AxiosRequestConfig → Exc Response).

(** The result of the call, and the requests that went out. *)
Definition executeOperation (c : APIClient) (id : jsstring)
    (args : list (jsstring * JsValue))
  : Exc Response * list AxiosRequestConfig :=
  match build_request c id args with
  | Throw e => (Throw e, [])
  | Ok config => (send config, [config])
  end.
End Network.

(** ** The schema resolver *)

Module SchemaResolver.

Inductive Keyword := OneOf | AnyOf | AllOf.

(** Modelled from the spec: the schema fragments (SchemaNode) that the
    tool generator ([tool-generator.ts]) resolves: a scalar constraint set,
    an object, an array, a composition, or a reference to a named
    schema. *)
Inductive SchemaNode :=
| Scalar (type : option jsstring) (description : option jsstring)
         (enum : list jsstring)
| ObjectSchema (properties : list (jsstring * SchemaNode))
               (required : list jsstring) (description : option jsstring)
| ArraySchema (items : SchemaNode) (description : option jsstring)
| Composition (keyword : Keyword) (members : list SchemaNode)
              (description : option jsstring)
| Reference (pointer : jsstring).

(** Modelled from the spec: the permissive, untyped placeholder that
    stands for what the resolver cannot interpret. *)
Definition placeholder : SchemaNode := Scalar None None [].

(** Modelled from the spec: the terminal stub of a schema, its declared
    type and property names only, nothing below them expanded. *)
Definition stub (target : SchemaNode) : SchemaNode :=
  match target with
  | Scalar type _ _ => Scalar type None []
  | ObjectSchema properties _ _ =>
      ObjectSchema ((λ p, (p.1, placeholder)) <$> properties) [] None
  | ArraySchema _ _ => ArraySchema placeholder None
  | Composition _ _ _ | Reference _ => placeholder
  end.

Definition append_note (description : option jsstring) (note : jsstring)
  : option jsstring :=
  match description with
  | Some d => Some (d ++ js " " ++ note)
  | None => Some note
  end.

Definition composition_note (k : Keyword) (count : nat) : jsstring :=
  match k with
  | OneOf => js "one of "
  | AnyOf => js "any of "
  | AllOf => js "all of "
  end ++ N_to_units (N.of_nat count) ++ js " variants".

Definition enum_note (enum : list jsstring) : jsstring :=
  js "Allowed values: " ++ join (js ", ") enum.

(** Modelled from the spec: [resolve(schema, pathStack)] of the tool
    generator (section 4.2), over the table [defs] of named schemas.
    [depth] is what is left of the hard recursion-depth bound; at 0 the
    schema is cut to its stub.  A pointer already on [pathStack] yields the
    stub of its target; a pointer without target yields the placeholder. *)
Fixpoint resolve (defs : gmap jsstring SchemaNode) (depth : nat)
    (pathStack : list jsstring) (schema : SchemaNode) : SchemaNode :=
  match depth with
  | O =>
      match schema with
      | Reference pointer =>
          match defs !! pointer with
          | Some target => stub target
          | None => placeholder
          end
      | _ => stub schema
      end
  | S d =>
      match schema with
      | Reference pointer =>
          match defs !! pointer with
          | None => placeholder
          | Some target =>
              if bool_decide (pointer ∈ pathStack) then stub target
              else resolve defs d (pointer :: pathStack) target
          end
      | ObjectSchema properties required description =>
          ObjectSchema
            ((λ p, (p.1, resolve defs d pathStack p.2)) <$> properties)
            required description
      | ArraySchema items description =>
          ArraySchema (resolve defs d pathStack items) description
      | Composition keyword members description =>
          Composition keyword (resolve defs d pathStack <$> members)
            (append_note description (composition_note keyword (length members)))
      | Scalar type description [] => Scalar type description []
      | Scalar type description enum =>
          Scalar type (append_note description (enum_note enum)) enum
      end
  end.

(** No reference is left in the tree. *)
Fixpoint reference_free (s : SchemaNode) : bool :=
  match s with
  | Scalar _ _ _ => true
  | ObjectSchema properties _ _ => forallb (λ p, reference_free p.2) properties
  | ArraySchema items _ => reference_free items
  | Composition _ members _ => forallb reference_free members
  | Reference _ => false
  end.

(** The number of levels of the tree. *)
Fixpoint height (s : SchemaNode) : nat :=
  match s with
  | Scalar _ _ _ | Reference _ => 1
  | ObjectSchema properties _ _ =>
      S (foldr (λ p h, max (height p.2) h) 0%nat properties)
  | ArraySchema items _ => S (height items)
  | Composition _ members _ =>
      S (foldr (λ m h, max (height m) h) 0%nat members)
  end.

Definition property_names (s : SchemaNode) : list jsstring :=
  match s with
  | ObjectSchema properties _ _ => fst <$> properties
  | _ => []
  end.

(** The schema table of the integration test on circular references. *)
Definition entity_ref : jsstring := js "#/components/schemas/Entity".
Definition metadata_ref : jsstring := js "#/components/schemas/Metadata".

Definition Entity : SchemaNode :=
  ObjectSchema
    [(js "id", Scalar (Some (js "string")) None []);
     (js "parent", Reference entity_ref);
     (js "children", ArraySchema (Reference entity_ref) None);
     (js "metadata", Reference metadata_ref)]
    [js "id"] None.

Definition Metadata : SchemaNode :=
  ObjectSchema
    [(js "tags", ArraySchema (Scalar (Some (js "string")) None []) None);
     (js "entity", Reference entity_ref)]
    [] None.

Definition entity_defs : gmap jsstring SchemaNode :=
  <[entity_ref := Entity]> (<[metadata_ref := Metadata]> ∅).

End SchemaResolver.

(** * Vocabulary of the properties *)

(** ** Missing and offending parameters *)

(** The text that stands for a missing parameter in the error message. *)
Definition missing_label (param : ParameterObject) : jsstring :=
  param_name param ++ js " (" ++ param_in param ++ js ")".

(** A required parameter for which [args[name]] reads [undefined] or
    [null]. *)
Definition is_missing (args : list (jsstring * JsValue)) (param : ParameterObject)
  : bool :=
  param_required param &&
  match supplied args param with None => true | Some _ => false end.

(** The missing parameters of a call, in declaration order. *)
Fixpoint missing_labels (args : list (jsstring * JsValue))
    (params : list ParameterObject) : list jsstring :=
  match params with
  | [] => []
  | p :: r =>
      if is_missing args p then missing_label p :: missing_labels args r
      else missing_labels args r
  end.

(** What the processing of one supplied value can throw: the coercion of
    [processParameterValue], then the conversions of the routing. *)
Definition conversion (param : ParameterObject) (value : Value) : Exc unit :=
  processedValue ← process_argument param value;
  if str_eqb (param_in param) (js "path") then
    s ← Value_ToString processedValue; _ ← encodeURIComponent s; Ok ()
  else if str_eqb (param_in param) (js "query") then Ok ()
  else if str_eqb (param_in param) (js "header") then
    _ ← Value_ToString processedValue; Ok ()
  else Ok ().

(** The error of the first parameter, in declaration order, whose supplied
    value does not convert. *)
Fixpoint first_failure (args : list (jsstring * JsValue))
    (params : list ParameterObject) : option JsError :=
  match params with
  | [] => None
  | p :: r =>
      match supplied args p with
      | None => first_failure args r
      | Some v =>
          match conversion p v with
          | Throw e => Some e
          | Ok _ => first_failure args r
          end
      end
  end.

(** The message of the aggregated error. *)
Definition missing_message (args : list (jsstring * JsValue))
    (params : list ParameterObject) : jsstring :=
  js "Missing required parameters: " ++ join (js ", ") (missing_labels args params).

(** ** The operations of a document *)

(** The operations of one path, in the order the inner loop visits them,
    each with the identifier it is stored under. *)
Definition path_operations (entry : jsstring * option PathItemObject)
  : list (jsstring * OperationInfo) :=
  match entry.2 with
  | None => []
  | Some item =>
      omap (λ m, (λ op, (operation_id m entry.1 op,
                          operation_info m entry.1 item op)) <$> item_method item m)
           methods
  end.

(** The operations of the document, in parsing order. *)
Definition document_operations (doc : Document) : list (jsstring * OperationInfo) :=
  paths doc ≫= path_operations.

(** [this.operations.set(id, info)] for each entry in turn. *)
Definition set_all (ops : gmap jsstring OperationInfo)
    (entries : list (jsstring * OperationInfo)) : gmap jsstring OperationInfo :=
  foldl (λ acc e, <[e.1 := e.2]> acc) ops entries.

(** ** The stated naming rule *)

(** The naming rule in the words of the specification: every run of
    non-alphanumeric characters becomes a single underscore, after the
    lower-cased method and two underscores.  [in_run] tells that the
    previous character was already replaced. *)
Fixpoint collapse_runs (in_run : bool) (s : jsstring) : jsstring :=
  match s with
  | [] => []
  | c :: r =>
      if is_alnum c then c :: collapse_runs false r
      else if in_run then collapse_runs true r
      else 95 :: collapse_runs true r
  end.

Definition stated_id (m pathKey : jsstring) : jsstring :=
  toLowerCase m ++ js "__" ++ collapse_runs false pathKey.

(** ** Content types *)

(** The fixed preference order. *)
Definition preference : list jsstring :=
  [js "application/json"; js "application/xml"; js "text/xml";
   js "application/x-www-form-urlencoded"; js "multipart/form-data"].

(** The first preferred type among the declared ones, else the first
    declared. *)
Definition negotiated (declared : list jsstring) : option jsstring :=
  match List.find (includes declared) preference with
  | Some t => Some t
  | None => head declared
  end.

(** The Content-Type header the caller has set: a non-empty value under
    [Content-Type], else under [content-type]. *)
Definition caller_content_type (headers : gmap jsstring jsstring)
  : option jsstring :=
  match headers !! js "Content-Type" with
  | Some (c :: v) => Some (c :: v)
  | _ =>
      match headers !! js "content-type" with
      | Some (c :: v) => Some (c :: v)
      | _ => None
      end
  end.

(** ** Declared types, messages *)

(** The parameter has a schema whose [type] is [t]. *)
Definition declared_type (param : ParameterObject) (t : string) : Prop :=
  ∃ schema, param_schema param = Some schema ∧ schema_type schema = Some (js t).

Definition is_array (v : JsValue) : bool :=
  match v with JArr _ => true | _ => false end.

Definition no_server_message : jsstring :=
  js "No server URL found in OpenAPI schema and no base URL provided".

(** * Documents to run the code on *)

(** ** An operation with a path parameter and two query parameters *)

Definition typed (t : string) : option SchemaObject :=
  Some {| schema_type := Some (js t) |}.

Definition id_param : ParameterObject :=
  {| param_name := js "id"; param_in := js "path"; param_required := true;
     param_schema := typed "string" |}.

Definition page_param : ParameterObject :=
  {| param_name := js "page"; param_in := js "query"; param_required := false;
     param_schema := typed "integer" |}.

Definition limit_param : ParameterObject :=
  {| param_name := js "limit"; param_in := js "query"; param_required := true;
     param_schema := typed "integer" |}.

Definition get_item : OperationObject :=
  {| operationId := Some (js "getItem");
     op_parameters := Some [page_param; limit_param];
     op_requestBody := None |}.

Definition items_document : Document :=
  {| servers := Some [ {| url := js "https://api.example.com" |} ];
     paths :=
       [(js "/items/{id}",
         Some {| item_parameters := Some [id_param];
                 item_get := Some get_item; item_post := None;
                 item_put := None; item_patch := None; item_delete := None;
                 item_options := None; item_head := None |})] |}.

Definition items_client : APIClient :=
  (initialize (new_APIClient {| opt_baseUrl := None |} ∅) items_document).1.

Definition get_item_info : OperationInfo :=
  {| method := js "GET"; path := js "/items/{id}"; operation := get_item;
     parameters := [id_param; page_param; limit_param]; requestBody := None |}.

(** A server that answers every request with an empty result. *)
Definition no_reply : AxiosRequestConfig → Exc unit := λ _, Ok ().

(** ** The document of the test on generated identifiers; no server *)

Definition unnamed_get : OperationObject :=
  {| operationId := None; op_parameters := None; op_requestBody := None |}.

Definition complex_path_item : PathItemObject :=
  {| item_parameters := None; item_get := Some unnamed_get;
     item_post := None; item_put := None; item_patch := None;
     item_delete := None; item_options := None; item_head := None |}.

Definition complex_path_document : Document :=
  {| servers := None;
     paths := [(js "/api/v1/complex-path/{id}", Some complex_path_item)] |}.

(** ** Two paths whose [get] operations share an identifier *)

Definition list_operation (pathKey : string) : jsstring * option PathItemObject :=
  (js pathKey,
   Some {| item_parameters := None;
           item_get := Some {| operationId := Some (js "list");
                               op_parameters := None; op_requestBody := None |};
           item_post := None; item_put := None; item_patch := None;
           item_delete := None; item_options := None; item_head := None |}).

Definition duplicate_document : Document :=
  {| servers := Some [ {| url := js "https://api.example.com" |} ];
     paths := [list_operation "/users"; list_operation "/orders"] |}.

Definition duplicate_client : APIClient :=
  (initialize (new_APIClient {| opt_baseUrl := None |} ∅) duplicate_document).1.

Definition list_info (pathKey : string) : OperationInfo :=
  {| method := js "GET"; path := js pathKey;
     operation := {| operationId := Some (js "list"); op_parameters := None;
                     op_requestBody := None |};
     parameters := []; requestBody := None |}.

(** ** An array-typed parameter *)

Definition tags_param : ParameterObject :=
  {| param_name := js "tags"; param_in := js "query"; param_required := false;
     param_schema := typed "array" |}.

(** * Vocabulary of the further properties *)

(** ** Coercion *)

(** The parameter has a schema whose [type] is none of the four that
    [processParameterValue] treats apart (it may be absent). *)
Definition other_type (param : ParameterObject) : Prop :=
  ∃ schema, param_schema param = Some schema ∧
    default [] (schema_type schema) ≠ js "integer" ∧
    default [] (schema_type schema) ≠ js "number" ∧
    default [] (schema_type schema) ≠ js "boolean" ∧
    default [] (schema_type schema) ≠ js "array".

(** Neither the first nor the last code unit is white space. *)
Definition no_outer_whitespace (s : jsstring) : Prop :=
  (∀ c, head s = Some c → is_whitespace c = false) ∧
  (∀ c, last s = Some c → is_whitespace c = false).

(** The number of commas of a text. *)
Definition commas (s : jsstring) : nat := length (filter (λ c, c = 44) s).

(** [token] is [piece] without the white space at its two ends. *)
Definition trimmed_of (piece token : jsstring) : Prop :=
  ∃ a b, piece = a ++ token ++ b ∧
         Forall (λ c, is_whitespace c = true) a ∧
         Forall (λ c, is_whitespace c = true) b ∧
         no_outer_whitespace token.

Definition string_param : ParameterObject :=
  {| param_name := js "filter"; param_in := js "query"; param_required := false;
     param_schema := typed "string" |}.

Definition flag_param : ParameterObject :=
  {| param_name := js "active"; param_in := js "query"; param_required := false;
     param_schema := typed "boolean" |}.

Definition ratio_param : ParameterObject :=
  {| param_name := js "page"; param_in := js "query"; param_required := false;
     param_schema := typed "number" |}.

(** ** Requests *)

(** The text of the path template that a path parameter replaces. *)
Definition path_placeholder (param : ParameterObject) : jsstring :=
  js "{" ++ param_name param ++ js "}".

(** The characters that delimit the parts of a URL: space, [#], [&], [+],
    [/], [=], [?]. *)
Definition url_delimiter (c : N) : bool :=
  (c =? 32) || (c =? 35) || (c =? 38) || (c =? 43) || (c =? 47)
  || (c =? 61) || (c =? 63).

(** The state in which the parameter loop of [executeOperation] starts. *)
Definition initial_state (c : APIClient) (info : OperationInfo) : LoopState :=
  {| st_url := default (js "undefined") (baseUrl c) ++ path info;
     queryParams := ∅; st_headers := ∅; missingRequiredParams := [] |}.

(** An operation that takes a JSON or a form body, and no parameter. *)
Definition create_item_info (types : list jsstring) : OperationInfo :=
  {| method := js "POST"; path := js "/items";
     operation := {| operationId := Some (js "createItem"); op_parameters := None;
                     op_requestBody := Some {| content := Some types |} |};
     parameters := [];
     requestBody := Some {| content := Some types |} |}.

Definition create_item_client (types : list jsstring) : APIClient :=
  {| options := {| opt_baseUrl := None |}; common_headers := ∅; schema := None;
     operations := {[ js "createItem" := create_item_info types ]};
     baseUrl := Some (js "https://api.example.com") |}.

Definition trace_param : ParameterObject :=
  {| param_name := js "X-Trace"; param_in := js "header"; param_required := false;
     param_schema := typed "string" |}.

(** [pat] occurs in [a ++ pat ++ b] at the end of [a] and not before: no
    occurrence starts within [a]. *)
Definition first_at (pat a : jsstring) : Prop :=
  str_includes pat (a ++ List.removelast pat) = false.

(** ** An operation whose parameters bear names of [Object.prototype] *)

Definition q_param : ParameterObject :=
  {| param_name := js "q"; param_in := js "query"; param_required := true;
     param_schema := typed "string" |}.

Definition constructor_param : ParameterObject :=
  {| param_name := js "constructor"; param_in := js "query";
     param_required := true; param_schema := None |}.

Definition valueOf_param : ParameterObject :=
  {| param_name := js "valueOf"; param_in := js "header"; param_required := false;
     param_schema := typed "string" |}.

Definition search_info : OperationInfo :=
  {| method := js "GET"; path := js "/search";
     operation :=
       {| operationId := Some (js "search");
          op_parameters :=
            Some [q_param; constructor_param; trace_param; valueOf_param];
          op_requestBody := None |};
     parameters := [q_param; constructor_param; trace_param; valueOf_param];
     requestBody := None |}.

Definition search_client : APIClient :=
  {| options := {| opt_baseUrl := None |}; common_headers := ∅; schema := None;
     operations := {[ js "search" := search_info ]};
     baseUrl := Some (js "https://api.example.com") |}.

(** ** An operation with parameters and a JSON body *)

Definition update_item_info : OperationInfo :=
  {| method := js "PUT"; path := js "/items/{id}";
     operation :=
       {| operationId := Some (js "updateItem");
          op_parameters := Some [page_param];
          op_requestBody := Some {| content := Some [js "application/json"] |} |};
     parameters := [id_param; page_param];
     requestBody := Some {| content := Some [js "application/json"] |} |}.

Definition update_item_client : APIClient :=
  {| options := {| opt_baseUrl := None |}; common_headers := ∅; schema := None;
     operations := {[ js "updateItem" := update_item_info ]};
     baseUrl := Some (js "https://api.example.com") |}.

(** ** A document of three operations, one of them without identifier *)

Definition catalog_item : PathItemObject :=
  {| item_parameters := Some [id_param];
     item_get := Some get_item; item_post := None; item_put := None;
     item_patch := None; item_delete := Some unnamed_get;
     item_options := None; item_head := None |}.

Definition create_item : OperationObject :=
  {| operationId := Some (js "createItem"); op_parameters := None;
     op_requestBody := Some {| content := Some [js "application/json"] |} |}.

Definition catalog_collection : PathItemObject :=
  {| item_parameters := None;
     item_get := None; item_post := Some create_item; item_put := None;
     item_patch := None; item_delete := None;
     item_options := None; item_head := None |}.

Definition catalog_document : Document :=
  {| servers := Some [ {| url := js "https://api.example.com" |} ];
     paths := [(js "/items/{id}", Some catalog_item);
               (js "/items", Some catalog_collection)] |}.

(** * The rest of [api-client.ts], the server and the command line *)

(** ** [JSON.stringify] *)

Definition lower_hex_digit (d : N) : N := if d <? 10 then d + 48 else d + 87.

(** The escape of a code unit as a backslash, [u] and four hexadecimal
    digits. *)
Definition unicode_escape (c : N) : jsstring :=
  [92; 117; lower_hex_digit (c / 4096); lower_hex_digit ((c / 256) mod 16);
   lower_hex_digit ((c / 16) mod 16); lower_hex_digit (c mod 16)].

(** The characters of a string between the quotes of its JSON form. *)
Fixpoint quote_units (s : jsstring) : jsstring :=
  match s with
  | [] => []
  | c :: r =>
      if c =? 8 then 92 :: 98 :: quote_units r
      else if c =? 9 then 92 :: 116 :: quote_units r
      else if c =? 10 then 92 :: 110 :: quote_units r
      else if c =? 12 then 92 :: 102 :: quote_units r
      else if c =? 13 then 92 :: 114 :: quote_units r
      else if c =? 34 then 92 :: 34 :: quote_units r
      else if c =? 92 then 92 :: 92 :: quote_units r
      else if c <? 32 then unicode_escape c ++ quote_units r
      else if is_high_surrogate c then
        match r with
        | c2 :: r2 =>
            if is_low_surrogate c2 then c :: c2 :: quote_units r2
            else unicode_escape c ++ quote_units r
        | [] => unicode_escape c
        end
      else if is_low_surrogate c then unicode_escape c ++ quote_units r
      else c :: quote_units r
  end.

Definition quote_string (s : jsstring) : jsstring := [34] ++ quote_units s ++ [34].

(** [JSON.stringify(v)] of a caller's or a server's value, without
    indentation. *)
Fixpoint JSON_stringify (v : JsValue) : jsstring :=
  match v with
  | JNull => js "null"
  | JBool true => js "true"
  | JBool false => js "false"
  | JNum (Finite neg ds e) => Number_toString (Finite neg ds e)
  | JNum _ => js "null"
  | JStr s => quote_string s
  | JArr items =>
      js "[" ++ join (js ",") (JSON_stringify <$> items) ++ js "]"
  | JObj props =>
      js "{" ++
      join (js ",")
        ((λ e, quote_string e.1 ++ js ":" ++ e.2)
           <$> own_entries ((λ e, (e.1, JSON_stringify e.2)) <$> props)) ++
      js "}"
  end.

(** ** The reply of the HTTP client (the [try] of [executeOperation]) *)

(** What [executeOperation] reads of a response. *)
Record AxiosResponse := {
  resp_status : JsNumber;
  resp_statusText : jsstring;
  resp_headers : gmap jsstring jsstring;
  resp_data : JsValue;
  resp_config_url : option jsstring;
  resp_config_method : option jsstring;
}.

(** What it reads of an error for which [axios.isAxiosError] holds. *)
Record AxiosError := {
  err_response : option AxiosResponse;
  err_message : jsstring;
  err_config_url : option jsstring;
  err_config_method : option jsstring;
}.

Inductive Reply :=
| Resolved (response : AxiosResponse)
| RejectedAxios (error : AxiosError)
| Rejected (error : JsError).

Record OperationResult := {
  res_status : JsNumber;
  res_statusText : jsstring;
  res_headers : gmap jsstring jsstring;
  res_data : JsValue;
  res_url : option jsstring;
  res_method : option jsstring;
}.

(** Truthiness of a value. *)
Definition truthy_value (v : JsValue) : bool :=
  match v with
  | JNull | JBool false | JStr [] | JNum NaN | JNum (Finite _ [] _) => false
  | _ => true
  end.

(** The message of the error thrown for a failed request. *)
Definition http_error_message (error : AxiosError) : jsstring :=
  let status := resp_status <$> err_response error in
  let statusText := resp_statusText <$> err_response error in
  let data := resp_data <$> err_response error in
  js "HTTP " ++ from_option Number_toString (js "undefined") status ++ js ": " ++
  (if truthy statusText then default [] statusText else err_message error) ++
  js " - " ++
  JSON_stringify (match data with
                  | Some d => if truthy_value d then d else JObj []
                  | None => JObj []
                  end).

(** The result or the error that [executeOperation] makes of the reply. *)
Definition shape_reply (reply : Reply) : Exc OperationResult :=
  match reply with
  | Resolved response =>
      Ok {| res_status := resp_status response;
            res_statusText := resp_statusText response;
            res_headers := resp_headers response;
            res_data := resp_data response;
            res_url := resp_config_url response;
            res_method := toUpperCase <$> resp_config_method response |}
  | RejectedAxios error => Throw (Error (http_error_message error))
  | Rejected error => Throw error
  end.

(** ** The constructor *)

(** The options of [ServerOptions] that configure the HTTP client. *)
Record ClientOptions := {
  additionalHeaders : option (gmap jsstring jsstring);
  timeout : option JsNumber;
  username : option jsstring;
  password : option jsstring;
}.

(** [Buffer.from(s)]: the UTF-8 bytes of a string, a lone surrogate giving
    the bytes of U+FFFD. *)
Fixpoint utf8_bytes (s : jsstring) : list N :=
  match s with
  | [] => []
  | c :: r =>
      if is_high_surrogate c then
        match r with
        | c2 :: r2 =>
            if is_low_surrogate c2 then
              utf8 ((c - 55296) * 1024 + (c2 - 56320) + 65536) ++ utf8_bytes r2
            else [239; 191; 189] ++ utf8_bytes r
        | [] => [239; 191; 189]
        end
      else if is_low_surrogate c then [239; 191; 189] ++ utf8_bytes r
      else utf8 c ++ utf8_bytes r
  end.

Definition base64_char (v : N) : N :=
  if v <? 26 then v + 65
  else if v <? 52 then v + 71
  else if v <? 62 then v - 4
  else if v =? 62 then 43
  else 47.

(** [buffer.toString('base64')] *)
Fixpoint base64 (bytes : list N) : jsstring :=
  match bytes with
  | [] => []
  | [a] => [base64_char (a / 4); base64_char ((a mod 4) * 16); 61; 61]
  | [a; b] =>
      [base64_char (a / 4); base64_char ((a mod 4) * 16 + b / 16);
       base64_char ((b mod 16) * 4); 61]
  | a :: b :: c :: r =>
      [base64_char (a / 4); base64_char ((a mod 4) * 16 + b / 16);
       base64_char ((b mod 16) * 4 + c / 64); base64_char (c mod 64)]
      ++ base64 r
  end.

(** The [headers] that the constructor hands to [axios.create]. *)
Definition constructor_headers (opts : ClientOptions) : gmap jsstring jsstring :=
  let headers :=
    default ∅ (additionalHeaders opts)
    ∪ {[ js "Content-Type" := js "application/json" ]} in
  if truthy (username opts) && truthy (password opts) then
    let credentials :=
      base64 (utf8_bytes (default [] (username opts) ++ js ":" ++
                          default [] (password opts))) in
    <[js "Authorization" := js "Basic " ++ credentials]> headers
  else headers.

(** [options.timeout || 30000] *)
Definition constructor_timeout (opts : ClientOptions) : JsNumber :=
  match timeout opts with
  | Some t => if truthy_value (JNum t) then t else number_of_N 30000
  | None => number_of_N 30000
  end.

(** ** The handler of tool calls ([server.ts]) *)

(** What the handler reads of the metadata of a tool. *)
Record ToolMetadata := {
  meta_method : jsstring;
  meta_path : jsstring;
  meta_tags : option (list jsstring);
}.

Record CallToolResult := {
  result_text : jsstring;
  result_isError : bool;
}.

(** The lines that the handler appends to the printed result. *)
Definition metadata_info (metadata : ToolMetadata) : jsstring :=
  [10; 10] ++ js "--- Request Info ---" ++ [10] ++
  js "Method: " ++ meta_method metadata ++ [10] ++
  js "Path: " ++ meta_path metadata ++
  match meta_tags metadata with
  | Some (t :: tags) => [10] ++ js "Tags: " ++ join (js ", ") (t :: tags)
  | _ => []
  end.

Section Handler.
(** [transport] stands for [this.client.request], [stringify] for
    [JSON.stringify(result, null, 2)], [getToolMetadata] for the method of
    the tool generator, and [engine_message] for the message of an error
    that the JavaScript runtime raises. *)
Context (transport : AxiosRequestConfig → Reply)
        (stringify : OperationResult → Exc jsstring)
        (getToolMetadata : jsstring → option ToolMetadata)
        (engine_message : JsError → jsstring).

(** [error.message] *)
Definition error_message (e : JsError) : jsstring :=
  match e with
  | Error message => message
  | _ => engine_message e
  end.

(** The handler of [CallToolRequestSchema], on the names of the tools and
    the client: what it returns or throws, and the requests it sent. *)
Definition call_tool (tools : list jsstring) (c : APIClient) (name : jsstring)
    (args : option (list (jsstring * JsValue)))
  : Exc CallToolResult * list AxiosRequestConfig :=
  if negb (includes tools name) then
    (Throw (Error (js "Tool " ++ name ++ js " not found")), [])
  else
    let '(outcome, log) :=
      executeOperation (λ config, shape_reply (transport config))
        c name (default [] args) in
    match result ← outcome;
          text ← stringify result;
          Ok (match getToolMetadata name with
              | Some metadata => text ++ metadata_info metadata
              | None => text
              end) with
    | Ok responseText =>
        (Ok {| result_text := responseText; result_isError := false |}, log)
    | Throw error =>
        (Ok {| result_text :=
                 js "Error executing " ++ name ++ js ": " ++ error_message error;
               result_isError := true |}, log)
    end.
End Handler.

(** ** The command line ([index.ts]) *)

(** The expansion of [$$], [$&], [$`] and [$'] in the replacement text of
    [String.prototype.replace], the pattern being a string. *)
Fixpoint expand_replacement (matched before after repl : jsstring) : jsstring :=
  match repl with
  | 36 :: 36 :: r => 36 :: expand_replacement matched before after r
  | 36 :: 38 :: r => matched ++ expand_replacement matched before after r
  | 36 :: 96 :: r => before ++ expand_replacement matched before after r
  | 36 :: 39 :: r => after ++ expand_replacement matched before after r
  | c :: r => c :: expand_replacement matched before after r
  | [] => []
  end.

(** [s.replace(pat, repl)] with a string pattern and any replacement text;
    [before] holds, reversed, what was passed over. *)
Fixpoint replace_from (pat repl before s : jsstring) : jsstring :=
  if is_prefix pat s then
    reverse before ++
    expand_replacement pat (reverse before) (drop (length pat) s) repl ++
    drop (length pat) s
  else match s with
       | [] => reverse before
       | c :: r => replace_from pat repl (c :: before) r
       end.

Definition replace_string (pat repl s : jsstring) : jsstring :=
  replace_from pat repl [] s.

(** The options that [commander] hands over. *)
Record CliOptions := {
  cli_schema : jsstring;
  cli_baseUrl : option jsstring;
  cli_headers : option jsstring;
  cli_username : option jsstring;
  cli_password : option jsstring;
}.

(** What [main] reads of its surroundings: whether the schema file exists
    and the two environment variables. *)
Record Environment := {
  schema_exists : bool;
  BEARER_TOKEN : option jsstring;
  ORGANIZATION_ID : option jsstring;
}.

(** The options that [main] passes to [new OpenAPIMCPServer]. *)
Record StartOptions := {
  start_baseUrl : option jsstring;
  start_additionalHeaders : JsValue;
  start_username : option jsstring;
  start_password : option jsstring;
}.

Inductive ExitReason := SchemaNotFound | InvalidHeaders | IncompleteCredentials.

(** [process.exit(1)] after the message of the reason, or the start of the
    server. *)
Inductive MainOutcome :=
| Exit (reason : ExitReason)
| Start (opts : StartOptions).

(** The header text with the two placeholders replaced. *)
Definition substituted_headers (env : Environment) (headers : jsstring) : jsstring :=
  replace_string (js "ORGANIZATION_ID")
    (default (js "undefined") (ORGANIZATION_ID env))
    (replace_string (js "BEARER_TOKEN")
       (default (js "undefined") (BEARER_TOKEN env)) headers).

Definition main (o : CliOptions) (env : Environment) : MainOutcome :=
  if negb (schema_exists env) then Exit SchemaNotFound
  else
    match (if truthy (cli_headers o) then
             match JSON_parse (substituted_headers env (default [] (cli_headers o))) with
             | Ok v => Some v
             | Throw _ => None
             end
           else Some (JObj [])) with
    | None => Exit InvalidHeaders
    | Some headers =>
        if (truthy (cli_username o) && negb (truthy (cli_password o)))
           || (negb (truthy (cli_username o)) && truthy (cli_password o))
        then Exit IncompleteCredentials
        else Start {| start_baseUrl := cli_baseUrl o;
                      start_additionalHeaders := headers;
                      start_username := cli_username o;
                      start_password := cli_password o |}
    end.

(** ** Tools, replies and options to run the server code on *)

Definition items_tools : list jsstring := [js "getItem"].

Definition no_metadata : jsstring → option ToolMetadata := λ _, None.

(** A network failure: no response came. *)
Definition connection_refused : AxiosError :=
  {| err_response := None; err_message := js "connect ECONNREFUSED";
     err_config_url := Some (js "https://api.example.com/items/7");
     err_config_method := Some (js "get") |}.

Definition not_found_response : AxiosResponse :=
  {| resp_status := number_of_N 404; resp_statusText := js "Not Found";
     resp_headers := ∅;
     resp_data := JObj [(js "error", JStr (js "no such item"))];
     resp_config_url := Some (js "https://api.example.com/items/7");
     resp_config_method := Some (js "get") |}.

Definition plain_stringify : OperationResult → Exc jsstring :=
  λ result, Ok (JSON_stringify (res_data result)).

Definition plain_message : JsError → jsstring := λ _, js "runtime error".

(** * Properties *)

(** ** Strings *)

Lemma is_prefix_app (p s : jsstring) : is_prefix p (p ++ s) = true.
Proof.
  induction p as [|a p IH]; simpl; [done|].
  by rewrite N.eqb_refl, IH.
Qed.

Lemma str_includes_app (p a b : jsstring) : str_includes p (a ++ p ++ b) = true.
Proof.
  induction a as [|x a IH]; simpl.
  - destruct (p ++ b) eqn:E; simpl.
    + destruct p; [done | discriminate].
    + rewrite <- E, is_prefix_app. done.
  - rewrite IH. apply orb_true_r.
Qed.

Lemma join_elem (sep x : jsstring) (parts : list jsstring) :
  x ∈ parts → ∃ a b, join sep parts = a ++ x ++ b.
Proof.
  induction parts as [|p ps IH]; intros Hin.
  - by apply elem_of_nil in Hin.
  - apply elem_of_cons in Hin as [->|Hin].
    + destruct ps as [|q ps].
      * exists [], []. simpl. by rewrite app_nil_r.
      * exists [], (sep ++ join sep (q :: ps)). done.
    + destruct (IH Hin) as (a & b & E).
      destruct ps as [|q ps]; [by apply elem_of_nil in Hin|].
      exists (p ++ sep ++ a), b.
      change (join sep (p :: q :: ps)) with (p ++ sep ++ join sep (q :: ps)).
      rewrite E. by rewrite <- !app_assoc.
Qed.

Lemma str_includes_join (pre sep x : jsstring) (parts : list jsstring) :
  x ∈ parts → str_includes x (pre ++ join sep parts) = true.
Proof.
  intros Hin. destruct (join_elem sep x parts Hin) as (a & b & ->).
  rewrite app_assoc. apply str_includes_app.
Qed.

Lemma drop_ws_all (s : jsstring) :
  Forall (λ c, is_whitespace c = true) s → drop_ws s = [].
Proof.
  induction 1 as [|c s Hc _ IH]; simpl; [done|]. by rewrite Hc.
Qed.

Lemma trim_all_whitespace (s : jsstring) :
  Forall (λ c, is_whitespace c = true) s → trim s = [].
Proof.
  intros H. unfold trim. by rewrite (drop_ws_all s H).
Qed.

(** What [encodeURIComponent] returns has no [$], so that it is taken
    literally as the replacement text of [String.prototype.replace]. *)
Lemma hex_digit_no_dollar (d : N) : hex_digit d ≠ 36.
Proof. unfold hex_digit. destruct (d <? 10); lia. Qed.

Lemma percent_no_dollar (bytes : list N) :
  Forall (λ c, c ≠ 36) (mjoin (percent <$> bytes)).
Proof.
  induction bytes as [|b l IH]; [constructor|].
  rewrite fmap_cons. simpl.
  constructor; [done|].
  constructor; [apply hex_digit_no_dollar|].
  constructor; [apply hex_digit_no_dollar|].
  exact IH.
Qed.

Lemma encodeURIComponent_no_dollar (n : nat) : ∀ s t,
  (length s ≤ n)%nat → encodeURIComponent s = Ok t → Forall (λ c, c ≠ 36) t.
Proof.
  induction n as [|n IH]; intros s t Hlen H.
  - destruct s; [|simpl in Hlen; lia]. injection H as <-. constructor.
  - destruct s as [|c r]; [injection H as <-; constructor|].
    simpl in Hlen. simpl in H.
    destruct (uri_unreserved c) eqn:Hu.
    + destruct (encodeURIComponent r) as [t'|] eqn:Hr; [|discriminate H].
      injection H as <-. constructor.
      * intros ->. vm_compute in Hu. discriminate Hu.
      * apply (IH r); [lia | done].
    + destruct (is_low_surrogate c); [discriminate H|].
      destruct (is_high_surrogate c).
      * destruct r as [|c2 r2]; [discriminate H|].
        destruct (is_low_surrogate c2); [|discriminate H].
        destruct (encodeURIComponent r2) as [t'|] eqn:Hr; [|discriminate H].
        injection H as <-. apply Forall_app. split.
        -- apply percent_no_dollar.
        -- apply (IH r2); [simpl in Hlen; lia | done].
      * destruct (encodeURIComponent r) as [t'|] eqn:Hr; [|discriminate H].
        injection H as <-. apply Forall_app. split.
        -- apply percent_no_dollar.
        -- apply (IH r); [lia | done].
Qed.

Lemma str_eqb_eq (a b : jsstring) : str_eqb a b = true ↔ a = b.
Proof. unfold str_eqb. apply bool_decide_eq_true. Qed.


(** ** The parameter loop *)

Lemma process_parameter_absent args st p :
  supplied args p = None →
  ∃ st', process_parameter args st p = Ok st' ∧
         missingRequiredParams st' =
           missingRequiredParams st ++
           (if is_missing args p then [missing_label p] else []).
Proof.
  intros H. unfold process_parameter, is_missing. rewrite H.
  destruct (param_required p); simpl; eexists; split; try done.
  by rewrite app_nil_r.
Qed.

Lemma process_parameter_supplied args st p v :
  supplied args p = Some v →
  match conversion p v with
  | Throw e => process_parameter args st p = Throw e
  | Ok _ => ∃ st', process_parameter args st p = Ok st' ∧
                   missingRequiredParams st' = missingRequiredParams st
  end.
Proof.
  intros H. unfold process_parameter, conversion. rewrite H.
  destruct (process_argument p v) as [pv|e]; simpl; [|done].
  destruct (str_eqb (param_in p) (js "path")).
  { destruct (Value_ToString pv) as [s|e]; simpl; [|done].
    destruct (encodeURIComponent s) as [enc|e]; simpl; [|done].
    eexists; split; done. }
  destruct (str_eqb (param_in p) (js "query")).
  { eexists; split; done. }
  destruct (str_eqb (param_in p) (js "header")).
  { destruct (Value_ToString pv) as [s|e]; simpl; [|done].
    eexists; split; done. }
  eexists; split; done.
Qed.

Lemma process_parameters_spec args params : ∀ st,
  match first_failure args params with
  | Some e => process_parameters args st params = Throw e
  | None =>
      ∃ st', process_parameters args st params = Ok st' ∧
             missingRequiredParams st' =
               missingRequiredParams st ++ missing_labels args params
  end.
Proof.
  induction params as [|p r IH]; intros st; simpl.
  - exists st. by rewrite app_nil_r.
  - destruct (supplied args p) as [v|] eqn:Hs.
    + pose proof (process_parameter_supplied args st p v Hs) as Hp.
      assert (is_missing args p = false) as ->.
      { unfold is_missing. rewrite Hs. apply andb_false_r. }
      destruct (conversion p v) as [[]|e].
      * destruct Hp as (st1 & -> & Hm). simpl.
        specialize (IH st1). rewrite Hm in IH. exact IH.
      * by rewrite Hp.
    + destruct (process_parameter_absent args st p Hs) as (st1 & -> & Hm).
      simpl. specialize (IH st1).
      destruct (first_failure args r) as [e|]; [done|].
      destruct IH as (st2 & -> & Hm2). exists st2. split; [done|].
      rewrite Hm2, Hm, <- app_assoc. by destruct (is_missing args p).
Qed.

Lemma build_request_failure c id info args e :
  operations c !! id = Some info →
  first_failure args (parameters info) = Some e →
  build_request c id args = Throw e.
Proof.
  intros Hop Hf. unfold build_request. rewrite Hop.
  pose proof (process_parameters_spec args (parameters info)
    {| st_url := default (js "undefined") (baseUrl c) ++ path info;
       queryParams := ∅; st_headers := ∅; missingRequiredParams := [] |}) as H.
  rewrite Hf in H. by rewrite H.
Qed.

Lemma build_request_missing c id info args :
  operations c !! id = Some info →
  first_failure args (parameters info) = None →
  missing_labels args (parameters info) ≠ [] →
  build_request c id args = Throw (Error (missing_message args (parameters info))).
Proof.
  intros Hop Hf Hm. unfold build_request. rewrite Hop.
  pose proof (process_parameters_spec args (parameters info)
    {| st_url := default (js "undefined") (baseUrl c) ++ path info;
       queryParams := ∅; st_headers := ∅; missingRequiredParams := [] |}) as H.
  rewrite Hf in H. destruct H as (st' & -> & Hst). simpl in Hst. simpl.
  rewrite Hst. unfold missing_message.
  destruct (missing_labels args (parameters info)); done.
Qed.

Lemma missing_labels_elem args p params :
  p ∈ params → is_missing args p = true →
  missing_label p ∈ missing_labels args params.
Proof.
  induction params as [|q r IH]; intros Hin Hm.
  - by apply elem_of_nil in Hin.
  - apply elem_of_cons in Hin as [<-|Hin]; simpl.
    + rewrite Hm. apply list_elem_of_here.
    + destruct (is_missing args q); [apply list_elem_of_further|]; by apply IH.
Qed.



Lemma executeOperation_rejects {Response} (send : AxiosRequestConfig → Exc Response)
    c id args e :
  build_request c id args = Throw e →
  executeOperation send c id args = (Throw e, []).
Proof. intros H. unfold executeOperation. by rewrite H. Qed.

(** ** The executor on a well-formed call *)

Lemma items_client_getItem :
  operations items_client !! js "getItem" = Some get_item_info.
Proof. vm_compute. reflexivity. Qed.

Example items_client_request :
  executeOperation no_reply items_client (js "getItem")
    [(js "id", JStr (js "a/b")); (js "page", JStr (js " 2 "));
     (js "limit", JNum (number_of_N 10))]
  = (Ok (),
     [ {| cfg_method := js "GET";
          cfg_url := js "https://api.example.com/items/a%2Fb";
          cfg_params := <[js "page" := Json (JNum (number_of_N 2))]>
                          (<[js "limit" := Json (JNum (number_of_N 10))]> ∅);
          cfg_headers := ∅;
          cfg_data := None |} ]).
Proof. vm_compute. reflexivity. Qed.

(** The read of [args] follows the prototype.  In this call the caller
    passes [q] only: the required [constructor] is not missing, being read
    as the function [Object], and goes out in the query; the header
    [valueOf] goes out as the text of the function of that name. *)
Example inherited_members_are_read :
  is_missing [(js "q", JStr (js "x"))] constructor_param = false ∧
  executeOperation no_reply search_client (js "search") [(js "q", JStr (js "x"))]
  = (Ok (),
     [ {| cfg_method := js "GET";
          cfg_url := js "https://api.example.com/search";
          cfg_params := <[js "q" := Json (JStr (js "x"))]>
                          (<[js "constructor" := Native (js "Object")]> ∅);
          cfg_headers :=
            {[ js "valueOf" := js "function valueOf() { [native code] }" ]};
          cfg_data := None |} ]).
Proof. vm_compute. split; reflexivity. Qed.

(** An own property hides the inherited member, and [null] counts as
    absent; a typed parameter rejects the function that it inherits. *)
Example inherited_members_hidden :
  supplied [(js "constructor", JNull)] constructor_param = None ∧
  supplied [(js "constructor", JStr (js "x"))] constructor_param
  = Some (Json (JStr (js "x"))) ∧
  supplied [] constructor_param = Some (Native (js "Object")) ∧
  supplied [] id_param = None ∧
  process_argument
    {| param_name := js "toString"; param_in := js "query";
       param_required := false; param_schema := typed "integer" |}
    (Native (js "toString"))
  = Throw (Error (js "Parameter toString must be a valid number, got: function toString() { [native code] }")).
Proof. vm_compute. repeat split; reflexivity. Qed.

(** A parameter named [__proto__] is read as the prototype of [args] and
    written to the prototype of the query or of the headers: it adds no
    property to either. *)
Example proto_parameter_dropped :
  ∀ location,
    process_parameter [(js "__proto__", JStr (js "x"))]
      {| st_url := js "u"; queryParams := ∅; st_headers := ∅;
         missingRequiredParams := [] |}
      {| param_name := js "__proto__"; param_in := location;
         param_required := true; param_schema := None |}
    = Ok {| st_url := js "u"; queryParams := ∅; st_headers := ∅;
            missingRequiredParams := [] |}.
Proof.
  intros location. unfold process_parameter.
  change (supplied _ _) with (Some (Json (JStr (js "x")))). cbv beta iota.
  change (process_argument _ _) with (Ok (Json (JStr (js "x")))).
  cbv [mbind Exc_bind param_in param_name].
  destruct (str_eqb location (js "path")); [vm_compute; reflexivity|].
  destruct (str_eqb location (js "query")); [vm_compute; reflexivity|].
  destruct (str_eqb location (js "header")); vm_compute; reflexivity.
Qed.

(** ** Missing required parameters *)

(** A parameter is missing when it is required and the caller has passed
    [null] for it, or has left it out and its name is none that
    [Object.prototype] lends to [args]. *)
Lemma is_missing_spec args p :
  is_missing args p = true ↔
  param_required p = true ∧
  (get_prop (param_name p) args = Some JNull ∨
   (get_prop (param_name p) args = None ∧
    get_prop (param_name p) Object_prototype_functions = None ∧
    param_name p ≠ js "__proto__")).
Proof.
  unfold is_missing, supplied, read_property, str_eqb.
  rewrite andb_true_iff. apply and_iff_compat_l.
  destruct (get_prop (param_name p) args) as [v|].
  - destruct v; split; try done; try (by intros [?|[? _]]); by left.
  - destruct (bool_decide_reflect (param_name p = js "__proto__")) as [E|E].
    + split; [done | by intros [?|(_ & _ & ?)]].
    + destruct (get_prop (param_name p) Object_prototype_functions) as [f|]; simpl.
      * split; [done | by intros [?|(_ & ? & _)]].
      * split; [by right | done].
Qed.

(** C1, as stated, fails: a call that omits the required [id] and [limit] and
    passes a [page] that is not a number throws the coercion error of [page];
    the message names neither missing parameter. *)
Lemma missing_parameters_preempted :
  is_missing [(js "page", JStr (js "abc"))] id_param = true ∧
  is_missing [(js "page", JStr (js "abc"))] limit_param = true ∧
  executeOperation no_reply items_client (js "getItem")
    [(js "page", JStr (js "abc"))]
  = (Throw (Error (js "Parameter page must be a valid number, got: abc")), []) ∧
  str_includes (missing_label id_param)
    (js "Parameter page must be a valid number, got: abc") = false ∧
  str_includes (missing_label limit_param)
    (js "Parameter page must be a valid number, got: abc") = false.
Proof. vm_compute. repeat split; reflexivity. Qed.

(** C1 (amended): for every call to [executeOperation] on a registered
    identifier in which [args[name]] reads [undefined] or [null] for some
    required declared parameter, the call sends no request and fails; when
    moreover every value that is read converts, the failure is the one
    aggregated error, whose message lists each missing required parameter
    with its location, in declaration order.  The read follows the
    prototype of [args]: a parameter left out by the caller is missing
    unless it bears the name of a member of [Object.prototype]. *)
Theorem missing_parameters_aggregated {Response}
    (send : AxiosRequestConfig → Exc Response) c id info args :
  operations c !! id = Some info →
  (∃ p, p ∈ parameters info ∧ is_missing args p = true) →
  (∃ e, executeOperation send c id args = (Throw e, [])) ∧
  (first_failure args (parameters info) = None →
   executeOperation send c id args
   = (Throw (Error (missing_message args (parameters info))), []) ∧
   ∀ p, p ∈ parameters info → is_missing args p = true →
        str_includes (missing_label p)
          (missing_message args (parameters info)) = true).
Proof.
  intros Hop (p & Hin & Hmiss).
  assert (missing_labels args (parameters info) ≠ []) as Hne.
  { intros E. pose proof (missing_labels_elem args p _ Hin Hmiss) as H.
    rewrite E in H. by apply elem_of_nil in H. }
  split.
  - destruct (first_failure args (parameters info)) as [e|] eqn:Hf.
    + exists e. apply executeOperation_rejects.
      by apply build_request_failure with info.
    + eexists. apply executeOperation_rejects.
      by apply build_request_missing.
  - intros Hf. split.
    + apply executeOperation_rejects. by apply build_request_missing.
    + intros q Hq Hqm. apply str_includes_join.
      by apply missing_labels_elem.
Qed.

Lemma missing_parameters_aggregated_witness :
  operations items_client !! js "getItem" = Some get_item_info ∧
  (∃ p, p ∈ parameters get_item_info ∧
        is_missing [(js "page", JStr (js "3"))] p = true) ∧
  executeOperation no_reply items_client (js "getItem")
    [(js "page", JStr (js "3"))]
  = (Throw (Error (js "Missing required parameters: id (path), limit (query)")), []) ∧
  operations search_client !! js "search" = Some search_info ∧
  (∃ p, p ∈ parameters search_info ∧ is_missing [] p = true) ∧
  executeOperation no_reply search_client (js "search") []
  = (Throw (Error (js "Missing required parameters: q (query)")), []).
Proof.
  assert (operations items_client !! js "getItem" = Some get_item_info) as H1
    by (vm_compute; reflexivity).
  assert (∃ p, p ∈ parameters get_item_info ∧
               is_missing [(js "page", JStr (js "3"))] p = true) as H2.
  { exists id_param. split; [apply list_elem_of_here | vm_compute; reflexivity]. }
  assert (operations search_client !! js "search" = Some search_info) as H3
    by (vm_compute; reflexivity).
  assert (∃ p, p ∈ parameters search_info ∧ is_missing [] p = true) as H4.
  { exists q_param. split; [apply list_elem_of_here | vm_compute; reflexivity]. }
  split; [exact H1|]. split; [exact H2|]. split; [|split; [exact H3|split; [exact H4|]]].
  - destruct (missing_parameters_aggregated no_reply _ _ _ _ H1 H2) as [_ H].
    destruct H as [E _]; [vm_compute; reflexivity|].
    rewrite E. vm_compute. reflexivity.
  - destruct (missing_parameters_aggregated no_reply _ _ _ _ H3 H4) as [_ H].
    destruct H as [E _]; [vm_compute; reflexivity|].
    rewrite E. vm_compute. reflexivity.
Defined.

(** ** Validation failures *)




(** ** The operation index *)

Lemma set_all_app ops l1 l2 : set_all ops (l1 ++ l2) = set_all (set_all ops l1) l2.
Proof. apply foldl_app. Qed.

Lemma parse_methods_set_all pathKey item ms : ∀ ops,
  foldl (parse_method pathKey item) ops ms =
  set_all ops
    (omap (λ m, (λ op, (operation_id m pathKey op,
                         operation_info m pathKey item op)) <$> item_method item m) ms).
Proof.
  induction ms as [|m ms IH]; intros ops; simpl; [done|].
  rewrite IH. unfold parse_method.
  by destruct (item_method item m).
Qed.

Lemma parse_path_set_all ops entry :
  parse_path ops entry = set_all ops (path_operations entry).
Proof.
  unfold parse_path, path_operations.
  destruct (entry.2); [apply parse_methods_set_all | done].
Qed.

Lemma parseOperations_set_all doc ops :
  parseOperations doc ops = set_all ops (document_operations doc).
Proof.
  unfold parseOperations, document_operations.
  generalize dependent ops.
  induction (paths doc) as [|e l IH]; intros ops; simpl; [done|].
  by rewrite IH, set_all_app, parse_path_set_all.
Qed.

Lemma set_all_lookup_notin ops entries k :
  k ∉ entries.*1 → set_all ops entries !! k = ops !! k.
Proof.
  generalize dependent ops.
  induction entries as [|e l IH]; intros ops Hk; simpl; [done|].
  rewrite fmap_cons, not_elem_of_cons in Hk. destruct Hk as [Hne Hk].
  rewrite IH by done. by rewrite lookup_insert_ne.
Qed.

(** The entry set last under an identifier is the one the index holds. *)
Lemma set_all_lookup_last ops before e after :
  e.1 ∉ after.*1 →
  set_all ops (before ++ e :: after) !! e.1 = Some e.2.
Proof.
  intros Hk. rewrite set_all_app. simpl.
  rewrite set_all_lookup_notin by done. apply lookup_insert_eq.
Qed.

Lemma set_all_dom ops entries :
  dom (set_all ops entries) = dom ops ∪ list_to_set entries.*1.
Proof.
  generalize dependent ops.
  induction entries as [|e l IH]; intros ops; simpl.
  - by rewrite (right_id_L ∅ (∪)).
  - rewrite IH, dom_insert_L.
    by rewrite (comm_L (∪) {[e.1]} (dom ops)), (assoc_L (∪)).
Qed.

Lemma size_add_le (x : jsstring) (Y : gset jsstring) :
  (size ({[x]} ∪ Y) ≤ S (size Y))%nat.
Proof.
  rewrite size_union_alt, size_singleton.
  assert (size (Y ∖ {[x]}) ≤ size Y)%nat; [|lia].
  apply subseteq_size, subseteq_difference_l. done.
Qed.

Lemma size_list_to_set_le (l : list jsstring) :
  (size (list_to_set l : gset jsstring) ≤ length l)%nat.
Proof.
  induction l as [|x l IH]; simpl; [done|].
  pose proof (size_add_le x (list_to_set l)). lia.
Qed.

Lemma size_list_to_set_lt (l : list jsstring) :
  ¬ NoDup l → (size (list_to_set l : gset jsstring) < length l)%nat.
Proof.
  induction l as [|x l IH]; intros Hnd.
  - destruct Hnd. constructor.
  - simpl. destruct (decide (x ∈ l)) as [Hin|Hnin].
    + assert ({[x]} ∪ list_to_set l = (list_to_set l : gset jsstring)) as ->.
      { apply subseteq_union_1_L, singleton_subseteq_l.
        by apply elem_of_list_to_set. }
      pose proof (size_list_to_set_le l). lia.
    + assert (¬ NoDup l) as Hl.
      { intros H. apply Hnd. by constructor. }
      specialize (IH Hl).
      pose proof (size_add_le x (list_to_set l)). lia.
Qed.

Lemma set_all_lookup_in ops entries k :
  k ∈ entries.*1 → is_Some (set_all ops entries !! k).
Proof.
  intros Hk. apply elem_of_dom. rewrite set_all_dom.
  apply elem_of_union_r, elem_of_list_to_set, Hk.
Qed.

Lemma set_all_size entries :
  (size (set_all ∅ entries) ≤ length entries)%nat ∧
  (¬ NoDup entries.*1 → size (set_all ∅ entries) < length entries)%nat.
Proof.
  rewrite <- (size_dom (D := gset jsstring)), set_all_dom, dom_empty_L, (left_id_L ∅ (∪)).
  rewrite <- (length_fmap fst entries). split.
  - apply size_list_to_set_le.
  - apply size_list_to_set_lt.
Qed.

Lemma operation_id_generated m pathKey op :
  truthy (operationId op) = false →
  operation_id m pathKey op = generated_id m pathKey.
Proof.
  unfold operation_id. destruct (operationId op) as [[|c i]|]; done.
Qed.

Lemma document_operations_elem doc pathKey item m op :
  (pathKey, Some item) ∈ paths doc →
  m ∈ methods →
  item_method item m = Some op →
  (operation_id m pathKey op, operation_info m pathKey item op)
    ∈ document_operations doc.
Proof.
  intros Hp Hm Hop. unfold document_operations.
  apply list_elem_of_bind. exists (pathKey, Some item). split; [|done].
  unfold path_operations. cbn -[methods omap].
  apply list_elem_of_omap. exists m. split; [done|].
  by rewrite Hop.
Qed.

Lemma methods_lower m : m ∈ methods → toLowerCase m = m.
Proof.
  unfold methods. rewrite !elem_of_cons, elem_of_nil.
  intros [->|[->|[->|[->|[->|[->|[->|[]]]]]]]]; reflexivity.
Qed.

Lemma replace_non_alnum_lookup pathKey (i : nat) c :
  pathKey !! i = Some c →
  replace_non_alnum pathKey !! i = Some (if is_alnum c then c else 95).
Proof.
  intros H. unfold replace_non_alnum. by rewrite list_lookup_fmap, H.
Qed.

(** ** Generated identifiers *)

(** C2, as stated, fails: the run [/{] of the path of the example gives two
    underscores, not one, so the generated identifier is not the stated one,
    whatever precedes the collapsed path; and the method is followed by one
    underscore, the second one of the example being the replaced slash. *)
Lemma generated_identifier_keeps_runs :
  generated_id (js "get") (js "/api/v1/complex-path/{id}")
    ≠ stated_id (js "get") (js "/api/v1/complex-path/{id}") ∧
  generated_id (js "get") (js "users") = js "get_users" ∧
  (∀ pre, generated_id (js "get") (js "/api/v1/complex-path/{id}")
            ≠ pre ++ collapse_runs false (js "/api/v1/complex-path/{id}")) ∧
  parseOperations complex_path_document ∅
    !! stated_id (js "get") (js "/api/v1/complex-path/{id}") = None ∧
  is_Some (parseOperations complex_path_document ∅
             !! js "get__api_v1_complex_path__id_").
Proof.
  split; [vm_compute; discriminate|].
  split; [vm_compute; reflexivity|].
  split.
  - intros pre E.
    assert (length pre = 5%nat) as Hlen.
    { assert (length (generated_id (js "get") (js "/api/v1/complex-path/{id}"))
              = 29%nat) as H1 by (vm_compute; reflexivity).
      assert (length (collapse_runs false (js "/api/v1/complex-path/{id}"))
              = 24%nat) as H2 by (vm_compute; reflexivity).
      apply (f_equal length) in E. rewrite length_app, H1, H2 in E. lia. }
    do 6 (destruct pre as [|? pre]; try discriminate Hlen).
    vm_compute in E. discriminate E.
  - split; [vm_compute; reflexivity|].
    vm_compute. eexists. reflexivity.
Qed.

(** C2 (amended): for every path and method of the document whose operation
    lacks an identifier, the identifier under which the operation is indexed
    is the lower-case method name, one underscore, then the path template
    with each non-alphanumeric character replaced by an underscore, runs
    not collapsed; method get with path /api/v1/complex-path/{id} yields
    get__api_v1_complex_path__id_. *)
Theorem generated_identifier doc ops pathKey item m op :
  (pathKey, Some item) ∈ paths doc →
  m ∈ methods →
  item_method item m = Some op →
  truthy (operationId op) = false →
  operation_id m pathKey op = m ++ js "_" ++ replace_non_alnum pathKey ∧
  is_Some (parseOperations doc ops !! (m ++ js "_" ++ replace_non_alnum pathKey)) ∧
  toLowerCase m = m ∧
  length (replace_non_alnum pathKey) = length pathKey ∧
  (∀ (i : nat) c, pathKey !! i = Some c →
     replace_non_alnum pathKey !! i = Some (if is_alnum c then c else 95)) ∧
  generated_id (js "get") (js "/api/v1/complex-path/{id}")
    = js "get__api_v1_complex_path__id_".
Proof.
  intros Hp Hm Hop Hid.
  pose proof (operation_id_generated m pathKey op Hid) as Hgen.
  split; [exact Hgen|]. split.
  - rewrite parseOperations_set_all. apply set_all_lookup_in.
    apply list_elem_of_fmap.
    exists (operation_id m pathKey op, operation_info m pathKey item op).
    split; [by rewrite Hgen|]. by apply document_operations_elem.
  - split; [by apply methods_lower|].
    split; [apply length_fmap|].
    split; [apply replace_non_alnum_lookup|].
    vm_compute. reflexivity.
Qed.

Lemma generated_identifier_witness :
  ((js "/api/v1/complex-path/{id}", Some complex_path_item)
     ∈ paths complex_path_document) ∧
  (js "get" ∈ methods) ∧
  item_method complex_path_item (js "get") = Some unnamed_get ∧
  truthy (operationId unnamed_get) = false ∧
  operation_id (js "get") (js "/api/v1/complex-path/{id}") unnamed_get
    = js "get__api_v1_complex_path__id_" ∧
  is_Some (parseOperations complex_path_document ∅
             !! js "get__api_v1_complex_path__id_").
Proof.
  assert ((js "/api/v1/complex-path/{id}", Some complex_path_item)
            ∈ paths complex_path_document) as H1 by apply list_elem_of_here.
  assert (js "get" ∈ methods) as H2 by apply list_elem_of_here.
  assert (item_method complex_path_item (js "get") = Some unnamed_get) as H3
    by reflexivity.
  assert (truthy (operationId unnamed_get) = false) as H4 by reflexivity.
  split; [exact H1|]. split; [exact H2|]. split; [exact H3|]. split; [exact H4|].
  destruct (generated_identifier complex_path_document ∅ _ _ _ _ H1 H2 H3 H4)
    as (Hid & Hindex & _).
  split; [exact Hid | exact Hindex].
Defined.

(** ** Duplicate identifiers *)

Lemma initialize_operations opts common doc :
  (initialize (new_APIClient opts common) doc).2 = Ok () →
  operations (initialize (new_APIClient opts common) doc).1 = parseOperations doc ∅.
Proof.
  unfold initialize. simpl.
  destruct (match opt_baseUrl opts with
            | Some (x :: u) => Ok (x :: u)
            | _ => getBaseUrl doc
            end); [done | discriminate].
Qed.

(** C8: when several operations of the document have the same identifier,
    the index holds under it the operation parsed last; the earlier ones are
    overwritten, [executeOperation] finds the last one only, and the index
    has fewer entries than the document has operations. *)
Theorem duplicate_identifiers_overwritten doc before e after :
  document_operations doc = before ++ e :: after →
  e.1 ∉ after.*1 →
  parseOperations doc ∅ !! e.1 = Some e.2 ∧
  (∀ opts common,
     (initialize (new_APIClient opts common) doc).2 = Ok () →
     operations (initialize (new_APIClient opts common) doc).1 !! e.1 = Some e.2) ∧
  (size (parseOperations doc ∅) ≤ length (document_operations doc))%nat ∧
  (e.1 ∈ before.*1 →
   (size (parseOperations doc ∅) < length (document_operations doc))%nat).
Proof.
  intros Hdoc Hlast.
  assert (parseOperations doc ∅ !! e.1 = Some e.2) as Hlook.
  { rewrite parseOperations_set_all, Hdoc. by apply set_all_lookup_last. }
  split; [exact Hlook|]. split.
  - intros opts common Hok. by rewrite initialize_operations.
  - rewrite parseOperations_set_all.
    destruct (set_all_size (document_operations doc)) as [Hle Hlt].
    split; [exact Hle|].
    intros Hdup. apply Hlt. rewrite Hdoc, fmap_app, fmap_cons.
    intros Hnd. apply NoDup_app in Hnd as (_ & Hdisj & _).
    apply (Hdisj e.1 Hdup), list_elem_of_here.
Qed.

Lemma duplicate_identifiers_overwritten_witness :
  document_operations duplicate_document
    = [(js "list", list_info "/users")] ++ [(js "list", list_info "/orders")] ∧
  (js "list" ∉ ([] : list (jsstring * OperationInfo)).*1) ∧
  (js "list" ∈ [(js "list", list_info "/users")].*1) ∧
  parseOperations duplicate_document ∅ !! js "list" = Some (list_info "/orders") ∧
  (size (parseOperations duplicate_document ∅)
   < length (document_operations duplicate_document))%nat.
Proof.
  assert (document_operations duplicate_document
          = [(js "list", list_info "/users")] ++ [(js "list", list_info "/orders")])
    as H1 by (vm_compute; reflexivity).
  assert (js "list" ∉ ([] : list (jsstring * OperationInfo)).*1) as H2.
  { intros H. by apply elem_of_nil in H. }
  assert (js "list" ∈ [(js "list", list_info "/users")].*1) as H3
    by apply list_elem_of_here.
  split; [exact H1|]. split; [exact H2|]. split; [exact H3|].
  destruct (duplicate_identifiers_overwritten duplicate_document
              [(js "list", list_info "/users")] (js "list", list_info "/orders")
              [] H1 H2) as (Hlast & _ & _ & Hlt).
  split; [exact Hlast | exact (Hlt H3)].
Defined.

(** The identifier reaches the operation on [/orders]; nothing reaches the
    one on [/users]. *)
Example duplicate_request :
  executeOperation no_reply duplicate_client (js "list") []
  = (Ok (),
     [ {| cfg_method := js "GET";
          cfg_url := js "https://api.example.com/orders";
          cfg_params := ∅; cfg_headers := ∅; cfg_data := None |} ]).
Proof. vm_compute. reflexivity. Qed.

(** ** Content-type selection *)

Lemma determineContentType_negotiated rb headers :
  caller_content_type headers = None →
  determineContentType rb headers = negotiated (default [] (content rb)).
Proof.
  unfold caller_content_type, determineContentType, or_else, negotiated.
  intros H.
  assert (truthy (if truthy (headers !! js "Content-Type")
                  then headers !! js "Content-Type"
                  else headers !! js "content-type") = false) as ->.
  { destruct (headers !! js "Content-Type") as [[|c v]|]; try discriminate H;
      simpl; destruct (headers !! js "content-type") as [[|d w]|];
      try discriminate H; done. }
  unfold preference. simpl.
  repeat match goal with
         | |- context [includes ?l ?x] => destruct (includes l x); [done|]
         end.
  done.
Qed.

Lemma determineContentType_caller rb headers v :
  caller_content_type headers = Some v →
  determineContentType rb headers = Some v.
Proof.
  unfold caller_content_type, determineContentType, or_else.
  destruct (headers !! js "Content-Type") as [[|c t]|]; simpl.
  - destruct (headers !! js "content-type") as [[|d w]|]; simpl;
      intros H; try discriminate H. done.
  - done.
  - destruct (headers !! js "content-type") as [[|d w]|]; simpl;
      intros H; try discriminate H. done.
Qed.

(** C3: when the caller has set no Content-Type header, the content type
    is the first of application/json, application/xml, text/xml,
    application/x-www-form-urlencoded, multipart/form-data that is among the
    declared media types, else the first declared type; when the caller has
    set one, its value is the content type, unchanged.  A body that declares
    multipart/form-data and application/json, without caller header, gets
    application/json. *)
Theorem content_type_precedence rb headers :
  (caller_content_type headers = None →
   determineContentType rb headers = negotiated (default [] (content rb))) ∧
  (∀ v, caller_content_type headers = Some v →
        determineContentType rb headers = Some v) ∧
  determineContentType
    {| content := Some [js "multipart/form-data"; js "application/json"] |} ∅
  = Some (js "application/json").
Proof.
  split; [apply determineContentType_negotiated|].
  split; [intros v; apply determineContentType_caller|].
  vm_compute. reflexivity.
Qed.

Lemma content_type_precedence_witness :
  caller_content_type (∅ : gmap jsstring jsstring) = None ∧
  caller_content_type (<[js "content-type" := js "text/csv"]> ∅)
    = Some (js "text/csv") ∧
  determineContentType
    {| content := Some [js "text/plain"; js "text/xml"; js "application/xml"] |} ∅
  = Some (js "application/xml") ∧
  determineContentType
    {| content := Some [js "text/plain"; js "image/png"] |} ∅
  = Some (js "text/plain") ∧
  determineContentType
    {| content := Some [js "multipart/form-data"; js "application/json"] |}
    (<[js "content-type" := js "text/csv"]> ∅)
  = Some (js "text/csv").
Proof.
  assert (caller_content_type (∅ : gmap jsstring jsstring) = None) as H0
    by (vm_compute; reflexivity).
  assert (caller_content_type (<[js "content-type" := js "text/csv"]> ∅)
          = Some (js "text/csv")) as H1 by (vm_compute; reflexivity).
  split; [exact H0|]. split; [exact H1|].
  split; [|split].
  - rewrite (proj1 (content_type_precedence _ ∅) H0). vm_compute. reflexivity.
  - rewrite (proj1 (content_type_precedence _ ∅) H0). vm_compute. reflexivity.
  - exact (proj1 (proj2 (content_type_precedence _ _)) _ H1).
Defined.

(** The selected type is also the header of the request that goes out. *)
Example content_type_in_request :
  ∀ body headers,
    process_body
      {| method := js "POST"; path := js "/upload";
         operation := {| operationId := None; op_parameters := None;
                         op_requestBody := None |};
         parameters := [];
         requestBody :=
           Some {| content := Some [js "multipart/form-data"; js "application/json"] |} |}
      [(js "body", JObj [(js "url", JStr (js "x"))])] ∅
    = Ok (body, headers) →
    headers !! js "Content-Type" = Some (js "application/json").
Proof.
  intros body headers. vm_compute. intros H. injection H as _ <-. reflexivity.
Qed.

(** ** Coercion of parameter values *)

Lemma processParameterValue_array param value :
  declared_type param "array" →
  processParameterValue param value =
    match value with
    | JArr _ => Ok value
    | JStr s =>
        match JSON_parse s with
        | Ok parsed => Ok parsed
        | Throw _ => Ok (JArr ((λ v, JStr (trim v)) <$> split_comma s))
        end
    | _ =>
        got ← ToString value;
        Throw (Error (js "Parameter " ++ param_name param ++
                      js " must be an array, got: " ++ got))
    end.
Proof.
  intros (schema & Hs & Ht). unfold processParameterValue.
  rewrite Hs, Ht. reflexivity.
Qed.

Lemma processParameterValue_numeric param value :
  declared_type param "integer" ∨ declared_type param "number" →
  processParameterValue param value =
    (num ← ToNumber value;
     if isNaN num then
       got ← ToString value;
       Throw (Error (js "Parameter " ++ param_name param ++
                     js " must be a valid number, got: " ++ got))
     else Ok (JNum num)).
Proof.
  intros [(schema & Hs & Ht)|(schema & Hs & Ht)]; unfold processParameterValue;
    rewrite Hs, Ht; reflexivity.
Qed.

(** C6: for a parameter whose declared type is array, an array value passes
    through unchanged; a string value is first parsed ([JSON.parse]), and
    when the parse fails it is split on commas, each token trimmed; the
    string a,b,c becomes the array ["a","b","c"]. *)
Theorem array_coercion param :
  declared_type param "array" →
  (∀ items, processParameterValue param (JArr items) = Ok (JArr items)) ∧
  (∀ s parsed, JSON_parse s = Ok parsed →
     processParameterValue param (JStr s) = Ok parsed) ∧
  (∀ s e, JSON_parse s = Throw e →
     processParameterValue param (JStr s)
     = Ok (JArr ((λ token, JStr (trim token)) <$> split_comma s))) ∧
  processParameterValue param (JStr (js "a,b,c"))
  = Ok (JArr [JStr (js "a"); JStr (js "b"); JStr (js "c")]).
Proof.
  intros Ht. split; [|split; [|split]].
  - intros items. by rewrite processParameterValue_array.
  - intros s parsed Hp. by rewrite processParameterValue_array, Hp.
  - intros s e Hp. by rewrite processParameterValue_array, Hp.
  - rewrite processParameterValue_array by done. vm_compute. reflexivity.
Qed.

Lemma array_coercion_witness :
  declared_type tags_param "array" ∧
  processParameterValue tags_param (JArr [JStr (js "x"); JNull])
  = Ok (JArr [JStr (js "x"); JNull]) ∧
  processParameterValue tags_param (JStr (js "[1, 2]"))
  = Ok (JArr [JNum (number_of_N 1); JNum (number_of_N 2)]) ∧
  processParameterValue tags_param (JStr (js " a , b,c "))
  = Ok (JArr [JStr (js "a"); JStr (js "b"); JStr (js "c")]).
Proof.
  assert (declared_type tags_param "array") as Ht
    by (eexists; split; reflexivity).
  pose proof (array_coercion tags_param Ht) as (H1 & H2 & H3 & _).
  split; [exact Ht|]. split; [apply H1|]. split.
  - apply H2. vm_compute. reflexivity.
  - rewrite (H3 _ SyntaxError) by (vm_compute; reflexivity).
    vm_compute. reflexivity.
Defined.

(** C9: for a parameter whose declared type is integer or number, the empty
    string and every string of white space only coerce to the number 0; no
    coercion error is raised. *)
Theorem blank_string_is_zero param s :
  declared_type param "integer" ∨ declared_type param "number" →
  Forall (λ c, is_whitespace c = true) s →
  processParameterValue param (JStr s) = Ok (JNum number_zero).
Proof.
  intros Ht Hs. rewrite processParameterValue_numeric by done.
  simpl. unfold StringToNumber. by rewrite trim_all_whitespace.
Qed.

Lemma blank_string_is_zero_witness :
  (declared_type page_param "integer" ∨ declared_type page_param "number") ∧
  Forall (λ c, is_whitespace c = true) [] ∧
  Forall (λ c, is_whitespace c = true) [32; 9; 10; 160] ∧
  processParameterValue page_param (JStr []) = Ok (JNum number_zero) ∧
  processParameterValue page_param (JStr [32; 9; 10; 160]) = Ok (JNum number_zero).
Proof.
  assert (declared_type page_param "integer" ∨ declared_type page_param "number")
    as Ht by (left; eexists; split; reflexivity).
  assert (Forall (λ c, is_whitespace c = true) [32; 9; 10; 160]) as Hws
    by (repeat constructor).
  split; [exact Ht|].
  split; [constructor|]. split; [exact Hws|]. split.
  - apply blank_string_is_zero; [exact Ht | constructor].
  - apply blank_string_is_zero; [exact Ht | exact Hws].
Defined.

(** C10: for a parameter whose declared type is array, a string that is
    valid JSON coerces to the value it denotes, an array or not: 123 gives
    the number 123 and true the boolean, so the coerced value of an
    array-typed parameter need not be an array. *)
Theorem array_coercion_keeps_scalars param :
  declared_type param "array" →
  (∀ s parsed, JSON_parse s = Ok parsed →
     processParameterValue param (JStr s) = Ok parsed) ∧
  processParameterValue param (JStr (js "123")) = Ok (JNum (number_of_N 123)) ∧
  processParameterValue param (JStr (js "true")) = Ok (JBool true) ∧
  (∃ s v, processParameterValue param (JStr s) = Ok v ∧ is_array v = false).
Proof.
  intros Ht.
  assert (∀ s parsed, JSON_parse s = Ok parsed →
            processParameterValue param (JStr s) = Ok parsed) as H.
  { intros s parsed Hp. by rewrite processParameterValue_array, Hp. }
  split; [exact H|].
  split; [apply H; vm_compute; reflexivity|].
  split; [apply H; vm_compute; reflexivity|].
  exists (js "123"), (JNum (number_of_N 123)).
  split; [apply H; vm_compute; reflexivity | reflexivity].
Qed.

Lemma array_coercion_keeps_scalars_witness :
  declared_type tags_param "array" ∧
  processParameterValue tags_param (JStr (js "123")) = Ok (JNum (number_of_N 123)) ∧
  processParameterValue tags_param (JStr (js " null ")) = Ok JNull.
Proof.
  assert (declared_type tags_param "array") as Ht
    by (eexists; split; reflexivity).
  pose proof (array_coercion_keeps_scalars tags_param Ht) as (H & H123 & _).
  split; [exact Ht|]. split; [exact H123|].
  apply H. vm_compute. reflexivity.
Defined.

(** ** Base URL *)

(** C7: [initialize] takes as base URL the explicit override when one is
    provided (a non-empty [baseUrl] option), else the URL of the first
    declared server; when there is neither, it throws the configuration
    error, before any operation is indexed: on a new client every later
    [executeOperation] fails, without a request. *)
Theorem base_url_resolution {Response}
    (send : AxiosRequestConfig → Exc Response) c doc :
  (∀ u, opt_baseUrl (options c) = Some u → u ≠ [] →
     baseUrl (initialize c doc).1 = Some u ∧ (initialize c doc).2 = Ok ()) ∧
  (truthy (opt_baseUrl (options c)) = false →
   ∀ s rest, servers doc = Some (s :: rest) →
     baseUrl (initialize c doc).1 = Some (url s) ∧ (initialize c doc).2 = Ok ()) ∧
  (truthy (opt_baseUrl (options c)) = false →
   default [] (servers doc) = [] →
     (initialize c doc).2 = Throw (Error no_server_message) ∧
     operations (initialize c doc).1 = operations c ∧
     baseUrl (initialize c doc).1 = baseUrl c ∧
     (operations c = ∅ →
      ∀ id args,
        executeOperation send (initialize c doc).1 id args
        = (Throw (Error (js "Operation " ++ id ++ js " not found")), []))).
Proof.
  split; [|split].
  - intros u Hu Hne. unfold initialize. rewrite Hu.
    destruct u as [|x u]; done.
  - intros Hno s rest Hs. unfold initialize, getBaseUrl. rewrite Hs.
    destruct (opt_baseUrl (options c)) as [[|x u]|]; done.
  - intros Hno Hs.
    assert (initialize c doc
            = ({| options := options c; common_headers := common_headers c;
                  schema := Some doc; operations := operations c;
                  baseUrl := baseUrl c |}, Throw (Error no_server_message))) as ->.
    { unfold initialize, getBaseUrl.
      destruct (opt_baseUrl (options c)) as [[|x u]|]; try discriminate Hno;
        destruct (servers doc) as [[|s rest]|]; try discriminate Hs; done. }
    simpl. repeat split.
    intros Hempty id args. unfold executeOperation, build_request. simpl.
    by rewrite Hempty, lookup_empty.
Qed.

Lemma base_url_resolution_witness :
  (opt_baseUrl {| opt_baseUrl := Some (js "http://localhost:8080") |}
     = Some (js "http://localhost:8080") ∧
   js "http://localhost:8080" ≠ [] ∧
   baseUrl (initialize
              (new_APIClient {| opt_baseUrl := Some (js "http://localhost:8080") |} ∅)
              items_document).1
   = Some (js "http://localhost:8080")) ∧
  (truthy (opt_baseUrl {| opt_baseUrl := None |}) = false ∧
   baseUrl (initialize (new_APIClient {| opt_baseUrl := None |} ∅)
              items_document).1
   = Some (js "https://api.example.com")) ∧
  (default [] (servers complex_path_document) = [] ∧
   (initialize (new_APIClient {| opt_baseUrl := None |} ∅)
      complex_path_document).2
   = Throw (Error no_server_message) ∧
   executeOperation no_reply
     (initialize (new_APIClient {| opt_baseUrl := None |} ∅)
        complex_path_document).1
     (js "get__api_v1_complex_path__id_") []
   = (Throw (Error (js "Operation get__api_v1_complex_path__id_ not found")), [])).
Proof.
  split; [|split].
  - assert (js "http://localhost:8080" ≠ []) as Hne by discriminate.
    split; [reflexivity|]. split; [exact Hne|].
    exact (proj1 (proj1 (base_url_resolution no_reply
                    (new_APIClient {| opt_baseUrl := Some (js "http://localhost:8080") |} ∅)
                    items_document) _ eq_refl Hne)).
  - split; [reflexivity|].
    exact (proj1 (proj1 (proj2 (base_url_resolution no_reply
                    (new_APIClient {| opt_baseUrl := None |} ∅) items_document))
                    eq_refl _ _ eq_refl)).
  - split; [reflexivity|].
    destruct (proj2 (proj2 (base_url_resolution no_reply
                (new_APIClient {| opt_baseUrl := None |} ∅) complex_path_document))
                eq_refl eq_refl) as (Hthrow & _ & _ & Hexec).
    split; [exact Hthrow|].
    rewrite (Hexec eq_refl). reflexivity.
Defined.

(** ** Schema resolution *)

Import SchemaResolver.

Lemma forallb_fmap_true {A B} (f : A → B) (P : B → bool) (l : list A) :
  (∀ x, P (f x) = true) → forallb P (f <$> l) = true.
Proof.
  intros H. induction l as [|x l IH]; [done|].
  rewrite fmap_cons. cbn [forallb]. by rewrite H, IH.
Qed.

Lemma foldr_max_fmap {A B} (f : A → B) (h : B → nat) (l : list A) (b : nat) :
  (∀ x, h (f x) ≤ b)%nat →
  (foldr (λ p acc, max (h p) acc) 0 (f <$> l) ≤ b)%nat.
Proof.
  intros H. induction l as [|x l IH]; [simpl; lia|].
  rewrite fmap_cons. cbn [foldr]. pose proof (H x). lia.
Qed.

Lemma placeholder_properties (properties : list (jsstring * SchemaNode)) :
  forallb (λ p, reference_free p.2) ((λ p, (p.1, placeholder)) <$> properties) = true.
Proof. induction properties as [|p l IH]; simpl; [done | exact IH]. Qed.

Lemma placeholder_properties_height (properties : list (jsstring * SchemaNode)) :
  (foldr (λ p h, max (height p.2) h) 0
     ((λ p, (p.1, placeholder)) <$> properties) ≤ 1)%nat.
Proof.
  induction properties as [|p l IH]; [simpl; lia|].
  rewrite fmap_cons. cbn [foldr snd].
  change (height placeholder) with 1%nat. lia.
Qed.

Lemma stub_reference_free target : reference_free (stub target) = true.
Proof.
  destruct target as [ty desc enum|properties required desc|items desc|keyword members desc|pointer]; simpl; try done.
  apply placeholder_properties.
Qed.

Lemma stub_height target : (height (stub target) ≤ 2)%nat.
Proof.
  destruct target as [ty desc enum|properties required desc|items desc|keyword members desc|pointer]; simpl; try lia.
  pose proof (placeholder_properties_height properties). lia.
Qed.

Lemma resolve_reference_free defs depth : ∀ pathStack schema,
  reference_free (resolve defs depth pathStack schema) = true.
Proof.
  induction depth as [|d IH]; intros pathStack schema.
  - destruct schema as [ty desc enum|properties required desc|items desc|keyword members desc|pointer]; simpl;
      try apply placeholder_properties; try done.
    destruct (defs !! pointer); [apply stub_reference_free | done].
  - destruct schema as [ty desc enum|properties required desc|items desc|keyword members desc|pointer]; simpl.
    + by destruct enum.
    + apply forallb_fmap_true. intros p. apply IH.
    + apply IH.
    + apply forallb_fmap_true. intros m. apply IH.
    + destruct (defs !! pointer); [|done].
      case_bool_decide; [apply stub_reference_free | apply IH].
Qed.

Lemma resolve_height defs depth : ∀ pathStack schema,
  (height (resolve defs depth pathStack schema) ≤ depth + 2)%nat.
Proof.
  induction depth as [|d IH]; intros pathStack schema.
  - destruct schema as [ty desc enum|properties required desc|items desc|keyword members desc|pointer]; simpl; try lia.
    + pose proof (placeholder_properties_height properties). lia.
    + destruct (defs !! pointer) as [t|]; simpl; [|lia].
      pose proof (stub_height t). lia.
  - destruct schema as [ty desc enum|properties required desc|items desc|keyword members desc|pointer]; simpl.
    + destruct enum; simpl; lia.
    + pose proof (foldr_max_fmap
                    (λ p : jsstring * SchemaNode, (p.1, resolve defs d pathStack p.2))
                    (λ p, height p.2) properties (d + 2)
                    (λ p, IH pathStack p.2)). lia.
    + pose proof (IH pathStack items). lia.
    + pose proof (foldr_max_fmap (resolve defs d pathStack) height members
                    (d + 2) (IH pathStack)). lia.
    + destruct (defs !! pointer) as [t|]; simpl; [|lia].
      case_bool_decide.
      * pose proof (stub_height t). lia.
      * pose proof (IH (pointer :: pathStack) t). lia.
Qed.

Lemma resolve_object_names defs depth pathStack properties required description :
  property_names
    (resolve defs depth pathStack (ObjectSchema properties required description))
  = properties.*1.
Proof.
  destruct depth; simpl; rewrite <- list_fmap_compose; reflexivity.
Qed.

Lemma resolve_reference_names defs depth pointer properties required description :
  defs !! pointer = Some (ObjectSchema properties required description) →
  property_names (resolve defs depth [] (Reference pointer)) = properties.*1.
Proof.
  intros H. destruct depth as [|d]; simpl; rewrite H.
  - simpl. by rewrite <- list_fmap_compose.
  - apply resolve_object_names.
Qed.

(** C5: resolution is a total function: on every table of named schemas,
    every path stack and every schema, self-referential and mutually
    referential tables included, it returns a tree that contains no
    reference and has at most [depth + 2] levels, [depth] being the
    recursion bound.  A reference to an object schema resolves to a schema
    with the object's property names; for the table in which Entity.parent
    refers to Entity these are id, parent, children, metadata. *)
Theorem resolve_terminates defs depth pathStack schema :
  reference_free (resolve defs depth pathStack schema) = true ∧
  (height (resolve defs depth pathStack schema) ≤ depth + 2)%nat ∧
  (∀ pointer properties required description,
     defs !! pointer = Some (ObjectSchema properties required description) →
     property_names (resolve defs depth [] (Reference pointer)) = properties.*1) ∧
  property_names (resolve entity_defs depth [] (Reference entity_ref))
  = [js "id"; js "parent"; js "children"; js "metadata"].
Proof.
  split; [apply resolve_reference_free|].
  split; [apply resolve_height|].
  split; [intros pointer properties required description;
          apply resolve_reference_names|].
  assert (entity_defs !! entity_ref = Some Entity) as H
    by (vm_compute; reflexivity).
  exact (resolve_reference_names entity_defs depth entity_ref _ _ _ H).
Qed.

Lemma resolve_terminates_witness :
  entity_defs !! entity_ref = Some Entity ∧
  property_names (resolve entity_defs 10 [] (Reference entity_ref))
  = [js "id"; js "parent"; js "children"; js "metadata"] ∧
  reference_free (resolve entity_defs 10 [] (Reference entity_ref)) = true ∧
  height (resolve entity_defs 10 [] (Reference entity_ref)) = 4%nat.
Proof.
  assert (entity_defs !! entity_ref = Some Entity) as H by (vm_compute; reflexivity).
  split; [exact H|]. split.
  - exact (proj1 (proj2 (proj2 (resolve_terminates entity_defs 10 [] (Reference entity_ref))))
             entity_ref _ _ _ H).
  - split; [|vm_compute; reflexivity].
    exact (proj1 (resolve_terminates entity_defs 10 [] (Reference entity_ref))).
Defined.

(** * Further properties *)

(** ** Coercion by declared type *)

Lemma processParameterValue_boolean param value :
  declared_type param "boolean" →
  processParameterValue param value =
    match value with
    | JBool _ => Ok value
    | JStr s =>
        if str_eqb (toLowerCase s) (js "true") then Ok (JBool true)
        else if str_eqb (toLowerCase s) (js "false") then Ok (JBool false)
        else Throw (Error (js "Parameter " ++ param_name param ++
                           js " must be a boolean, got: " ++ s))
    | _ =>
        got ← ToString value;
        Throw (Error (js "Parameter " ++ param_name param ++
                      js " must be a boolean, got: " ++ got))
    end.
Proof.
  intros (schema & Hs & Ht). unfold processParameterValue.
  rewrite Hs, Ht. destruct value; reflexivity.
Qed.

Lemma processParameterValue_other param value :
  other_type param →
  processParameterValue param value = (s ← ToString value; Ok (JStr s)).
Proof.
  intros (schema & Hs & H1 & H2 & H3 & H4). unfold processParameterValue.
  rewrite Hs.
  assert (∀ t, default [] (schema_type schema) ≠ t →
               str_eqb (default [] (schema_type schema)) t = false) as Hne.
  { intros t Ht. unfold str_eqb. by apply bool_decide_eq_false_2. }
  by rewrite (Hne _ H1), (Hne _ H2), (Hne _ H3), (Hne _ H4).
Qed.

(** X1: a value coerced for a parameter of type integer or number is a
    number that is not NaN; what [Number] maps to NaN is rejected with an
    error that names the parameter and the value. *)
Theorem numeric_coercion_never_NaN param value :
  declared_type param "integer" ∨ declared_type param "number" →
  (∀ r, processParameterValue param value = Ok r →
        ∃ n, r = JNum n ∧ isNaN n = false ∧ ToNumber value = Ok n) ∧
  (∀ got, ToNumber value = Ok NaN → ToString value = Ok got →
        processParameterValue param value
        = Throw (Error (js "Parameter " ++ param_name param ++
                        js " must be a valid number, got: " ++ got))).
Proof.
  intros Ht. rewrite processParameterValue_numeric by done. split.
  - intros r. destruct (ToNumber value) as [n|e]; simpl; [|discriminate].
    destruct (isNaN n) eqn:Hn.
    + destruct (ToString value); discriminate.
    + intros [= <-]. by exists n.
  - intros got Hn Hs. by rewrite Hn; simpl; rewrite Hs.
Qed.

Lemma numeric_coercion_never_NaN_witness :
  (declared_type page_param "integer" ∨ declared_type page_param "number") ∧
  processParameterValue page_param (JStr (js "0x1F")) = Ok (JNum (number_of_N 31)) ∧
  ToNumber (JStr (js "12abc")) = Ok NaN ∧
  processParameterValue page_param (JStr (js "12abc"))
  = Throw (Error (js "Parameter page must be a valid number, got: 12abc")).
Proof.
  assert (declared_type page_param "integer" ∨ declared_type page_param "number")
    as Ht by (left; eexists; split; reflexivity).
  split; [exact Ht|].
  destruct (numeric_coercion_never_NaN page_param (JStr (js "12abc")) Ht)
    as [_ H].
  split; [vm_compute; reflexivity|]. split; [vm_compute; reflexivity|].
  apply H; vm_compute; reflexivity.
Defined.

(** X2: the types integer and number are coerced alike: nothing checks that
    the value of an integer parameter is integral, so 1.5 is accepted. *)
Theorem integer_coerced_as_number p q value :
  declared_type p "integer" → declared_type q "number" →
  param_name p = param_name q →
  processParameterValue p value = processParameterValue q value.
Proof.
  intros Hp Hq Hn.
  rewrite (processParameterValue_numeric p) by (by left).
  rewrite (processParameterValue_numeric q) by (by right).
  by rewrite Hn.
Qed.

Lemma integer_coerced_as_number_witness :
  declared_type page_param "integer" ∧ declared_type ratio_param "number" ∧
  param_name page_param = param_name ratio_param ∧
  processParameterValue page_param (JStr (js "1.5")) = Ok (JNum (Finite false [1; 5] (-1))).
Proof.
  assert (declared_type page_param "integer") as Hp by (eexists; split; reflexivity).
  assert (declared_type ratio_param "number") as Hq by (eexists; split; reflexivity).
  split; [exact Hp|]. split; [exact Hq|]. split; [reflexivity|].
  rewrite (integer_coerced_as_number page_param ratio_param _ Hp Hq eq_refl).
  vm_compute. reflexivity.
Defined.

(** X3: for a parameter of type boolean, a boolean passes through, a string
    passes when its lower case is true or false and gives that boolean, and
    every other value is rejected: [null], numbers (0 and 1 included),
    arrays and objects.  The error names the parameter and the string form
    of the value; a value without string form, such as an object with a
    property [toString] of its own, is rejected by the [TypeError] of the
    conversion instead.  A coerced value is always a boolean. *)
Theorem boolean_coercion param :
  declared_type param "boolean" →
  (∀ b, processParameterValue param (JBool b) = Ok (JBool b)) ∧
  (∀ s, toLowerCase s = js "true" →
        processParameterValue param (JStr s) = Ok (JBool true)) ∧
  (∀ s, toLowerCase s = js "false" →
        processParameterValue param (JStr s) = Ok (JBool false)) ∧
  (∀ s, toLowerCase s ≠ js "true" → toLowerCase s ≠ js "false" →
        processParameterValue param (JStr s)
        = Throw (Error (js "Parameter " ++ param_name param ++
                        js " must be a boolean, got: " ++ s))) ∧
  (∀ value,
     match value with
     | JBool _ | JStr _ => True
     | _ =>
         (∀ got, ToString value = Ok got →
            processParameterValue param value
            = Throw (Error (js "Parameter " ++ param_name param ++
                            js " must be a boolean, got: " ++ got))) ∧
         (∀ e, ToString value = Throw e →
            processParameterValue param value = Throw e)
     end) ∧
  processParameterValue param JNull
  = Throw (Error (js "Parameter " ++ param_name param ++
                  js " must be a boolean, got: null")) ∧
  (∀ n, processParameterValue param (JNum n)
        = Throw (Error (js "Parameter " ++ param_name param ++
                        js " must be a boolean, got: " ++ Number_toString n))) ∧
  (∀ props, has_own (js "toString") props = false →
        processParameterValue param (JObj props)
        = Throw (Error (js "Parameter " ++ param_name param ++
                        js " must be a boolean, got: [object Object]"))) ∧
  (∀ props, has_own (js "toString") props = true →
        processParameterValue param (JObj props) = Throw TypeError) ∧
  (∀ value r, processParameterValue param value = Ok r → ∃ b, r = JBool b).
Proof.
  intros Ht.
  assert (∀ a b : jsstring, a ≠ b → str_eqb a b = false) as Hne.
  { intros a b H. unfold str_eqb. by apply bool_decide_eq_false_2. }
  assert (∀ value,
     match value with
     | JBool _ | JStr _ => True
     | _ =>
         (∀ got, ToString value = Ok got →
            processParameterValue param value
            = Throw (Error (js "Parameter " ++ param_name param ++
                            js " must be a boolean, got: " ++ got))) ∧
         (∀ e, ToString value = Throw e →
            processParameterValue param value = Throw e)
     end) as Hother.
  { intros value. rewrite processParameterValue_boolean by done.
    destruct value; try done; split; intros x Hx; by rewrite Hx. }
  split; [|split; [|split; [|split; [|split; [|split; [|split; [|split; [|split]]]]]]]].
  - intros b. by rewrite processParameterValue_boolean.
  - intros s Hs. rewrite processParameterValue_boolean by done.
    by rewrite Hs.
  - intros s Hs. rewrite processParameterValue_boolean by done.
    by rewrite Hs.
  - intros s H1 H2. rewrite processParameterValue_boolean by done.
    by rewrite (Hne _ _ H1), (Hne _ _ H2).
  - exact Hother.
  - exact (proj1 (Hother JNull) _ eq_refl).
  - intros n. exact (proj1 (Hother (JNum n)) _ eq_refl).
  - intros props Hp. apply (proj1 (Hother (JObj props))). simpl. by rewrite Hp.
  - intros props Hp. apply (proj2 (Hother (JObj props))). simpl. by rewrite Hp.
  - intros value r. rewrite processParameterValue_boolean by done.
    destruct value as [|b|n|s|items|props]; simpl.
    + discriminate.
    + intros [= <-]. by exists b.
    + discriminate.
    + destruct (str_eqb _ _); [intros [= <-]; by eexists|].
      destruct (str_eqb _ _); [intros [= <-]; by eexists|]. discriminate.
    + destruct ((fix join_items (l : list JsValue) : Exc jsstring := _) items);
        discriminate.
    + destruct (has_own _ _); discriminate.
Qed.

Lemma boolean_coercion_witness :
  declared_type flag_param "boolean" ∧
  toLowerCase (js "TrUe") = js "true" ∧
  processParameterValue flag_param (JStr (js "TrUe")) = Ok (JBool true) ∧
  toLowerCase (js "yes") ≠ js "true" ∧ toLowerCase (js "yes") ≠ js "false" ∧
  processParameterValue flag_param (JStr (js "yes"))
  = Throw (Error (js "Parameter active must be a boolean, got: yes")) ∧
  processParameterValue flag_param (JNum (number_of_N 1))
  = Throw (Error (js "Parameter active must be a boolean, got: 1")) ∧
  ToString (JArr [JBool true; JNull; JObj []]) = Ok (js "true,,[object Object]") ∧
  processParameterValue flag_param (JArr [JBool true; JNull; JObj []])
  = Throw (Error (js "Parameter active must be a boolean, got: true,,[object Object]")) ∧
  has_own (js "toString") [(js "toString", JBool true)] = true ∧
  processParameterValue flag_param (JObj [(js "toString", JBool true)])
  = Throw TypeError.
Proof.
  assert (declared_type flag_param "boolean") as Ht by (eexists; split; reflexivity).
  assert (toLowerCase (js "TrUe") = js "true") as H1 by reflexivity.
  assert (toLowerCase (js "yes") ≠ js "true") as H2 by discriminate.
  assert (toLowerCase (js "yes") ≠ js "false") as H3 by discriminate.
  assert (ToString (JArr [JBool true; JNull; JObj []])
          = Ok (js "true,,[object Object]")) as H4 by (vm_compute; reflexivity).
  destruct (boolean_coercion flag_param Ht)
    as (_ & Ha & _ & Hb & Hother & _ & Hc & _ & Hd & _).
  split; [exact Ht|]. split; [exact H1|]. split; [exact (Ha _ H1)|].
  split; [exact H2|]. split; [exact H3|]. split; [exact (Hb _ H2 H3)|].
  split; [rewrite Hc; vm_compute; reflexivity|].
  split; [exact H4|].
  split; [exact (proj1 (Hother (JArr [JBool true; JNull; JObj []])) _ H4)|].
  split; [reflexivity|].
  exact (Hd [(js "toString", JBool true)] eq_refl).
Defined.

Lemma drop_ws_head (s : jsstring) c :
  head (drop_ws s) = Some c → is_whitespace c = false.
Proof.
  induction s as [|x s IH]; simpl; [discriminate|].
  destruct (is_whitespace x) eqn:Hx; [exact IH|].
  simpl. by intros [= <-].
Qed.

Lemma drop_ws_snoc (l : jsstring) c :
  is_whitespace c = false → drop_ws (l ++ [c]) = drop_ws l ++ [c].
Proof.
  intros Hc. induction l as [|x l IH]; simpl; [by rewrite Hc|].
  by destruct (is_whitespace x).
Qed.

Lemma trim_no_outer_whitespace (s : jsstring) : no_outer_whitespace (trim s).
Proof.
  unfold trim. split.
  - destruct (drop_ws s) as [|h t] eqn:E.
    + simpl. discriminate.
    + assert (is_whitespace h = false) as Hh.
      { apply (drop_ws_head s). by rewrite E. }
      rewrite reverse_cons, (drop_ws_snoc _ _ Hh), reverse_snoc. simpl.
      by intros c [= <-].
  - intros c. rewrite last_reverse. apply drop_ws_head.
Qed.

Lemma split_comma_length (s : jsstring) : length (split_comma s) = S (commas s).
Proof.
  unfold commas. induction s as [|c r IH]; simpl; [done|].
  destruct (N.eqb_spec c 44) as [->|Hc].
  - rewrite filter_cons_True by done. simpl. by rewrite IH.
  - rewrite filter_cons_False by done.
    destruct (split_comma r) as [|p ps]; [discriminate IH | exact IH].
Qed.

Lemma join_split_comma (s : jsstring) : join (js ",") (split_comma s) = s.
Proof.
  induction s as [|c r IH]; [done|].
  pose proof (split_comma_length r) as Hl.
  cbn [split_comma]. destruct (N.eqb_spec c 44) as [->|Hc].
  - destruct (split_comma r) as [|p ps]; [discriminate Hl|].
    change (join (js ",") ([] :: p :: ps)) with (44 :: join (js ",") (p :: ps)).
    by rewrite IH.
  - destruct (split_comma r) as [|p ps]; [discriminate Hl|].
    rewrite <- IH. by destruct ps.
Qed.

Lemma split_comma_no_comma (s : jsstring) : Forall (λ p, 44 ∉ p) (split_comma s).
Proof.
  induction s as [|c r IH]; simpl.
  - constructor; [apply not_elem_of_nil | constructor].
  - destruct (N.eqb_spec c 44) as [->|Hc].
    + constructor; [apply not_elem_of_nil | exact IH].
    + destruct (split_comma r) as [|p ps].
      * constructor; [|constructor]. intros H.
        apply list_elem_of_singleton in H. by destruct Hc.
      * apply Forall_cons in IH as [Hp Hps]. constructor; [|exact Hps].
        apply not_elem_of_cons. split; [by intros <- | exact Hp].
Qed.

Lemma drop_ws_spec (s : jsstring) :
  ∃ a, s = a ++ drop_ws s ∧ Forall (λ c, is_whitespace c = true) a.
Proof.
  induction s as [|c r (a & E & Ha)]; simpl.
  - by exists [].
  - destruct (is_whitespace c) eqn:Hc.
    + exists (c :: a). split; [simpl; by rewrite <- E | by constructor].
    + by exists [].
Qed.

Lemma trim_trimmed_of (s : jsstring) : trimmed_of s (trim s).
Proof.
  destruct (drop_ws_spec s) as (a & Ea & Ha).
  destruct (drop_ws_spec (reverse (drop_ws s))) as (b & Eb & Hb).
  exists a, (reverse b). split; [|split; [exact Ha|split]].
  - unfold trim. rewrite <- reverse_app, <- Eb, reverse_involutive. exact Ea.
  - by apply Forall_reverse.
  - apply trim_no_outer_whitespace.
Qed.

(** X4: for a parameter of type array, a string never fails to coerce.
    When it is not JSON it becomes the array of its comma-separated tokens:
    the pieces without comma that, joined by commas, give the string back
    (one more than it has commas), each with the white space at its two
    ends removed; a token may be empty.  Every value that is neither an
    array nor a string is rejected, with an error that names the parameter
    and the string form of the value, or with the error of the string
    conversion when the value has none. *)
Theorem array_coercion_of_strings param :
  declared_type param "array" →
  (∀ s, ∃ r, processParameterValue param (JStr s) = Ok r) ∧
  (∀ s e, JSON_parse s = Throw e →
     ∃ pieces tokens,
       join (js ",") pieces = s ∧
       Forall (λ piece, 44 ∉ piece) pieces ∧
       length pieces = S (commas s) ∧
       Forall2 trimmed_of pieces tokens ∧
       processParameterValue param (JStr s) = Ok (JArr (JStr <$> tokens))) ∧
  (∀ value,
     match value with
     | JArr _ | JStr _ => True
     | _ =>
         (∀ got, ToString value = Ok got →
            processParameterValue param value
            = Throw (Error (js "Parameter " ++ param_name param ++
                            js " must be an array, got: " ++ got))) ∧
         (∀ e, ToString value = Throw e →
            processParameterValue param value = Throw e)
     end).
Proof.
  intros Ht. split; [|split].
  - intros s. rewrite processParameterValue_array by done.
    destruct (JSON_parse s); eauto.
  - intros s e Hp. exists (split_comma s), (trim <$> split_comma s).
    split; [apply join_split_comma|].
    split; [apply split_comma_no_comma|].
    split; [apply split_comma_length|].
    split.
    + apply Forall2_fmap_r, Forall_Forall2_diag, Forall_forall.
      intros x _. apply trim_trimmed_of.
    + rewrite processParameterValue_array, Hp by done.
      by rewrite <- list_fmap_compose.
  - intros value. destruct value; try done; split; intros x Hx;
      rewrite processParameterValue_array by done; by rewrite Hx.
Qed.

Lemma array_coercion_of_strings_witness :
  declared_type tags_param "array" ∧
  JSON_parse (js " red ,, blue") = Throw SyntaxError ∧
  (∃ pieces tokens,
     join (js ",") pieces = js " red ,, blue" ∧
     Forall (λ piece, 44 ∉ piece) pieces ∧
     length pieces = 3%nat ∧
     Forall2 trimmed_of pieces tokens ∧
     processParameterValue tags_param (JStr (js " red ,, blue"))
     = Ok (JArr (JStr <$> tokens))) ∧
  processParameterValue tags_param (JStr (js " red ,, blue"))
  = Ok (JArr [JStr (js "red"); JStr (js ""); JStr (js "blue")]) ∧
  processParameterValue tags_param (JNum (number_of_N 7))
  = Throw (Error (js "Parameter tags must be an array, got: 7")).
Proof.
  assert (declared_type tags_param "array") as Ht by (eexists; split; reflexivity).
  assert (JSON_parse (js " red ,, blue") = Throw SyntaxError) as Hp
    by (vm_compute; reflexivity).
  destruct (array_coercion_of_strings tags_param Ht) as (_ & H & Hrej).
  split; [exact Ht|]. split; [exact Hp|]. split; [|split].
  - destruct (H _ _ Hp) as (pieces & tokens & J & C & L & F & E).
    exists pieces, tokens. split; [exact J|]. split; [exact C|].
    split; [exact L|]. split; [exact F | exact E].
  - vm_compute. reflexivity.
  - apply (proj1 (Hrej (JNum (number_of_N 7)))). vm_compute. reflexivity.
Defined.

(** X5: for a parameter whose schema has any other type (string, object, an
    unknown or absent type), the coerced value is the string form of the
    value: a number becomes its decimal text, and an object, whatever it
    holds, becomes the text [[object Object]]. *)
Theorem other_types_stringified param :
  other_type param →
  (∀ value r, processParameterValue param value = Ok r →
     ∃ s, r = JStr s ∧ ToString value = Ok s) ∧
  (∀ n, processParameterValue param (JNum n) = Ok (JStr (Number_toString n))) ∧
  (∀ props, has_own (js "toString") props = false →
     processParameterValue param (JObj props) = Ok (JStr (js "[object Object]"))).
Proof.
  intros Ht. split; [|split].
  - intros value r. rewrite processParameterValue_other by done.
    destruct (ToString value) as [s|e]; simpl; [|discriminate].
    intros [= <-]. by exists s.
  - intros n. by rewrite processParameterValue_other.
  - intros props Hp. rewrite processParameterValue_other by done.
    simpl. by rewrite Hp.
Qed.

Lemma other_types_stringified_witness :
  other_type string_param ∧
  has_own (js "toString") [(js "name", JStr (js "x")); (js "n", JNum (number_of_N 3))]
    = false ∧
  processParameterValue string_param
    (JObj [(js "name", JStr (js "x")); (js "n", JNum (number_of_N 3))])
  = Ok (JStr (js "[object Object]")) ∧
  processParameterValue string_param (JNum (Finite false [2; 5] (-1)))
  = Ok (JStr (js "2.5")).
Proof.
  assert (other_type string_param) as Ht.
  { eexists. split; [reflexivity|]. repeat split; discriminate. }
  destruct (other_types_stringified string_param Ht) as (_ & Hn & Ho).
  split; [exact Ht|]. split; [reflexivity|]. split; [by apply Ho|].
  rewrite Hn. vm_compute. reflexivity.
Defined.

(** ** The index and the document *)

Lemma set_all_lookup_Some ops entries k v :
  set_all ops entries !! k = Some v → (k, v) ∈ entries ∨ ops !! k = Some v.
Proof.
  generalize dependent ops.
  induction entries as [|e l IH]; intros ops; simpl; [by right|].
  intros H. destruct (IH _ H) as [Hin|Hl].
  - left. by apply list_elem_of_further.
  - destruct (decide (e.1 = k)) as [<-|Hne].
    + rewrite lookup_insert_eq in Hl. injection Hl as <-.
      left. destruct e. apply list_elem_of_here.
    + rewrite lookup_insert_ne in Hl by done. by right.
Qed.

Lemma document_operations_inv doc k info :
  (k, info) ∈ document_operations doc →
  ∃ pathKey item m op,
    (pathKey, Some item) ∈ paths doc ∧ m ∈ methods ∧
    item_method item m = Some op ∧
    k = operation_id m pathKey op ∧ info = operation_info m pathKey item op.
Proof.
  unfold document_operations. intros H.
  apply list_elem_of_bind in H as ([pathKey [item|]] & Hin & Hp).
  - unfold path_operations in Hin. cbn -[methods omap] in Hin.
    apply list_elem_of_omap in Hin as (m & Hm & Hop).
    destruct (item_method item m) as [op|] eqn:E; [|discriminate].
    injection Hop as <- <-. by exists pathKey, item, m, op.
  - by apply elem_of_nil in Hin.
Qed.

(** X6: every entry of the index built from a document stems from an
    operation that the document holds under one of the seven verbs: it is
    stored under that operation's identifier, with the verb in upper case,
    the path key, the request body, and as parameters those of the path item
    followed by those of the operation, all of them kept. *)
Theorem indexed_entries_from_document doc k info :
  parseOperations doc ∅ !! k = Some info →
  ∃ pathKey item m op,
    (pathKey, Some item) ∈ paths doc ∧ m ∈ methods ∧
    item_method item m = Some op ∧
    k = operation_id m pathKey op ∧
    method info = toUpperCase m ∧
    path info = pathKey ∧
    parameters info
      = default [] (item_parameters item) ++ default [] (op_parameters op) ∧
    requestBody info = op_requestBody op.
Proof.
  rewrite parseOperations_set_all. intros H.
  apply set_all_lookup_Some in H as [H|H]; [|by rewrite lookup_empty in H].
  apply document_operations_inv in H as (pathKey & item & m & op & ? & ? & ? & -> & ->).
  by exists pathKey, item, m, op.
Qed.

Lemma indexed_entries_from_document_witness :
  parseOperations items_document ∅ !! js "getItem" = Some get_item_info ∧
  ∃ pathKey item m op,
    (pathKey, Some item) ∈ paths items_document ∧ m ∈ methods ∧
    item_method item m = Some op ∧
    js "getItem" = operation_id m pathKey op ∧
    method get_item_info = toUpperCase m ∧
    path get_item_info = pathKey ∧
    parameters get_item_info
      = default [] (item_parameters item) ++ default [] (op_parameters op) ∧
    requestBody get_item_info = op_requestBody op.
Proof.
  assert (parseOperations items_document ∅ !! js "getItem" = Some get_item_info)
    as H by (vm_compute; reflexivity).
  split; [exact H|].
  exact (indexed_entries_from_document items_document _ _ H).
Defined.

(** X7: when the identifiers of the operations of a document are pairwise
    distinct, the index gives back every operation under its identifier,
    and has as many entries as the document has operations. *)
Theorem distinct_identifiers_all_indexed doc :
  NoDup (document_operations doc).*1 →
  (∀ pathKey item m op,
     (pathKey, Some item) ∈ paths doc → m ∈ methods →
     item_method item m = Some op →
     parseOperations doc ∅ !! operation_id m pathKey op
     = Some (operation_info m pathKey item op)) ∧
  size (parseOperations doc ∅) = length (document_operations doc).
Proof.
  intros Hnd. split.
  - intros pathKey item m op Hp Hm Hop.
    pose proof (document_operations_elem doc _ _ _ _ Hp Hm Hop) as Hin.
    apply list_elem_of_split in Hin as (l1 & l2 & E).
    rewrite parseOperations_set_all, E.
    apply (set_all_lookup_last ∅ l1 (_, _) l2).
    rewrite E, fmap_app, fmap_cons in Hnd.
    apply NoDup_app in Hnd as (_ & _ & Hnd).
    by apply NoDup_cons in Hnd as [? _].
  - rewrite parseOperations_set_all.
    rewrite <- (size_dom (D := gset jsstring)), set_all_dom, dom_empty_L,
      (left_id_L ∅ (∪)).
    by rewrite size_list_to_set, length_fmap.
Qed.

Lemma distinct_identifiers_all_indexed_witness :
  (document_operations catalog_document).*1
  = [js "getItem"; js "delete__items__id_"; js "createItem"] ∧
  NoDup (document_operations catalog_document).*1 ∧
  parseOperations catalog_document ∅ !! js "getItem"
  = Some (operation_info (js "get") (js "/items/{id}") catalog_item get_item) ∧
  parseOperations catalog_document ∅ !! js "delete__items__id_"
  = Some (operation_info (js "delete") (js "/items/{id}") catalog_item unnamed_get) ∧
  parseOperations catalog_document ∅ !! js "createItem"
  = Some (operation_info (js "post") (js "/items") catalog_collection create_item) ∧
  size (parseOperations catalog_document ∅) = 3%nat.
Proof.
  assert ((document_operations catalog_document).*1
          = [js "getItem"; js "delete__items__id_"; js "createItem"]) as Hids
    by (vm_compute; reflexivity).
  assert (NoDup (document_operations catalog_document).*1) as Hnd.
  { rewrite Hids. apply (bool_decide_unpack _). vm_compute. exact I. }
  destruct (distinct_identifiers_all_indexed catalog_document Hnd) as [H Hs].
  split; [exact Hids|]. split; [exact Hnd|].
  split; [|split; [|split; [|exact Hs]]].
  - apply (H (js "/items/{id}") catalog_item (js "get") get_item).
    + apply list_elem_of_here.
    + apply list_elem_of_here.
    + reflexivity.
  - apply (H (js "/items/{id}") catalog_item (js "delete") unnamed_get).
    + apply list_elem_of_here.
    + do 4 apply list_elem_of_further. apply list_elem_of_here.
    + reflexivity.
  - apply (H (js "/items") catalog_collection (js "post") create_item).
    + apply list_elem_of_further, list_elem_of_here.
    + apply list_elem_of_further, list_elem_of_here.
    + reflexivity.
Defined.

Lemma initialize_cases c doc :
  ((initialize c doc).2 = Ok () ∧
   operations (initialize c doc).1 = parseOperations doc (operations c)) ∨
  (∃ e, (initialize c doc).2 = Throw e ∧
        operations (initialize c doc).1 = operations c).
Proof.
  unfold initialize.
  destruct (opt_baseUrl (options c)) as [[|x u]|]; simpl;
    try (by left); destruct (getBaseUrl doc); simpl; eauto.
Qed.

(** X8: [initialize] never removes an operation from the index: an
    identifier that was indexed before stays indexed, and when the call
    succeeds the identifiers that the new document does not use keep their
    old operation.  A client initialised a second time still serves the
    operations of the first document. *)
Theorem initialize_keeps_operations c doc :
  (∀ k, is_Some (operations c !! k) →
        is_Some (operations (initialize c doc).1 !! k)) ∧
  (∀ k, k ∉ (document_operations doc).*1 →
        operations (initialize c doc).1 !! k = operations c !! k).
Proof.
  destruct (initialize_cases c doc) as [[_ ->]|(e & _ & ->)]; [|done].
  rewrite parseOperations_set_all. split.
  - intros k Hk. apply elem_of_dom. rewrite set_all_dom.
    by apply elem_of_union_l, elem_of_dom.
  - intros k Hk. by apply set_all_lookup_notin.
Qed.

Lemma initialize_keeps_operations_witness :
  is_Some (operations items_client !! js "getItem") ∧
  (js "getItem" ∉ (document_operations duplicate_document).*1) ∧
  operations (initialize items_client duplicate_document).1 !! js "getItem"
  = Some get_item_info ∧
  is_Some (operations (initialize items_client duplicate_document).1 !! js "list").
Proof.
  assert (is_Some (operations items_client !! js "getItem")) as H1
    by (vm_compute; eauto).
  assert (js "getItem" ∉ (document_operations duplicate_document).*1) as H2.
  { vm_compute. intros H. repeat (apply elem_of_cons in H as [H|H]; [discriminate H|]).
    by apply elem_of_nil in H. }
  destruct (initialize_keeps_operations items_client duplicate_document) as [_ H].
  split; [exact H1|]. split; [exact H2|]. split.
  - rewrite (H _ H2). vm_compute. reflexivity.
  - vm_compute. eauto.
Defined.

(** ** What one turn of the parameter loop does *)

Lemma lookup_assign_Some {A} (name : jsstring) (v w : A) (obj : gmap jsstring A)
    (k : jsstring) :
  assign name v obj !! k = Some w →
  (name = k ∧ k ≠ js "__proto__" ∧ w = v) ∨ obj !! k = Some w.
Proof.
  unfold assign, str_eqb. destruct (bool_decide_reflect (name = js "__proto__")) as [E|E];
    [by right|].
  destruct (decide (name = k)) as [<-|Hne].
  - rewrite lookup_insert_eq. intros [= <-]. by left.
  - rewrite lookup_insert_ne by done. by right.
Qed.

Lemma lookup_assign_eq {A} (name : jsstring) (v : A) (obj : gmap jsstring A) :
  name ≠ js "__proto__" → assign name v obj !! name = Some v.
Proof.
  intros H. unfold assign, str_eqb. rewrite bool_decide_eq_false_2 by done.
  apply lookup_insert_eq.
Qed.

Lemma lookup_assign_is_Some {A} (name : jsstring) (v : A) (obj : gmap jsstring A)
    (k : jsstring) :
  is_Some (obj !! k) → is_Some (assign name v obj !! k).
Proof.
  unfold assign. destruct (str_eqb _ _); [done|]. intros H.
  destruct (decide (name = k)) as [->|Hne].
  - rewrite lookup_insert_eq. eauto.
  - by rewrite lookup_insert_ne.
Qed.

Lemma not_inherited_proto :
  get_prop (js "__proto__") Object_prototype_functions = None.
Proof. vm_compute. reflexivity. Qed.

Lemma supplied_own args p v :
  get_prop (param_name p) args = Some v →
  supplied args p = match v with JNull => None | _ => Some (Json v) end.
Proof.
  intros H. unfold supplied, read_property. rewrite H. by destruct v.
Qed.

Lemma supplied_inherited args p f :
  get_prop (param_name p) args = None →
  get_prop (param_name p) Object_prototype_functions = Some f →
  supplied args p = Some (Native f).
Proof.
  intros H Hf. unfold supplied, read_property, str_eqb. rewrite H.
  destruct (bool_decide_reflect (param_name p = js "__proto__")) as [E|E].
  - rewrite E, not_inherited_proto in Hf. discriminate Hf.
  - by rewrite Hf.
Qed.

Lemma supplied_absent args p :
  get_prop (param_name p) args = None →
  get_prop (param_name p) Object_prototype_functions = None →
  param_name p ≠ js "__proto__" →
  supplied args p = None.
Proof.
  intros H Hf Hp. unfold supplied, read_property, str_eqb. rewrite H.
  rewrite bool_decide_eq_false_2 by done. by rewrite Hf.
Qed.

Lemma process_parameter_Ok args st p st' :
  process_parameter args st p = Ok st' →
  match supplied args p with
  | None =>
      st_url st' = st_url st ∧ queryParams st' = queryParams st ∧
      st_headers st' = st_headers st
  | Some v =>
      ∃ r, process_argument p v = Ok r ∧
        if str_eqb (param_in p) (js "path") then
          (∃ s enc, Value_ToString r = Ok s ∧ encodeURIComponent s = Ok enc ∧
             st_url st' = replace_first (path_placeholder p) enc (st_url st)) ∧
          queryParams st' = queryParams st ∧ st_headers st' = st_headers st
        else if str_eqb (param_in p) (js "query") then
          st_url st' = st_url st ∧
          queryParams st' = assign (param_name p) r (queryParams st) ∧
          st_headers st' = st_headers st
        else if str_eqb (param_in p) (js "header") then
          st_url st' = st_url st ∧ queryParams st' = queryParams st ∧
          ∃ s, Value_ToString r = Ok s ∧
               st_headers st' = assign (param_name p) s (st_headers st)
        else
          st_url st' = st_url st ∧ queryParams st' = queryParams st ∧
          st_headers st' = st_headers st
  end.
Proof.
  unfold process_parameter. destruct (supplied args p) as [v|].
  - destruct (process_argument p v) as [r|e]; simpl; [|discriminate].
    intros H. exists r. split; [done|].
    destruct (str_eqb (param_in p) (js "path")).
    { destruct (Value_ToString r) as [s|] eqn:Es; simpl in H; [|discriminate].
      destruct (encodeURIComponent s) as [enc|] eqn:Ee; simpl in H; [|discriminate].
      injection H as <-. simpl. split; [by exists s, enc | done]. }
    destruct (str_eqb (param_in p) (js "query")).
    { injection H as <-. done. }
    destruct (str_eqb (param_in p) (js "header")).
    { destruct (Value_ToString r) as [s|] eqn:Es; simpl in H; [|discriminate].
      injection H as <-. simpl. split; [done|]. split; [done | by exists s]. }
    injection H as <-. done.
  - destruct (param_required p); intros [= <-]; done.
Qed.

Lemma build_request_Ok c id info args cfg :
  operations c !! id = Some info →
  build_request c id args = Ok cfg →
  ∃ st body headers,
    process_parameters args (initial_state c info) (parameters info) = Ok st ∧
    missingRequiredParams st = [] ∧
    process_body info args (st_headers st) = Ok (body, headers) ∧
    cfg = {| cfg_method := method info; cfg_url := st_url st;
             cfg_params := queryParams st;
             cfg_headers := headers ∪ common_headers c;
             cfg_data := body |}.
Proof.
  intros Hop. unfold build_request. rewrite Hop.
  fold (initial_state c info).
  destruct (process_parameters args (initial_state c info) (parameters info))
    as [st|e]; simpl; [|discriminate].
  destruct (missingRequiredParams st) eqn:Hm; [|discriminate].
  destruct (process_body info args (st_headers st)) as [[body headers]|e] eqn:Eb;
    simpl; [|discriminate].
  intros [= <-]. by exists st, body, headers.
Qed.

(** ** Query parameters *)

Lemma process_parameters_query args params : ∀ st st',
  process_parameters args st params = Ok st' →
  (∀ k r, queryParams st' !! k = Some r →
     queryParams st !! k = Some r ∨
     (k ≠ js "__proto__" ∧
      ∃ p v, p ∈ params ∧ param_name p = k ∧ param_in p = js "query" ∧
             supplied args p = Some v ∧ process_argument p v = Ok r)) ∧
  (∀ k, is_Some (queryParams st !! k) → is_Some (queryParams st' !! k)) ∧
  (∀ p, p ∈ params → param_in p = js "query" →
     param_name p ≠ js "__proto__" → is_Some (supplied args p) →
     is_Some (queryParams st' !! param_name p)).
Proof.
  induction params as [|p l IH]; intros st st'; simpl.
  - intros [= <-]. split; [by left|]. split; [done|].
    intros p Hp. by apply elem_of_nil in Hp.
  - destruct (process_parameter args st p) as [st1|e] eqn:E; simpl; [|discriminate].
    intros H. destruct (IH _ _ H) as (IH1 & IH2 & IH3).
    pose proof (process_parameter_Ok _ _ _ _ E) as Hp.
    assert ((queryParams st1 = queryParams st) ∨
            (∃ v r, param_in p = js "query" ∧ supplied args p = Some v ∧
                    process_argument p v = Ok r ∧
                    queryParams st1 = assign (param_name p) r (queryParams st)))
      as Hq.
    { destruct (supplied args p) as [v|]; [|left; tauto].
      destruct Hp as (r & Hr & Hp).
      destruct (str_eqb (param_in p) (js "path")); [left; tauto|].
      destruct (str_eqb (param_in p) (js "query")) eqn:Eq; [|].
      - right. exists v, r. apply str_eqb_eq in Eq. tauto.
      - left. destruct (str_eqb (param_in p) (js "header")); tauto. }
    split; [|split].
    + intros k r Hk. destruct (IH1 _ _ Hk) as [Hk1|(Hk0 & q & v & Hq1 & ?)].
      * destruct Hq as [Hq|(v & r' & ? & ? & ? & Hq)]; rewrite Hq in Hk1; [by left|].
        apply lookup_assign_Some in Hk1 as [(Hn & Hk0 & ->)|Hk1]; [|by left].
        right. split; [done|]. exists p, v.
        split; [apply list_elem_of_here | done].
      * right. split; [done|]. exists q, v.
        split; [by apply list_elem_of_further | done].
    + intros k Hk. apply IH2.
      destruct Hq as [->|(v & r' & ? & ? & ? & ->)]; [done|].
      by apply lookup_assign_is_Some.
    + intros q Hq1 Hin Hnp Hs.
      apply elem_of_cons in Hq1 as [->|Hq1]; [|by apply IH3].
      apply IH2. destruct Hs as [v Hs]. rewrite Hs in Hp.
      destruct Hp as (r & Hr & Hp).
      assert (str_eqb (param_in p) (js "path") = false) as E1
        by (rewrite Hin; reflexivity).
      assert (str_eqb (param_in p) (js "query") = true) as E2
        by (rewrite Hin; reflexivity).
      rewrite E1, E2 in Hp. destruct Hp as (_ & -> & _).
      rewrite lookup_assign_eq by done. eauto.
Qed.

(** X9: the query of a request holds the declared query parameters for
    which [args[name]] reads a value other than [undefined] and [null], and
    nothing else; every value is the coercion of the one read.  The read
    follows the prototype: a declared query parameter that bears the name of
    a function of [Object.prototype] ([constructor], [toString], ...) is in
    the query though the caller has left it out.  A name that the caller
    has left out and that is no such name is not in the query, and an
    argument that the operation does not declare as a query parameter is
    never forwarded; nor is a parameter named [__proto__]. *)
Theorem query_holds_declared_parameters c id info args cfg :
  operations c !! id = Some info →
  build_request c id args = Ok cfg →
  (∀ k, is_Some (cfg_params cfg !! k) ↔
        k ≠ js "__proto__" ∧
        ∃ p, p ∈ parameters info ∧ param_name p = k ∧
             param_in p = js "query" ∧ is_Some (supplied args p)) ∧
  (∀ k r, cfg_params cfg !! k = Some r →
     ∃ p v, p ∈ parameters info ∧ param_name p = k ∧ param_in p = js "query" ∧
            supplied args p = Some v ∧ process_argument p v = Ok r) ∧
  (∀ p f, p ∈ parameters info → param_in p = js "query" →
     get_prop (param_name p) args = None →
     get_prop (param_name p) Object_prototype_functions = Some f →
     is_Some (cfg_params cfg !! param_name p)) ∧
  (∀ k, get_prop k args = None →
        get_prop k Object_prototype_functions = None →
        cfg_params cfg !! k = None).
Proof.
  intros Hop Hb.
  destruct (build_request_Ok _ _ _ _ _ Hop Hb) as (st & body & headers & Hl & _ & _ & ->).
  destruct (process_parameters_query _ _ _ _ Hl) as (H1 & _ & H3).
  cbn [cfg_params].
  assert (∀ k r, queryParams st !! k = Some r →
     k ≠ js "__proto__" ∧
     ∃ p v, p ∈ parameters info ∧ param_name p = k ∧ param_in p = js "query" ∧
            supplied args p = Some v ∧ process_argument p v = Ok r) as Hv.
  { intros k r Hk. destruct (H1 _ _ Hk) as [H|H]; [|done].
    simpl in H. by rewrite lookup_empty in H. }
  split; [|split; [|split]].
  - intros k. split.
    + intros [r Hk]. destruct (Hv _ _ Hk) as (Hk0 & p & v & ? & ? & ? & Hs & _).
      split; [done|]. exists p. rewrite Hs. eauto.
    + intros (Hk0 & p & Hp & <- & Hin & Hs). by apply H3.
  - intros k r Hk. by destruct (Hv _ _ Hk).
  - intros p f Hp Hin Hown Hf. apply H3; [done | done | |].
    + intros E. rewrite E, not_inherited_proto in Hf. discriminate Hf.
    + rewrite (supplied_inherited _ _ _ Hown Hf). eauto.
  - intros k Hown Hf. destruct (queryParams st !! k) as [r|] eqn:Hk; [|done].
    destruct (Hv _ _ Hk) as (Hk0 & p & v & _ & <- & _ & Hs & _).
    by rewrite (supplied_absent _ _ Hown Hf Hk0) in Hs.
Qed.

Lemma query_holds_declared_parameters_witness :
  operations search_client !! js "search" = Some search_info ∧
  (∃ cfg,
     build_request search_client (js "search")
       [(js "q", JStr (js "x")); (js "debug", JBool true)] = Ok cfg ∧
     cfg_params cfg !! js "q" = Some (Json (JStr (js "x"))) ∧
     cfg_params cfg !! js "constructor" = Some (Native (js "Object")) ∧
     cfg_params cfg !! js "debug" = None ∧
     cfg_params cfg !! js "page" = None).
Proof.
  assert (operations search_client !! js "search" = Some search_info) as H1
    by (vm_compute; reflexivity).
  split; [exact H1|].
  destruct (build_request search_client (js "search")
              [(js "q", JStr (js "x")); (js "debug", JBool true)]) as [cfg|e] eqn:E;
    [|vm_compute in E; discriminate E].
  exists cfg. split; [reflexivity|].
  destruct (query_holds_declared_parameters _ _ _ _ _ H1 E)
    as (Hdom & Hval & Hinh & Hout).
  split; [|split; [|split]].
  - vm_compute in E. injection E as <-. vm_compute. reflexivity.
  - destruct (Hinh constructor_param (js "Object")) as [r Hr];
      [ apply list_elem_of_further, list_elem_of_here
      | reflexivity | reflexivity | reflexivity | ].
    change (param_name constructor_param) with (js "constructor") in Hr.
    rewrite Hr. destruct (Hval _ _ Hr) as (p & v & Hp & Hn & _ & Hs & Hr').
    simpl in Hp.
    apply elem_of_cons in Hp as [->|Hp]; [discriminate Hn|].
    apply elem_of_cons in Hp as [->|Hp];
      [vm_compute in Hs; injection Hs as <-; vm_compute in Hr';
       by injection Hr' as <- |].
    apply elem_of_cons in Hp as [->|Hp]; [discriminate Hn|].
    apply elem_of_cons in Hp as [->|Hp]; [discriminate Hn|].
    by apply elem_of_nil in Hp.
  - destruct (cfg_params cfg !! js "debug") eqn:Hd; [|reflexivity].
    destruct (proj1 (Hdom (js "debug")) (mk_is_Some _ _ Hd)) as (_ & p & Hp & Hn & _).
    exfalso. simpl in Hp.
    repeat (apply elem_of_cons in Hp as [->|Hp]; [discriminate Hn|]).
    by apply elem_of_nil in Hp.
  - apply Hout; reflexivity.
Defined.

(** ** Headers *)

Lemma process_parameters_headers args params : ∀ st st',
  process_parameters args st params = Ok st' →
  (∀ k s, st_headers st' !! k = Some s →
    st_headers st !! k = Some s ∨
    (k ≠ js "__proto__" ∧
     ∃ p v r, p ∈ params ∧ param_name p = k ∧ param_in p = js "header" ∧
              supplied args p = Some v ∧ process_argument p v = Ok r ∧
              Value_ToString r = Ok s)) ∧
  (∀ k, is_Some (st_headers st !! k) → is_Some (st_headers st' !! k)) ∧
  (∀ p, p ∈ params → param_in p = js "header" →
     param_name p ≠ js "__proto__" → is_Some (supplied args p) →
     is_Some (st_headers st' !! param_name p)).
Proof.
  induction params as [|p l IH]; intros st st'; simpl.
  - intros [= <-]. split; [by left|]. split; [done|].
    intros p Hp. by apply elem_of_nil in Hp.
  - destruct (process_parameter args st p) as [st1|e] eqn:E; simpl; [|discriminate].
    intros H. destruct (IH _ _ H) as (IH1 & IH2 & IH3).
    pose proof (process_parameter_Ok _ _ _ _ E) as Hp.
    assert ((st_headers st1 = st_headers st) ∨
            (∃ v r s, param_in p = js "header" ∧ supplied args p = Some v ∧
                      process_argument p v = Ok r ∧ Value_ToString r = Ok s ∧
                      st_headers st1 = assign (param_name p) s (st_headers st)))
      as Hq.
    { destruct (supplied args p) as [v|]; [|left; tauto].
      destruct Hp as (r & Hr & Hp).
      destruct (str_eqb (param_in p) (js "path")); [left; tauto|].
      destruct (str_eqb (param_in p) (js "query")); [left; tauto|].
      destruct (str_eqb (param_in p) (js "header")) eqn:Eh; [|left; tauto].
      right. destruct Hp as (_ & _ & s & Hs & Hh).
      exists v, r, s. apply str_eqb_eq in Eh. tauto. }
    split; [|split].
    + intros k s Hk. destruct (IH1 _ _ Hk) as [Hk1|(Hk0 & q & v & r & Hq1 & ?)].
      * destruct Hq as [Hq|(v & r & s' & ? & ? & ? & ? & Hq)]; rewrite Hq in Hk1;
          [by left|].
        apply lookup_assign_Some in Hk1 as [(Hn & Hk0 & ->)|Hk1]; [|by left].
        right. split; [done|]. exists p, v, r.
        split; [apply list_elem_of_here | done].
      * right. split; [done|]. exists q, v, r.
        split; [by apply list_elem_of_further | done].
    + intros k Hk. apply IH2.
      destruct Hq as [->|(v & r & s' & ? & ? & ? & ? & ->)]; [done|].
      by apply lookup_assign_is_Some.
    + intros q Hq1 Hin Hnp Hs.
      apply elem_of_cons in Hq1 as [->|Hq1]; [|by apply IH3].
      apply IH2. destruct Hs as [v Hs]. rewrite Hs in Hp.
      destruct Hp as (r & Hr & Hp).
      assert (str_eqb (param_in p) (js "path") = false) as E1
        by (rewrite Hin; reflexivity).
      assert (str_eqb (param_in p) (js "query") = false) as E2
        by (rewrite Hin; reflexivity).
      assert (str_eqb (param_in p) (js "header") = true) as E3
        by (rewrite Hin; reflexivity).
      rewrite E1, E2, E3 in Hp. destruct Hp as (_ & _ & s & _ & ->).
      rewrite lookup_assign_eq by done. eauto.
Qed.

Lemma process_body_headers info args headers body headers' :
  process_body info args headers = Ok (body, headers') →
  ∀ k, k ≠ js "Content-Type" → headers' !! k = headers !! k.
Proof.
  unfold process_body.
  destruct (requestBody info) as [rb|]; [|by intros [= _ <-]].
  destruct (get_prop (js "body") args) as [argBody|]; [|by intros [= _ <-]].
  destruct (processRequestBody argBody (determineContentType rb headers));
    simpl; [|discriminate].
  destruct (_ && _); intros [= _ <-] k Hk; [|done].
  by rewrite lookup_insert_ne.
Qed.

(** A built-in function that passes [processParameterValue] leaves it as
    itself or as its text. *)
Lemma process_argument_native p f r :
  process_argument p (Native f) = Ok r →
  Value_ToString r = Ok (function_source f).
Proof.
  unfold process_argument. destruct (param_schema p) as [schema|].
  - destruct (_ || _); [discriminate|].
    destruct (str_eqb _ _); [discriminate|].
    destruct (str_eqb _ _); [discriminate|].
    by intros [= <-].
  - by intros [= <-].
Qed.

(** X10: every header of a request is the string form of the coerced value
    that [args[name]] reads for a declared header parameter, or the
    Content-Type of an operation with a request body, or a default header of
    the client.  A name that no header parameter declares is a header only
    as Content-Type or as a default of the client: no other argument of the
    caller becomes a header.  The read follows the prototype: a declared
    header parameter that bears the name of a function of
    [Object.prototype] and that the caller has left out is sent, with the
    text of that function as its value. *)
Theorem headers_hold_declared_parameters c id info args cfg :
  operations c !! id = Some info →
  build_request c id args = Ok cfg →
  (∀ k s, cfg_headers cfg !! k = Some s →
    (k ≠ js "__proto__" ∧
     ∃ p v r, p ∈ parameters info ∧ param_name p = k ∧
              param_in p = js "header" ∧ supplied args p = Some v ∧
              process_argument p v = Ok r ∧ Value_ToString r = Ok s) ∨
    (k = js "Content-Type" ∧ is_Some (requestBody info) ∧
     is_Some (get_prop (js "body") args)) ∨
    common_headers c !! k = Some s) ∧
  (∀ k, k ≠ js "Content-Type" →
        (∀ p, p ∈ parameters info → param_in p = js "header" → param_name p ≠ k) →
        cfg_headers cfg !! k = common_headers c !! k) ∧
  (∀ p f, p ∈ parameters info → param_in p = js "header" →
     get_prop (param_name p) args = None →
     get_prop (param_name p) Object_prototype_functions = Some f →
     cfg_headers cfg !! param_name p = Some (function_source f)).
Proof.
  intros Hop Hb.
  destruct (build_request_Ok _ _ _ _ _ Hop Hb) as (st & body & headers & Hl & _ & Hbody & ->).
  destruct (process_parameters_headers _ _ _ _ Hl) as (Hval & _ & Hdom).
  assert (∀ k s, st_headers st !! k = Some s →
     k ≠ js "__proto__" ∧
     ∃ p v r, p ∈ parameters info ∧ param_name p = k ∧
              param_in p = js "header" ∧ supplied args p = Some v ∧
              process_argument p v = Ok r ∧ Value_ToString r = Ok s) as Hv.
  { intros k s Hk. destruct (Hval _ _ Hk) as [H|H]; [|done].
    simpl in H. by rewrite lookup_empty in H. }
  cbn [cfg_headers]. split; [|split].
  - intros k s. rewrite lookup_union_Some_raw. intros [Hk|[_ Hk]]; [|by right; right].
    destruct (decide (k = js "Content-Type")) as [->|Hne].
    + destruct (st_headers st !! js "Content-Type") as [s'|] eqn:Hst.
      * assert (headers !! js "Content-Type" = Some s' ∨
                (is_Some (requestBody info) ∧ is_Some (get_prop (js "body") args)))
          as [Hsame|Hrb].
        { unfold process_body in Hbody.
          destruct (requestBody info) as [rb|];
            [|injection Hbody as _ <-; by left].
          destruct (get_prop (js "body") args) as [argBody|];
            [|injection Hbody as _ <-; by left].
          right. eauto. }
        -- rewrite Hk in Hsame. injection Hsame as ->. left. by apply Hv.
        -- right. by left.
      * right. left. split; [done|].
        unfold process_body in Hbody.
        destruct (requestBody info) as [rb|];
          [|injection Hbody as _ <-; congruence].
        destruct (get_prop (js "body") args) as [argBody|];
          [|injection Hbody as _ <-; congruence].
        eauto.
    + rewrite (process_body_headers _ _ _ _ _ Hbody k Hne) in Hk.
      left. by apply Hv.
  - intros k Hne Hno.
    assert (headers !! k = None) as Hk.
    { rewrite (process_body_headers _ _ _ _ _ Hbody k Hne).
      destruct (st_headers st !! k) as [s|] eqn:Hs; [|done].
      destruct (Hv _ _ Hs) as (_ & p & _ & _ & Hp & Hn & Hin & _).
      by destruct (Hno p Hp Hin). }
    rewrite lookup_union_r by done. done.
  - intros p f Hp Hin Hown Hf.
    assert (param_name p ≠ js "__proto__") as Hnp.
    { intros E. rewrite E, not_inherited_proto in Hf. discriminate Hf. }
    assert (param_name p ≠ js "Content-Type") as Hnc.
    { intros E. rewrite E in Hf. vm_compute in Hf. discriminate Hf. }
    destruct (Hdom p Hp Hin Hnp) as [s Hs];
      [rewrite (supplied_inherited _ _ _ Hown Hf); eauto|].
    apply lookup_union_Some_l.
    rewrite (process_body_headers _ _ _ _ _ Hbody _ Hnc), Hs. f_equal.
    destruct (Hv _ _ Hs) as (_ & q & v & r & _ & Hn & _ & Hq & Hr & Ht).
    assert (supplied args q = Some (Native f)) as Hq'.
    { apply supplied_inherited; by rewrite Hn. }
    rewrite Hq' in Hq. injection Hq as <-.
    rewrite (process_argument_native _ _ _ Hr) in Ht. by injection Ht.
Qed.

Lemma headers_hold_declared_parameters_witness :
  operations search_client !! js "search" = Some search_info ∧
  (∃ cfg,
     build_request search_client (js "search")
       [(js "q", JStr (js "x")); (js "X-Trace", JNum (number_of_N 42));
        (js "Authorization", JStr (js "Bearer x"))] = Ok cfg ∧
     cfg_headers cfg !! js "X-Trace" = Some (js "42") ∧
     cfg_headers cfg !! js "valueOf"
     = Some (js "function valueOf() { [native code] }") ∧
     cfg_headers cfg !! js "Authorization" = None).
Proof.
  assert (operations search_client !! js "search" = Some search_info) as H1
    by (vm_compute; reflexivity).
  split; [exact H1|].
  destruct (build_request search_client (js "search")
              [(js "q", JStr (js "x")); (js "X-Trace", JNum (number_of_N 42));
               (js "Authorization", JStr (js "Bearer x"))])
    as [cfg|e] eqn:E; [|vm_compute in E; discriminate E].
  exists cfg. split; [reflexivity|].
  destruct (headers_hold_declared_parameters _ _ _ _ _ H1 E) as (Hval & Hout & Hinh).
  split; [|split].
  - vm_compute in E. injection E as <-. vm_compute. reflexivity.
  - apply (Hinh valueOf_param (js "valueOf"));
      [ do 3 apply list_elem_of_further; apply list_elem_of_here
      | reflexivity | reflexivity | reflexivity ].
  - rewrite Hout; [vm_compute; reflexivity | discriminate |].
    intros p Hp Hin. simpl in Hp.
    repeat (apply elem_of_cons in Hp as [->|Hp]; [discriminate|]).
    by apply elem_of_nil in Hp.
Defined.

(** ** Path parameters *)

Lemma unreserved_no_delimiter c : uri_unreserved c = true → url_delimiter c = false.
Proof.
  intros H. unfold url_delimiter.
  repeat match goal with
         | |- context [c =? ?n] =>
             destruct (N.eqb_spec c n) as [->|_];
             [vm_compute in H; discriminate H|]
         end.
  reflexivity.
Qed.

Lemma hex_digit_no_delimiter d : url_delimiter (hex_digit d) = false.
Proof.
  unfold url_delimiter, hex_digit.
  destruct (N.ltb_spec d 10);
    repeat match goal with
           | |- context [?x =? ?n] => destruct (N.eqb_spec x n); [lia|]
           end; reflexivity.
Qed.

Lemma percent_no_delimiter (bytes : list N) :
  Forall (λ c, url_delimiter c = false) (mjoin (percent <$> bytes)).
Proof.
  induction bytes as [|b l IH]; [constructor|].
  rewrite fmap_cons. simpl.
  constructor; [done|].
  constructor; [apply hex_digit_no_delimiter|].
  constructor; [apply hex_digit_no_delimiter|].
  exact IH.
Qed.

Lemma encodeURIComponent_no_delimiter (n : nat) : ∀ s t,
  (length s ≤ n)%nat → encodeURIComponent s = Ok t →
  Forall (λ c, url_delimiter c = false) t.
Proof.
  induction n as [|n IH]; intros s t Hlen H.
  - destruct s; [|simpl in Hlen; lia]. injection H as <-. constructor.
  - destruct s as [|c r]; [injection H as <-; constructor|].
    simpl in Hlen. simpl in H.
    destruct (uri_unreserved c) eqn:Hu.
    + destruct (encodeURIComponent r) as [t'|] eqn:Hr; [|discriminate H].
      injection H as <-. constructor.
      * by apply unreserved_no_delimiter.
      * apply (IH r); [lia | done].
    + destruct (is_low_surrogate c); [discriminate H|].
      destruct (is_high_surrogate c).
      * destruct r as [|c2 r2]; [discriminate H|].
        destruct (is_low_surrogate c2); [|discriminate H].
        destruct (encodeURIComponent r2) as [t'|] eqn:Hr; [|discriminate H].
        injection H as <-. apply Forall_app. split.
        -- apply percent_no_delimiter.
        -- apply (IH r2); [simpl in Hlen; lia | done].
      * destruct (encodeURIComponent r) as [t'|] eqn:Hr; [|discriminate H].
        injection H as <-. apply Forall_app. split.
        -- apply percent_no_delimiter.
        -- apply (IH r); [lia | done].
Qed.

Lemma replace_first_absent pat repl s :
  str_includes pat s = false → replace_first pat repl s = s.
Proof.
  induction s as [|c r IH]; simpl.
  - destruct (is_prefix pat []); [discriminate | done].
  - destruct (is_prefix pat (c :: r)); [discriminate|].
    simpl. intros H. by rewrite IH.
Qed.

Lemma is_prefix_spec (p s : jsstring) : is_prefix p s = true ↔ ∃ t, s = p ++ t.
Proof.
  revert s. induction p as [|a p IH]; intros s; simpl.
  - split; [intros _; by exists s | done].
  - destruct s as [|b s]; [split; [discriminate | by intros [t Ht]]|].
    rewrite andb_true_iff, N.eqb_eq, IH. split.
    + intros [-> [t ->]]. by exists t.
    + intros [t [= -> ->]]. split; [done | by exists t].
Qed.

(** An occurrence of [pat] that starts within [x :: a] lies in
    [(x :: a) ++ removelast pat]. *)
Lemma first_at_head pat x a b :
  pat ≠ [] → first_at pat (x :: a) →
  is_prefix pat (x :: a ++ pat ++ b) = false.
Proof.
  intros Hne Hf. destruct (is_prefix pat (x :: a ++ pat ++ b)) eqn:E; [|done].
  exfalso. unfold first_at in Hf.
  pose proof (List.app_removelast_last 0 Hne) as Hpat.
  remember (List.removelast pat) as q eqn:Hq. clear Hq.
  remember (List.last pat 0) as z eqn:Hz. clear Hz. subst pat.
  assert (is_prefix (q ++ [z]) ((x :: a) ++ q) = true) as Hp.
  { apply is_prefix_spec in E as [t Et]. apply is_prefix_spec.
    exists (drop (length (q ++ [z])) ((x :: a) ++ q)).
    rewrite <- (take_drop (length (q ++ [z])) ((x :: a) ++ q)) at 1.
    f_equal.
    assert (x :: a ++ (q ++ [z]) ++ b = ((x :: a) ++ q) ++ ([z] ++ b)) as E2
      by (simpl; by rewrite <- !app_assoc).
    rewrite E2 in Et.
    assert (take (length (q ++ [z])) (((x :: a) ++ q) ++ [z] ++ b)
            = take (length (q ++ [z])) ((x :: a) ++ q)) as Ht.
    { apply take_app_le. rewrite !length_app. simpl. lia. }
    rewrite <- Ht, Et. by rewrite take_app_length. }
  change ((x :: a) ++ q) with (x :: (a ++ q)) in Hf, Hp.
  simpl in Hf. rewrite Hp in Hf. discriminate Hf.
Qed.

Lemma first_at_tail pat x a : first_at pat (x :: a) → first_at pat a.
Proof.
  unfold first_at. change ((x :: a) ++ ?l) with (x :: (a ++ l)).
  simpl. intros H. by apply orb_false_elim in H as [_ H].
Qed.

Lemma replace_first_first pat repl a b :
  pat ≠ [] → first_at pat a →
  replace_first pat repl (a ++ pat ++ b) = a ++ repl ++ b.
Proof.
  intros Hne. induction a as [|x a IH]; intros Hf.
  - change ([] ++ ?l) with l. destruct (pat ++ b) as [|c r] eqn:E.
    + by destruct pat.
    + rewrite <- E. clear E c r.
      assert (replace_first pat repl (pat ++ b)
              = repl ++ drop (length pat) (pat ++ b)) as ->.
      { destruct (pat ++ b) eqn:E; simpl; rewrite <- ?E, is_prefix_app; by rewrite ?E. }
      by rewrite drop_app_length.
  - change ((x :: a) ++ ?l) with (x :: (a ++ l)).
    cbn [replace_first]. rewrite (first_at_head pat x a b Hne Hf).
    by rewrite (IH (first_at_tail _ _ _ Hf)).
Qed.

(** X11: a path parameter for which [args[name]] reads a value puts into
    the URL the percent-encoding of the string form of the coerced value; the
    encoded text contains no space, [#], [&], [+], [/], [=] or [?].  It
    replaces the first placeholder of its name only, and when the URL has no
    such placeholder the URL stays as it was and the value goes nowhere. *)
Theorem path_parameter_substitution args st p v st' :
  param_in p = js "path" → supplied args p = Some v →
  process_parameter args st p = Ok st' →
  ∃ r s enc,
    process_argument p v = Ok r ∧ Value_ToString r = Ok s ∧
    encodeURIComponent s = Ok enc ∧
    st_url st' = replace_first (path_placeholder p) enc (st_url st) ∧
    Forall (λ c, url_delimiter c = false) enc ∧
    (str_includes (path_placeholder p) (st_url st) = false →
     st_url st' = st_url st) ∧
    (∀ a b, st_url st = a ++ path_placeholder p ++ b →
            first_at (path_placeholder p) a →
            st_url st' = a ++ enc ++ b) ∧
    queryParams st' = queryParams st ∧ st_headers st' = st_headers st.
Proof.
  intros Hin Hs H. pose proof (process_parameter_Ok _ _ _ _ H) as Hp.
  rewrite Hs, Hin in Hp. destruct Hp as (r & Hr & Hp).
  change (str_eqb (js "path") (js "path")) with true in Hp.
  destruct Hp as ((s & enc & Ht & He & Hu) & Hq & Hh).
  exists r, s, enc. split; [exact Hr|]. split; [exact Ht|]. split; [exact He|].
  split; [exact Hu|].
  split; [by apply (encodeURIComponent_no_delimiter (length s) s)|].
  split; [|split; [|done]].
  - intros Habs. by rewrite Hu, replace_first_absent.
  - intros a b Hab Ha. rewrite Hu, Hab. by apply replace_first_first.
Qed.

Lemma path_parameter_substitution_witness :
  param_in id_param = js "path" ∧
  supplied [(js "id", JStr (js "a/b?c=d"))] id_param
  = Some (Json (JStr (js "a/b?c=d"))) ∧
  first_at (path_placeholder id_param) (js "https://h/{x}/{i/items/") ∧
  (∃ st',
     process_parameter [(js "id", JStr (js "a/b?c=d"))]
       {| st_url := js "https://h/{x}/{i/items/{id}/notes/{id}";
          queryParams := ∅; st_headers := ∅; missingRequiredParams := [] |}
       id_param = Ok st' ∧
     (∃ r s enc,
        process_argument id_param (Json (JStr (js "a/b?c=d"))) = Ok r ∧
        Value_ToString r = Ok s ∧ encodeURIComponent s = Ok enc ∧
        st_url st' = js "https://h/{x}/{i/items/" ++ enc ++ js "/notes/{id}" ∧
        Forall (λ c, url_delimiter c = false) enc) ∧
     st_url st' = js "https://h/{x}/{i/items/a%2Fb%3Fc%3Dd/notes/{id}").
Proof.
  assert (first_at (path_placeholder id_param) (js "https://h/{x}/{i/items/")) as Hf
    by (vm_compute; reflexivity).
  split; [reflexivity|]. split; [reflexivity|]. split; [exact Hf|].
  destruct (process_parameter [(js "id", JStr (js "a/b?c=d"))]
              {| st_url := js "https://h/{x}/{i/items/{id}/notes/{id}";
                 queryParams := ∅; st_headers := ∅; missingRequiredParams := [] |}
              id_param) as [st'|e] eqn:E; [|vm_compute in E; discriminate E].
  exists st'. split; [reflexivity|]. split.
  - destruct (path_parameter_substitution
                [(js "id", JStr (js "a/b?c=d"))] _ id_param
                (Json (JStr (js "a/b?c=d"))) _ eq_refl eq_refl E)
      as (r & s & enc & Hr & Hs & He & _ & Hsafe & _ & Hat & _).
    exists r, s, enc. split; [exact Hr|]. split; [exact Hs|]. split; [exact He|].
    split; [|exact Hsafe].
    apply (Hat (js "https://h/{x}/{i/items/") (js "/notes/{id}")); [reflexivity|].
    exact Hf.
  - vm_compute in E. injection E as <-. reflexivity.
Defined.

(** ** Request bodies *)

Lemma includes_elem (l : list jsstring) x : includes l x = true → x ∈ l.
Proof.
  unfold includes. induction l as [|y l IH]; simpl; [discriminate|].
  destruct (str_eqb x y) eqn:E.
  - apply str_eqb_eq in E as ->. intros _. apply list_elem_of_here.
  - simpl. intros H. by apply list_elem_of_further, IH.
Qed.

Lemma negotiated_elem declared t : negotiated declared = Some t → t ∈ declared.
Proof.
  unfold negotiated.
  destruct (List.find (includes declared) preference) as [u|] eqn:E.
  - intros [= <-]. apply List.find_some in E as [_ E]. by apply includes_elem.
  - destruct declared; simpl; [discriminate|].
    intros [= <-]. apply list_elem_of_here.
Qed.

Lemma negotiated_None declared : negotiated declared = None ↔ declared = [].
Proof.
  split.
  - unfold negotiated. destruct (List.find _ _); [discriminate|].
    by destruct declared.
  - intros ->. reflexivity.
Qed.

(** X12: without Content-Type header from the caller, the content type that
    is selected is one of the declared media types, and none is selected
    only when the request body declares no media type. *)
Theorem selected_content_type_is_declared rb headers :
  caller_content_type headers = None →
  (∀ t, determineContentType rb headers = Some t → t ∈ default [] (content rb)) ∧
  (determineContentType rb headers = None ↔ default [] (content rb) = []).
Proof.
  intros H. rewrite (determineContentType_negotiated rb headers H). split.
  - intros t. apply negotiated_elem.
  - apply negotiated_None.
Qed.

Lemma selected_content_type_is_declared_witness :
  caller_content_type (∅ : gmap jsstring jsstring) = None ∧
  (js "text/csv" ∈ [js "text/csv"; js "image/png"]) ∧
  determineContentType {| content := Some [js "text/csv"; js "image/png"] |} ∅
  = Some (js "text/csv") ∧
  determineContentType {| content := None |} ∅ = None.
Proof.
  assert (caller_content_type (∅ : gmap jsstring jsstring) = None) as H0
    by (vm_compute; reflexivity).
  split; [exact H0|].
  destruct (selected_content_type_is_declared
              {| content := Some [js "text/csv"; js "image/png"] |} ∅ H0) as [H _].
  destruct (selected_content_type_is_declared {| content := None |} ∅ H0) as [_ H'].
  split; [|split].
  - apply (H (js "text/csv")). vm_compute. reflexivity.
  - vm_compute. reflexivity.
  - by apply H'.
Defined.

(** X13: when a body is sent, a non-empty [Content-Type] header that came
    from the caller is left as it is; a header that the caller gave as
    [content-type] (lower case) is kept and its value is set a second time
    under [Content-Type]; no other header changes. *)
Theorem content_type_header_of_request info args headers rb argBody body headers' :
  requestBody info = Some rb →
  get_prop (js "body") args = Some argBody →
  process_body info args headers = Ok (body, headers') →
  (truthy (headers !! js "Content-Type") = true → headers' = headers) ∧
  (∀ v, truthy (headers !! js "Content-Type") = false →
        headers !! js "content-type" = Some v → v ≠ [] →
        headers' !! js "Content-Type" = Some v ∧
        headers' !! js "content-type" = Some v) ∧
  (∀ k, k ≠ js "Content-Type" → headers' !! k = headers !! k).
Proof.
  intros Hrb Hbody H.
  split; [|split; [|by apply (process_body_headers info args headers body)]].
  - unfold process_body in H. rewrite Hrb, Hbody in H. intros Ht.
    destruct (processRequestBody _ _); simpl in H; [|discriminate].
    rewrite Ht, andb_false_r in H. by injection H as _ <-.
  - intros v Ht Hv Hne.
    assert (determineContentType rb headers = Some v) as Hd.
    { apply determineContentType_caller. unfold caller_content_type.
      rewrite Hv. destruct (headers !! js "Content-Type") as [[|c w]|];
        try discriminate Ht; by destruct v. }
    unfold process_body in H. rewrite Hrb, Hbody, Hd in H.
    destruct (processRequestBody _ _); simpl in H; [|discriminate].
    rewrite Ht in H. destruct v as [|c w]; [done|]. simpl in H.
    injection H as _ <-. rewrite lookup_insert_eq.
    by rewrite lookup_insert_ne.
Qed.

Lemma content_type_header_of_request_witness :
  requestBody (create_item_info [js "application/json"])
    = Some {| content := Some [js "application/json"] |} ∧
  get_prop (js "body") [(js "body", JStr (js "a;b"))] = Some (JStr (js "a;b")) ∧
  process_body (create_item_info [js "application/json"])
    [(js "body", JStr (js "a;b"))] (<[js "content-type" := js "text/csv"]> ∅)
  = Ok (Some (DataValue (JStr (js "a;b"))),
        <[js "Content-Type" := js "text/csv"]>
          (<[js "content-type" := js "text/csv"]> ∅)) ∧
  (<[js "Content-Type" := js "text/csv"]>
     (<[js "content-type" := js "text/csv"]> (∅ : gmap jsstring jsstring)))
    !! js "content-type" = Some (js "text/csv").
Proof.
  assert (process_body (create_item_info [js "application/json"])
            [(js "body", JStr (js "a;b"))] (<[js "content-type" := js "text/csv"]> ∅)
          = Ok (Some (DataValue (JStr (js "a;b"))),
                <[js "Content-Type" := js "text/csv"]>
                  (<[js "content-type" := js "text/csv"]> ∅))) as H
    by (vm_compute; reflexivity).
  split; [reflexivity|]. split; [reflexivity|]. split; [exact H|].
  destruct (content_type_header_of_request
              (create_item_info [js "application/json"])
              [(js "body", JStr (js "a;b"))] _
              {| content := Some [js "application/json"] |} (JStr (js "a;b"))
              _ _ eq_refl eq_refl H)
    as (_ & Hlow & _).
  apply (Hlow (js "text/csv")); [vm_compute; reflexivity | vm_compute; reflexivity | discriminate].
Defined.

Lemma process_parameters_no_header args params st st' :
  Forall (λ p, param_in p ≠ js "header") params →
  process_parameters args st params = Ok st' →
  st_headers st = ∅ → st_headers st' = ∅.
Proof.
  intros Hno H Hst. apply map_empty. intros k.
  destruct (st_headers st' !! k) as [s|] eqn:Hk; [|done].
  destruct (proj1 (process_parameters_headers _ _ _ _ H) _ _ Hk)
    as [H0|(_ & p & ? & ? & Hp & _ & Hin & _)].
  - by rewrite Hst, lookup_empty in H0.
  - rewrite Forall_forall in Hno. by destruct (Hno p Hp).
Qed.

Lemma determineContentType_json rb :
  includes (default [] (content rb)) (js "application/json") = true →
  determineContentType rb ∅ = Some (js "application/json").
Proof.
  intros H. unfold determineContentType, or_else.
  rewrite !lookup_empty. simpl. by rewrite H.
Qed.

(** X14: for an operation without header parameters whose request body
    declares application/json, in a call where no value read from [args]
    fails to convert and no required parameter reads [undefined] or [null],
    a body passed as a string is parsed before it is sent: the request
    carries the parsed value and the Content-Type application/json; a
    string that is not JSON makes the call fail with the parse error, and no
    request is sent. *)
Theorem json_text_body_parsed {Response}
    (send : AxiosRequestConfig → Exc Response) c id info rb args s :
  operations c !! id = Some info →
  requestBody info = Some rb →
  Forall (λ p, param_in p ≠ js "header") (parameters info) →
  first_failure args (parameters info) = None →
  missing_labels args (parameters info) = [] →
  includes (default [] (content rb)) (js "application/json") = true →
  get_prop (js "body") args = Some (JStr s) →
  match JSON_parse s with
  | Throw e => executeOperation send c id args = (Throw e, [])
  | Ok v =>
      ∃ cfg, executeOperation send c id args = (send cfg, [cfg]) ∧
             cfg_data cfg = Some (DataValue v) ∧
             cfg_headers cfg !! js "Content-Type" = Some (js "application/json")
  end.
Proof.
  intros Hop Hrb Hno Hf Hm Hinc Hbody.
  pose proof (process_parameters_spec args (parameters info) (initial_state c info)) as Hl.
  rewrite Hf, Hm in Hl. destruct Hl as (st & Hl & Hmiss). simpl in Hmiss.
  assert (st_headers st = ∅) as Hh
    by (by apply (process_parameters_no_header args (parameters info) (initial_state c info))).
  assert (process_body info args (st_headers st) =
          (v ← JSON_parse s;
           Ok (Some (DataValue v), <[js "Content-Type" := js "application/json"]> ∅)))
    as Hpb.
  { unfold process_body. rewrite Hrb, Hbody, Hh, (determineContentType_json rb Hinc).
    unfold processRequestBody. simpl. by destruct (JSON_parse s). }
  unfold executeOperation, build_request. rewrite Hop.
  fold (initial_state c info). rewrite Hl. simpl. rewrite Hmiss, Hpb.
  destruct (JSON_parse s) as [v|e]; simpl; [|done].
  eexists. split; [reflexivity|]. simpl. split; [done|].
  apply lookup_union_Some_l, lookup_insert_eq.
Qed.

Lemma json_text_body_parsed_witness :
  operations update_item_client !! js "updateItem" = Some update_item_info ∧
  first_failure [(js "id", JStr (js "7")); (js "page", JStr (js "2"));
                 (js "body", JStr (js "[1, true]"))]
    (parameters update_item_info) = None ∧
  missing_labels [(js "id", JStr (js "7")); (js "page", JStr (js "2"));
                  (js "body", JStr (js "[1, true]"))]
    (parameters update_item_info) = [] ∧
  JSON_parse (js "[1, true]") = Ok (JArr [JNum (number_of_N 1); JBool true]) ∧
  (∃ cfg,
     executeOperation no_reply update_item_client (js "updateItem")
       [(js "id", JStr (js "7")); (js "page", JStr (js "2"));
        (js "body", JStr (js "[1, true]"))]
     = (Ok (), [cfg]) ∧
     cfg_data cfg = Some (DataValue (JArr [JNum (number_of_N 1); JBool true])) ∧
     cfg_headers cfg !! js "Content-Type" = Some (js "application/json")) ∧
  JSON_parse (js "{name: 1}") = Throw SyntaxError ∧
  executeOperation no_reply update_item_client (js "updateItem")
    [(js "id", JStr (js "7")); (js "body", JStr (js "{name: 1}"))]
  = (Throw SyntaxError, []).
Proof.
  assert (operations update_item_client !! js "updateItem" = Some update_item_info)
    as H1 by (vm_compute; reflexivity).
  assert (Forall (λ p, param_in p ≠ js "header") (parameters update_item_info))
    as Hno by (repeat constructor; discriminate).
  assert (JSON_parse (js "[1, true]") = Ok (JArr [JNum (number_of_N 1); JBool true]))
    as H2 by (vm_compute; reflexivity).
  assert (JSON_parse (js "{name: 1}") = Throw SyntaxError) as H3
    by (vm_compute; reflexivity).
  split; [exact H1|]. split; [vm_compute; reflexivity|].
  split; [vm_compute; reflexivity|]. split; [exact H2|]. split; [|split; [exact H3|]].
  - pose proof (json_text_body_parsed no_reply update_item_client (js "updateItem")
                  update_item_info {| content := Some [js "application/json"] |}
                  [(js "id", JStr (js "7")); (js "page", JStr (js "2"));
                   (js "body", JStr (js "[1, true]"))] (js "[1, true]")
                  H1 eq_refl Hno eq_refl eq_refl eq_refl eq_refl) as H.
    rewrite H2 in H. exact H.
  - pose proof (json_text_body_parsed no_reply update_item_client (js "updateItem")
                  update_item_info {| content := Some [js "application/json"] |}
                  [(js "id", JStr (js "7")); (js "body", JStr (js "{name: 1}"))]
                  (js "{name: 1}")
                  H1 eq_refl Hno eq_refl eq_refl eq_refl eq_refl) as H.
    rewrite H3 in H. exact H.
Defined.

Lemma process_body_sent info args headers body headers' :
  process_body info args headers = Ok (body, headers') →
  (is_Some body ↔ is_Some (requestBody info) ∧ is_Some (get_prop (js "body") args)).
Proof.
  unfold process_body.
  destruct (requestBody info) as [rb|].
  - destruct (get_prop (js "body") args) as [argBody|].
    + destruct (processRequestBody _ _); simpl; [|discriminate].
      destruct (_ && _); intros [= <- _]; split; eauto.
    + intros [= <- _]. split; [by intros [? ?] | by intros [_ [? ?]]].
  - intros [= <- _]. split; [by intros [? ?] | by intros [[? ?] _]].
Qed.

(** X15: a request carries data exactly when the operation declares a
    request body and the caller passed [body], be it [null]; the [body] of
    a call to an operation without declared request body is dropped. *)
Theorem body_sent_when_declared c id info args cfg :
  operations c !! id = Some info →
  build_request c id args = Ok cfg →
  (is_Some (cfg_data cfg) ↔
   is_Some (requestBody info) ∧ is_Some (get_prop (js "body") args)).
Proof.
  intros Hop Hb.
  destruct (build_request_Ok _ _ _ _ _ Hop Hb) as (st & body & headers & _ & _ & Hbody & ->).
  simpl. by apply (process_body_sent info args (st_headers st) body headers).
Qed.

Lemma body_sent_when_declared_witness :
  operations items_client !! js "getItem" = Some get_item_info ∧
  (∃ cfg,
     build_request items_client (js "getItem")
       [(js "id", JStr (js "7")); (js "limit", JStr (js "5"));
        (js "body", JObj [(js "x", JBool true)])] = Ok cfg ∧
     cfg_data cfg = None) ∧
  operations (create_item_client [js "application/json"]) !! js "createItem"
    = Some (create_item_info [js "application/json"]) ∧
  (∃ cfg,
     build_request (create_item_client [js "application/json"]) (js "createItem")
       [(js "body", JNull)] = Ok cfg ∧
     is_Some (cfg_data cfg)).
Proof.
  assert (operations items_client !! js "getItem" = Some get_item_info) as H1
    by (vm_compute; reflexivity).
  assert (operations (create_item_client [js "application/json"]) !! js "createItem"
          = Some (create_item_info [js "application/json"])) as H2
    by (vm_compute; reflexivity).
  split; [exact H1|]. split; [|split; [exact H2|]].
  - destruct (build_request items_client (js "getItem")
                [(js "id", JStr (js "7")); (js "limit", JStr (js "5"));
                 (js "body", JObj [(js "x", JBool true)])]) as [cfg|e] eqn:E;
      [|vm_compute in E; discriminate E].
    exists cfg. split; [reflexivity|].
    destruct (cfg_data cfg) as [d|] eqn:Hd; [|reflexivity].
    destruct (proj1 (body_sent_when_declared _ _ _ _ _ H1 E)) as [[rb Hrb] _];
      [rewrite Hd; eauto | discriminate Hrb].
  - destruct (build_request (create_item_client [js "application/json"])
                (js "createItem") [(js "body", JNull)]) as [cfg|e] eqn:E;
      [|vm_compute in E; discriminate E].
    exists cfg. split; [reflexivity|].
    apply (body_sent_when_declared _ _ _ _ _ H2 E). split; eexists; reflexivity.
Defined.

Lemma append_all_Ok entries : ∀ pairs,
  append_all entries = Ok pairs →
  pairs.*1 = entries.*1 ∧
  Forall2 (λ e p, ToString e.2 = Ok p.2) entries pairs.
Proof.
  induction entries as [|[k v] l IH]; intros pairs; simpl.
  - intros [= <-]. split; [done | constructor].
  - destruct (ToString v) as [s|] eqn:Es; simpl; [|discriminate].
    destruct (append_all l) as [t|]; simpl; [|discriminate].
    intros [= <-]. destruct (IH t eq_refl) as [H1 H2].
    split; [rewrite !fmap_cons; simpl; by rewrite H1 | by constructor].
Qed.

(** X16: with the content type application/x-www-form-urlencoded, an object
    or array body becomes the list of its entries, in enumeration order,
    each value replaced by its string form (a nested object thus by the
    text [[object Object]]); any other body is sent as it is. *)
Theorem form_body_entries body :
  match body with
  | JObj _ | JArr _ =>
      ∀ d, processRequestBody body (Some (js "application/x-www-form-urlencoded")) = Ok d →
        ∃ pairs, d = DataForm pairs ∧
                 pairs.*1 = (Object_entries body).*1 ∧
                 Forall2 (λ e p, ToString e.2 = Ok p.2) (Object_entries body) pairs
  | _ =>
      processRequestBody body (Some (js "application/x-www-form-urlencoded"))
      = Ok (DataValue body)
  end.
Proof.
  destruct body as [|b|n|s|items|props]; try reflexivity.
  - intros d. unfold processRequestBody.
    cbn -[Object_entries append_all].
    destruct (append_all (Object_entries (JArr items))) as [pairs|] eqn:E;
      simpl; [|discriminate].
    intros [= <-]. exists pairs. split; [done|]. by apply append_all_Ok.
  - intros d. unfold processRequestBody.
    cbn -[Object_entries append_all].
    destruct (append_all (Object_entries (JObj props))) as [pairs|] eqn:E;
      simpl; [|discriminate].
    intros [= <-]. exists pairs. split; [done|]. by apply append_all_Ok.
Qed.

Lemma form_body_entries_witness :
  processRequestBody
    (JObj [(js "name", JStr (js "a b")); (js "2", JNum (number_of_N 5));
           (js "tags", JArr [JStr (js "x"); JNull; JStr (js "y")]);
           (js "1", JObj [(js "deep", JBool true)])])
    (Some (js "application/x-www-form-urlencoded"))
  = Ok (DataForm [(js "1", js "[object Object]"); (js "2", js "5");
                  (js "name", js "a b"); (js "tags", js "x,,y")]) ∧
  ∃ pairs,
    DataForm [(js "1", js "[object Object]"); (js "2", js "5");
              (js "name", js "a b"); (js "tags", js "x,,y")] = DataForm pairs ∧
    pairs.*1 = [js "1"; js "2"; js "name"; js "tags"].
Proof.
  assert (processRequestBody
    (JObj [(js "name", JStr (js "a b")); (js "2", JNum (number_of_N 5));
           (js "tags", JArr [JStr (js "x"); JNull; JStr (js "y")]);
           (js "1", JObj [(js "deep", JBool true)])])
    (Some (js "application/x-www-form-urlencoded"))
  = Ok (DataForm [(js "1", js "[object Object]"); (js "2", js "5");
                  (js "name", js "a b"); (js "tags", js "x,,y")])) as H
    by (vm_compute; reflexivity).
  split; [exact H|].
  destruct (form_body_entries (JObj [(js "name", JStr (js "a b")); (js "2", JNum (number_of_N 5));
           (js "tags", JArr [JStr (js "x"); JNull; JStr (js "y")]);
           (js "1", JObj [(js "deep", JBool true)])]) _ H) as (pairs & Hd & Hk & _).
  exists pairs. split; [exact Hd|]. rewrite Hk. vm_compute. reflexivity.
Defined.

(** ** The handler of tool calls *)

Example http_error_message_not_found :
  http_error_message
    {| err_response := Some not_found_response;
       err_message := js "Request failed with status code 404";
       err_config_url := None; err_config_method := None |}
  = [72; 84; 84; 80; 32; 52; 48; 52; 58; 32] ++ js "Not Found - {" ++
    [34] ++ js "error" ++ [34; 58; 34] ++ js "no such item" ++ [34; 125].
Proof. vm_compute. reflexivity. Qed.

Example basic_credentials :
  constructor_headers
    {| additionalHeaders := None; timeout := None;
       username := Some (js "user"); password := Some (js "pass") |}
    !! js "Authorization"
  = Some (js "Basic dXNlcjpwYXNz").
Proof. vm_compute. reflexivity. Qed.

Lemma is_prefix_app3 (a b c d : jsstring) :
  is_prefix (a ++ b ++ c) (a ++ b ++ c ++ d) = true.
Proof.
  rewrite (app_assoc b c d), (app_assoc a (b ++ c) d). apply is_prefix_app.
Qed.

(** X17: the handler throws only for a name that is not among the tools,
    and then sends nothing.  For a tool it always returns a result and
    sends at most one request: when no request went out the result is an
    error whose text starts with [Error executing], the name and a colon;
    a result that is not an error comes from the one request sent, a
    resolved reply, and starts with the printed result. *)
Theorem call_tool_outcome transport stringify getToolMetadata engine_message
    tools c name args :
  (includes tools name = false →
   call_tool transport stringify getToolMetadata engine_message tools c name args
   = (Throw (Error (js "Tool " ++ name ++ js " not found")), [])) ∧
  (includes tools name = true →
   ∃ res log,
     call_tool transport stringify getToolMetadata engine_message tools c name args
     = (Ok res, log) ∧
     (length log ≤ 1)%nat ∧
     (log = [] →
      result_isError res = true ∧
      is_prefix (js "Error executing " ++ name ++ js ": ") (result_text res) = true) ∧
     (result_isError res = false →
      ∃ config response text,
        log = [config] ∧
        build_request c name (default [] args) = Ok config ∧
        transport config = Resolved response ∧
        shape_reply (Resolved response) ≫= stringify = Ok text ∧
        is_prefix text (result_text res) = true)).
Proof.
  split; intros Hin; unfold call_tool; rewrite Hin; simpl; [done|].
  unfold executeOperation.
  destruct (build_request c name (default [] args)) as [config|e] eqn:Hb; simpl.
  - destruct (transport config) as [response|error|error] eqn:Ht; simpl.
    + destruct (stringify _) as [text|e] eqn:Hs; simpl.
      * eexists _, _. split; [reflexivity|]. simpl.
        split; [lia|]. split; [discriminate|]. intros _.
        exists config, response, text. repeat split; try done.
        destruct (getToolMetadata name); [apply is_prefix_app|].
        rewrite <- (app_nil_r text) at 2. apply is_prefix_app.
      * eexists _, _. split; [reflexivity|]. simpl.
        split; [lia|]. split; [discriminate|]. discriminate.
    + eexists _, _. split; [reflexivity|]. simpl.
      split; [lia|]. split; [discriminate|]. discriminate.
    + eexists _, _. split; [reflexivity|]. simpl.
      split; [lia|]. split; [discriminate|]. discriminate.
  - eexists _, _. split; [reflexivity|]. simpl.
    split; [lia|]. split; [|discriminate]. intros _. split; [done|].
    exact (is_prefix_app3 (js "Error executing ") name (js ": ") _).
Qed.

Lemma call_tool_outcome_witness :
  includes items_tools (js "deleteItem") = false ∧
  call_tool (λ _, RejectedAxios connection_refused) plain_stringify no_metadata
    plain_message items_tools items_client (js "deleteItem") None
  = (Throw (Error (js "Tool deleteItem not found")), []) ∧
  includes items_tools (js "getItem") = true ∧
  call_tool (λ _, RejectedAxios connection_refused) plain_stringify no_metadata
    plain_message items_tools items_client (js "getItem") None
  = (Ok {| result_text :=
             js "Error executing getItem: Missing required parameters: id (path), limit (query)";
           result_isError := true |}, []).
Proof.
  split; [reflexivity|]. split.
  - exact (proj1 (call_tool_outcome (λ _, RejectedAxios connection_refused)
             plain_stringify no_metadata plain_message items_tools items_client
             (js "deleteItem") None) eq_refl).
  - split; [reflexivity|].
    destruct (proj2 (call_tool_outcome (λ _, RejectedAxios connection_refused)
               plain_stringify no_metadata plain_message items_tools items_client
               (js "getItem") None) eq_refl) as (res & log & E & _).
    rewrite E. vm_compute in E. injection E as <- <-. reflexivity.
Defined.

(** X18: a call that fails validation reaches the caller of the handler as
    an error result, not as an exception: when some required parameter
    reads [undefined] or [null] in the arguments and no value that is read
    fails to convert, the text is [Error executing], the name, and the
    message that lists the missing parameters; no request is sent.  (A
    parameter that bears the name of a member of [Object.prototype] never
    reads [undefined], and so is never missing.) *)
Theorem call_tool_missing_parameters transport stringify getToolMetadata
    engine_message tools c name info args :
  includes tools name = true →
  operations c !! name = Some info →
  first_failure (default [] args) (parameters info) = None →
  missing_labels (default [] args) (parameters info) ≠ [] →
  call_tool transport stringify getToolMetadata engine_message tools c name args
  = (Ok {| result_text :=
             js "Error executing " ++ name ++ js ": " ++
             missing_message (default [] args) (parameters info);
           result_isError := true |}, []).
Proof.
  intros Hin Hop Hf Hm. unfold call_tool, executeOperation. rewrite Hin. simpl.
  by rewrite (build_request_missing c name info _ Hop Hf Hm).
Qed.

Lemma call_tool_missing_parameters_witness :
  includes [js "search"] (js "search") = true ∧
  operations search_client !! js "search" = Some search_info ∧
  first_failure [(js "X-Trace", JStr (js "t1"))] (parameters search_info) = None ∧
  missing_labels [(js "X-Trace", JStr (js "t1"))] (parameters search_info)
  = [js "q (query)"] ∧
  call_tool (λ _, Resolved not_found_response) plain_stringify no_metadata
    plain_message [js "search"] search_client (js "search")
    (Some [(js "X-Trace", JStr (js "t1"))])
  = (Ok {| result_text :=
             js "Error executing search: Missing required parameters: q (query)";
           result_isError := true |}, []).
Proof.
  assert (operations search_client !! js "search" = Some search_info) as H1
    by (vm_compute; reflexivity).
  assert (first_failure [(js "X-Trace", JStr (js "t1"))] (parameters search_info) = None)
    as H2 by (vm_compute; reflexivity).
  assert (missing_labels [(js "X-Trace", JStr (js "t1"))] (parameters search_info)
          = [js "q (query)"]) as H3 by (vm_compute; reflexivity).
  split; [reflexivity|]. split; [exact H1|]. split; [exact H2|]. split; [exact H3|].
  rewrite (call_tool_missing_parameters (λ _, Resolved not_found_response)
             plain_stringify no_metadata plain_message [js "search"] search_client
             (js "search") search_info (Some [(js "X-Trace", JStr (js "t1"))])
             eq_refl H1 H2); [vm_compute; reflexivity|].
  vm_compute. discriminate.
Defined.



(** ** The constructor *)

(** X20: when a user name and a password are both given and non-empty, the
    [Authorization] header of the HTTP client is the Basic header made of
    them, whatever [Authorization] the additional headers hold.  With one
    of the two missing or empty the constructor makes no header from the
    credentials: [Authorization] is then what the additional headers give,
    be it nothing, a bearer token or a Basic header of the caller's own.
    [Content-Type] is application/json unless the additional headers give
    another, and every other additional header is kept. *)
Theorem constructor_headers_content opts :
  (truthy (username opts) = true → truthy (password opts) = true →
   constructor_headers opts !! js "Authorization"
   = Some (js "Basic " ++
           base64 (utf8_bytes (default [] (username opts) ++ js ":" ++
                               default [] (password opts))))) ∧
  (truthy (username opts) && truthy (password opts) = false →
   constructor_headers opts !! js "Authorization"
   = default ∅ (additionalHeaders opts) !! js "Authorization") ∧
  (is_Some (constructor_headers opts !! js "Authorization") ↔
   truthy (username opts) && truthy (password opts) = true ∨
   is_Some (default ∅ (additionalHeaders opts) !! js "Authorization")) ∧
  constructor_headers opts !! js "Content-Type"
  = Some (default (js "application/json")
            (default ∅ (additionalHeaders opts) !! js "Content-Type")) ∧
  (∀ k, k ≠ js "Authorization" → k ≠ js "Content-Type" →
        constructor_headers opts !! k = default ∅ (additionalHeaders opts) !! k).
Proof.
  assert (∀ k, (default ∅ (additionalHeaders opts)
                ∪ {[ js "Content-Type" := js "application/json" ]}) !! k
               = match default ∅ (additionalHeaders opts) !! k with
                 | Some v => Some v
                 | None => if decide (k = js "Content-Type")
                           then Some (js "application/json") else None
                 end) as Hu.
  { intros k. rewrite lookup_union.
    destruct (default ∅ (additionalHeaders opts) !! k) as [v|]; simpl.
    - by destruct ({[ js "Content-Type" := js "application/json" ]} !! k).
    - destruct (decide (k = js "Content-Type")) as [->|Hne].
      + by rewrite lookup_singleton_eq.
      + by rewrite lookup_singleton_ne. }
  unfold constructor_headers. split; [|split; [|split; [|split]]].
  - intros Hu1 Hp1. rewrite Hu1, Hp1. simpl. apply lookup_insert_eq.
  - intros Hno. rewrite Hno, Hu.
    destruct (default ∅ (additionalHeaders opts) !! js "Authorization"); [done|].
    by destruct (decide _).
  - destruct (truthy (username opts) && truthy (password opts)).
    + rewrite lookup_insert_eq. split; [by left | eauto].
    + rewrite Hu.
      destruct (default ∅ (additionalHeaders opts) !! js "Authorization") as [v|].
      * split; [by right | eauto].
      * destruct (decide _) as [E|_]; [discriminate E|].
        split; [by intros [? ?] | intros [?|[? ?]]; discriminate].
  - destruct (truthy (username opts) && truthy (password opts)).
    + rewrite lookup_insert_ne by discriminate. rewrite Hu.
      destruct (default ∅ (additionalHeaders opts) !! js "Content-Type"); [done|].
      by destruct (decide _).
    + rewrite Hu.
      destruct (default ∅ (additionalHeaders opts) !! js "Content-Type"); [done|].
      by destruct (decide _).
  - intros k Hk1 Hk2.
    destruct (truthy (username opts) && truthy (password opts)).
    + rewrite lookup_insert_ne by done. rewrite Hu.
      destruct (default ∅ (additionalHeaders opts) !! k); [done|].
      by destruct (decide _).
    + rewrite Hu. destruct (default ∅ (additionalHeaders opts) !! k); [done|].
      by destruct (decide _).
Qed.

Lemma constructor_headers_content_witness :
  truthy (Some (js "user")) = true ∧ truthy (Some (js "pass")) = true ∧
  constructor_headers
    {| additionalHeaders := Some {[ js "Authorization" := js "Bearer t" ]};
       timeout := None; username := Some (js "user"); password := Some (js "pass") |}
    !! js "Authorization"
  = Some (js "Basic dXNlcjpwYXNz") ∧
  truthy (Some (js "user")) && truthy (Some []) = false ∧
  constructor_headers
    {| additionalHeaders := Some {[ js "Authorization" := js "Basic b3duOm93bg==" ]};
       timeout := None; username := Some (js "user"); password := Some [] |}
    !! js "Authorization"
  = Some (js "Basic b3duOm93bg==").
Proof.
  split; [reflexivity|]. split; [reflexivity|]. split; [|split; [reflexivity|]].
  - rewrite (proj1 (constructor_headers_content
               {| additionalHeaders := Some {[ js "Authorization" := js "Bearer t" ]};
                  timeout := None; username := Some (js "user");
                  password := Some (js "pass") |}) eq_refl eq_refl).
    vm_compute. reflexivity.
  - rewrite (proj1 (proj2 (constructor_headers_content
               {| additionalHeaders :=
                    Some {[ js "Authorization" := js "Basic b3duOm93bg==" ]};
                  timeout := None; username := Some (js "user");
                  password := Some [] |})) eq_refl).
    vm_compute. reflexivity.
Defined.

(** ** The command line *)






(** X21: [main] starts the server only when the schema file exists, the
    header text, if one is given, is JSON after substitution, and user name
    and password are given both or neither; a user name without password,
    or a password without user name, always ends in exit code 1.  Without
    header text the additional headers are the empty object. *)
Theorem main_start_conditions o env :
  (∀ opts, main o env = Start opts →
     schema_exists env = true ∧
     truthy (cli_username o) = truthy (cli_password o) ∧
     start_baseUrl opts = cli_baseUrl o ∧
     start_username opts = cli_username o ∧
     start_password opts = cli_password o ∧
     (truthy (cli_headers o) = false → start_additionalHeaders opts = JObj []) ∧
     (truthy (cli_headers o) = true →
      JSON_parse (substituted_headers env (default [] (cli_headers o)))
      = Ok (start_additionalHeaders opts))) ∧
  (truthy (cli_username o) ≠ truthy (cli_password o) →
   ∃ reason, main o env = Exit reason) ∧
  (schema_exists env = false → main o env = Exit SchemaNotFound) ∧
  (schema_exists env = true → truthy (cli_headers o) = false →
   truthy (cli_username o) = truthy (cli_password o) →
   main o env = Start {| start_baseUrl := cli_baseUrl o;
                         start_additionalHeaders := JObj [];
                         start_username := cli_username o;
                         start_password := cli_password o |}).
Proof.
  unfold main. split; [|split; [|split]].
  - intros opts. destruct (schema_exists env); simpl; [|discriminate].
    destruct (truthy (cli_headers o)).
    + destruct (JSON_parse _) as [v|]; [|discriminate].
      destruct (truthy (cli_username o)), (truthy (cli_password o)); simpl;
        try discriminate; intros [= <-]; simpl; repeat split; done.
    + destruct (truthy (cli_username o)), (truthy (cli_password o)); simpl;
        try discriminate; intros [= <-]; simpl; repeat split; done.
  - intros Hne. destruct (schema_exists env); simpl; [|eauto].
    destruct (if truthy (cli_headers o) then _ else _); [|eauto].
    destruct (truthy (cli_username o)), (truthy (cli_password o)); simpl;
      try (by destruct Hne); eauto.
  - by intros ->.
  - intros -> -> Heq. simpl. rewrite Heq.
    by destruct (truthy (cli_password o)).
Qed.

Lemma main_start_conditions_witness :
  truthy (Some (js "admin")) ≠ truthy (None : option jsstring) ∧
  main {| cli_schema := js "api.yaml"; cli_baseUrl := None; cli_headers := None;
          cli_username := Some (js "admin"); cli_password := None |}
       {| schema_exists := true; BEARER_TOKEN := None; ORGANIZATION_ID := None |}
  = Exit IncompleteCredentials ∧
  main {| cli_schema := js "api.yaml"; cli_baseUrl := Some (js "http://localhost");
          cli_headers := None;
          cli_username := Some (js "admin"); cli_password := Some (js "secret") |}
       {| schema_exists := true; BEARER_TOKEN := None; ORGANIZATION_ID := None |}
  = Start {| start_baseUrl := Some (js "http://localhost");
             start_additionalHeaders := JObj [];
             start_username := Some (js "admin");
             start_password := Some (js "secret") |}.
Proof.
  assert (truthy (Some (js "admin")) ≠ truthy (None : option jsstring)) as Hne
    by discriminate.
  split; [exact Hne|]. split.
  - destruct (proj1 (proj2 (main_start_conditions
        {| cli_schema := js "api.yaml"; cli_baseUrl := None; cli_headers := None;
           cli_username := Some (js "admin"); cli_password := None |}
        {| schema_exists := true; BEARER_TOKEN := None; ORGANIZATION_ID := None |}))
        Hne) as [reason E].
    rewrite E. vm_compute in E. by injection E as <-.
  - exact (proj2 (proj2 (proj2 (main_start_conditions
        {| cli_schema := js "api.yaml"; cli_baseUrl := Some (js "http://localhost");
           cli_headers := None;
           cli_username := Some (js "admin"); cli_password := Some (js "secret") |}
        {| schema_exists := true; BEARER_TOKEN := None; ORGANIZATION_ID := None |})))
        eq_refl eq_refl eq_refl).
Defined.



(** ** Checks of the models of the runtime functions *)

Example replace_string_patterns :
  replace_string (js "TOKEN") (js "<$&|$$|$1>") (js "a TOKEN b TOKEN")
  = js "a <TOKEN|$|$1> b TOKEN".
Proof. vm_compute. reflexivity. Qed.

Example stringify_then_parse :
  JSON_parse
    (JSON_stringify
       (JObj [(js "b", JArr [JNum (Finite true [2; 5] (-1)); JNull; JBool false]);
              (js "10", JStr [34; 92; 10; 233; 55357]);
              (js "2", JObj [])]))
  = Ok (JObj [(js "2", JObj []);
              (js "10", JStr [34; 92; 10; 233; 55357]);
              (js "b", JArr [JNum (Finite true [2; 5] (-1)); JNull; JBool false])]).
Proof. vm_compute. reflexivity. Qed.

Example base64_padding :
  base64 (utf8_bytes (js "a")) = js "YQ==" ∧
  base64 (utf8_bytes (js "ab")) = js "YWI=" ∧
  base64 (utf8_bytes [233; 8364]) = js "w6nigqw=".
Proof. vm_compute. repeat split; reflexivity. Qed.

Example main_with_headers :
  main {| cli_schema := js "api.yaml"; cli_baseUrl := None;
          cli_headers := Some ([123; 34] ++ js "X-Org" ++ [34; 58; 34] ++
                               js "ORGANIZATION_ID" ++ [34; 125]);
          cli_username := None; cli_password := None |}
       {| schema_exists := true; BEARER_TOKEN := None;
          ORGANIZATION_ID := Some (js "acme") |}
  = Start {| start_baseUrl := None;
             start_additionalHeaders := JObj [(js "X-Org", JStr (js "acme"))];
             start_username := None; start_password := None |}.
Proof. vm_compute. reflexivity. Qed.
